(** * PQC-Edge-Attestor: a shallow embedding of the cryptographic core

    The development follows the C sources file by file:

    - [PqcCommon]     : src/crypto/pqc_common.{h,c} (result codes, random
                        source, Generation 1 placeholder hashes)
    - [SecureMemory]  : src/crypto/secure_memory.c
    - [CryptoHash]    : src/crypto/cryptoHash.c (Keccak sponge, Generation 2)
    - [Kyber]         : src/crypto/kyber.c
    - [Dilithium]     : src/crypto/dilithium.c
    - [Tpm2]          : src/attestation/tmp2_interface.c
    - [Attestation]   : src/attestation/attestation_engine.c

    Conventions.  Machine integers are [Z] with the wrap-around written out
    ([u8], [u16], [u32], [u64]); byte buffers are [list Z]; C arrays are
    lists read with [rd] and updated with stdpp's [<[i:=v]>]; a pointer
    argument is an [option]: [None] is NULL and [Some b] points to a buffer
    whose current contents are [b].  Functions return the new contents of
    the buffers they write.  A read past the end of an array (undefined in
    C) yields 0, and a local array that C leaves uninitialised starts
    zero-filled unless its contents are passed in explicitly. *)

From Stdlib Require Import ZArith List Lia Bool.
From stdpp Require Import base list.
Import ListNotations.
Open Scope Z_scope.

(** ** Machine arithmetic and loops *)

Definition u8 (x : Z) : Z := Z.land x 255.
Definition u16 (x : Z) : Z := Z.land x 65535.
Definition u32 (x : Z) : Z := Z.land x 4294967295.
Definition u64 (x : Z) : Z := Z.land x 18446744073709551615.

(** Conversion to a signed type keeps the low bits (two's complement). *)
Definition s16 (x : Z) : Z :=
  let y := u16 x in if y <? 32768 then y else y - 65536.
Definition s32 (x : Z) : Z :=
  let y := u32 x in if y <? 2147483648 then y else y - 4294967296.

(** [a[i]] for an array of integers. *)
Definition rd (l : list Z) (i : nat) : Z := default 0 (l !! i).

(** [for (i = start; i < start + count; i++) s = body i s]. *)
Definition for_range {S : Type} (start count : nat)
  (body : nat -> S -> S) (s : S) : S :=
  fold_left (fun acc i => body i acc) (seq start count) s.

(** [memcpy(dst + off, src, length src)]. *)
Definition memcpy_at (dst : list Z) (off : nat) (src : list Z) : list Z :=
  take off dst ++ src ++ drop (off + length src) dst.

(** Little-endian value of the first [n] bytes at offset [off]. *)
Definition load_le (buf : list Z) (off n : nat) : Z :=
  for_range 0 n (fun i acc =>
    Z.lor acc (Z.shiftl (rd buf (off + i)) (8 * Z.of_nat i))) 0.

(** A value that fits a uint8_t. *)
Definition is_byte (b : Z) : Prop := 0 <= b < 256.

(** ** pqc_common.h / pqc_common.c *)

Module PqcCommon.

Inductive pqc_result_t : Set :=
| PQC_SUCCESS
| PQC_ERROR_INVALID_PARAMETER
| PQC_ERROR_INSUFFICIENT_MEMORY
| PQC_ERROR_RANDOM_GENERATION
| PQC_ERROR_INVALID_SIGNATURE
| PQC_ERROR_INVALID_CIPHERTEXT
| PQC_ERROR_INVALID_KEY
| PQC_ERROR_ALGORITHM_NOT_SUPPORTED
| PQC_ERROR_HARDWARE_FAILURE
| PQC_ERROR_NOT_IMPLEMENTED
| PQC_ERROR_INTERNAL.

Definition pqc_result_code (r : pqc_result_t) : Z :=
  match r with
  | PQC_SUCCESS => 0
  | PQC_ERROR_INVALID_PARAMETER => -1
  | PQC_ERROR_INSUFFICIENT_MEMORY => -2
  | PQC_ERROR_RANDOM_GENERATION => -3
  | PQC_ERROR_INVALID_SIGNATURE => -4
  | PQC_ERROR_INVALID_CIPHERTEXT => -5
  | PQC_ERROR_INVALID_KEY => -6
  | PQC_ERROR_ALGORITHM_NOT_SUPPORTED => -7
  | PQC_ERROR_HARDWARE_FAILURE => -8
  | PQC_ERROR_NOT_IMPLEMENTED => -9
  | PQC_ERROR_INTERNAL => -10
  end.

Definition is_success (r : pqc_result_t) : bool :=
  match r with PQC_SUCCESS => true | _ => false end.

(** The random source.  [pqc_randombytes] reads /dev/urandom with [fread];
    the device is modelled as a tape of bytes still to be delivered, and a
    tape that runs dry is the short read of the C code.  (The [rand()]
    fallback taken when the device cannot be opened is not modelled.) *)
Definition pqc_randombytes (buffer : option (list Z)) (length : nat)
  (tape : list Z) : pqc_result_t * option (list Z) * list Z :=
  match buffer with
  | None => (PQC_ERROR_INVALID_PARAMETER, buffer, tape)
  | Some buf =>
    if (length =? 0)%nat then (PQC_ERROR_INVALID_PARAMETER, buffer, tape)
    else
      let got := take length tape in
      let read_bytes := List.length got in
      let buf' := memcpy_at buf 0 got in
      if negb (read_bytes =? length)%nat
      then (PQC_ERROR_RANDOM_GENERATION, Some buf', drop length tape)
      else (PQC_SUCCESS, Some buf', drop length tape)
  end.

(** Generation 1 placeholder hashes (bodies after the NULL checks). *)
Definition shake128_fold (outlen : nat) (input : list Z) (inlen : nat)
  : list Z :=
  map (fun i => Z.lxor (rd input (i mod inlen)) (u8 (Z.of_nat i)))
      (seq 0 outlen).

Definition shake256_fold (outlen : nat) (input : list Z) (inlen : nat)
  (custom : option (list Z)) (customlen : nat) : list Z :=
  map (fun i =>
    let val := Z.lxor (rd input (i mod inlen)) (u8 (Z.of_nat i)) in
    match custom with
    | Some c =>
      if (0 <? customlen)%nat then Z.lxor val (rd c (i mod customlen))
      else val
    | None => val
    end) (seq 0 outlen).

Definition sha3_fold (width : nat) (input : list Z) (inlen : nat) : list Z :=
  for_range 0 inlen (fun i hash =>
    <[(i mod width)%nat := Z.lxor (rd hash (i mod width)) (rd input i)]> hash)
    (replicate width 0).

Definition shake128 (output : option (list Z)) (outlen : nat)
  (input : option (list Z)) (inlen : nat)
  : pqc_result_t * option (list Z) :=
  match output, input with
  | Some out, Some inp =>
    (PQC_SUCCESS, Some (memcpy_at out 0 (shake128_fold outlen inp inlen)))
  | _, _ => (PQC_ERROR_INVALID_PARAMETER, output)
  end.

Definition shake256 (output : option (list Z)) (outlen : nat)
  (input : option (list Z)) (inlen : nat)
  (custom : option (list Z)) (customlen : nat)
  : pqc_result_t * option (list Z) :=
  match output, input with
  | Some out, Some inp =>
    (PQC_SUCCESS,
     Some (memcpy_at out 0 (shake256_fold outlen inp inlen custom customlen)))
  | _, _ => (PQC_ERROR_INVALID_PARAMETER, output)
  end.

Definition sha3_256 (hash : option (list Z)) (input : option (list Z))
  (inlen : nat) : pqc_result_t * option (list Z) :=
  match hash, input with
  | Some h, Some inp =>
    (PQC_SUCCESS, Some (memcpy_at h 0 (sha3_fold 32 inp inlen)))
  | _, _ => (PQC_ERROR_INVALID_PARAMETER, hash)
  end.

Definition sha3_512 (hash : option (list Z)) (input : option (list Z))
  (inlen : nat) : pqc_result_t * option (list Z) :=
  match hash, input with
  | Some h, Some inp =>
    (PQC_SUCCESS, Some (memcpy_at h 0 (sha3_fold 64 inp inlen)))
  | _, _ => (PQC_ERROR_INVALID_PARAMETER, hash)
  end.

End PqcCommon.
Export PqcCommon.

(** ** secure_memory.c *)

Module SecureMemory.

Definition secure_memcmp (a b : option (list Z)) (length : nat) : Z :=
  match a, b with
  | Some pa, Some pb =>
    let result := for_range 0 length (fun i result =>
      u8 (Z.lor result (Z.lxor (rd pa i) (rd pb i)))) 0 in
    if result =? 0 then 0 else 1
  | _, _ => -1
  end.

Definition secure_memzero (ptr : list Z) (length : nat) : list Z :=
  for_range 0 length (fun i p => <[i := 0]> p) ptr.

Definition secure_memcpy (dest src : option (list Z)) (length : nat)
  : option (list Z) :=
  match dest, src with
  | Some d, Some s =>
    if (length =? 0)%nat then dest
    else Some (for_range 0 length (fun i d => <[i := rd s i]> d) d)
  | _, _ => dest
  end.

(** [mask] is a uint8_t; [~mask] is computed in [int] and the result is
    stored back into a byte. *)
Definition secure_memcpy_conditional (dest src : option (list Z))
  (length : nat) (condition : Z) : option (list Z) :=
  match dest, src with
  | Some d, Some s =>
    if (length =? 0)%nat then dest
    else
      let mask := if negb (Z.land condition 1 =? 0) then 0xFF else 0x00 in
      Some (for_range 0 length (fun i d =>
        <[i := u8 (Z.lor (Z.land (rd d i) (Z.lnot mask))
                         (Z.land (rd s i) mask))]> d) d)
  | _, _ => dest
  end.

(** The allocation statistics: three size_t counters (64 bits). *)
Record alloc_stats_t : Type := {
  g_allocated_bytes : Z;
  g_peak_allocated_bytes : Z;
  g_allocation_count : Z
}.

(** [secure_malloc].  The heap is the C library's: whether [malloc] returns
    a block is the argument [malloc_ok], and the result says whether the
    returned pointer is non-NULL. *)
Definition secure_malloc (size : Z) (malloc_ok : bool) (st : alloc_stats_t)
  : bool * alloc_stats_t :=
  if size =? 0 then (false, st)
  else if malloc_ok then
    let allocated := u64 (g_allocated_bytes st + size) in
    let count := u64 (g_allocation_count st + 1) in
    let peak := if g_peak_allocated_bytes st <? allocated
                then allocated else g_peak_allocated_bytes st in
    (true, {| g_allocated_bytes := allocated;
              g_peak_allocated_bytes := peak;
              g_allocation_count := count |})
  else (false, st).

(** [secure_free] and [secure_aligned_free] treat the counters alike;
    [ptr] says whether the pointer is non-NULL. *)
Definition secure_free (ptr : bool) (size : Z) (st : alloc_stats_t)
  : alloc_stats_t :=
  if negb ptr then st
  else if size <=? g_allocated_bytes st
  then {| g_allocated_bytes := u64 (g_allocated_bytes st - size);
          g_peak_allocated_bytes := g_peak_allocated_bytes st;
          g_allocation_count := g_allocation_count st |}
  else st.

Definition secure_aligned_malloc (size alignment : Z) (malloc_ok : bool)
  (st : alloc_stats_t) : bool * alloc_stats_t :=
  if (size =? 0) || (alignment =? 0)
     || negb (Z.land alignment (u64 (alignment - 1)) =? 0)
  then (false, st)
  else if negb malloc_ok then (false, st)
  else
    let allocated := u64 (g_allocated_bytes st + size) in
    let count := u64 (g_allocation_count st + 1) in
    let peak := if g_peak_allocated_bytes st <? allocated
                then allocated else g_peak_allocated_bytes st in
    (true, {| g_allocated_bytes := allocated;
              g_peak_allocated_bytes := peak;
              g_allocation_count := count |}).

Definition secure_aligned_free (ptr : bool) (size : Z) (st : alloc_stats_t)
  : alloc_stats_t :=
  if negb ptr then st
  else if size <=? g_allocated_bytes st
  then {| g_allocated_bytes := u64 (g_allocated_bytes st - size);
          g_peak_allocated_bytes := g_peak_allocated_bytes st;
          g_allocation_count := g_allocation_count st |}
  else st.

Definition secure_memory_init (st : alloc_stats_t) : Z * alloc_stats_t :=
  (0, {| g_allocated_bytes := 0; g_peak_allocated_bytes := 0;
         g_allocation_count := 0 |}).

(** A client of the allocator: one call of its interface. *)
Inductive alloc_call : Type :=
| CallMalloc (size : Z) (malloc_ok : bool)
| CallFree (ptr : bool) (size : Z)
| CallAlignedMalloc (size alignment : Z) (malloc_ok : bool)
| CallAlignedFree (ptr : bool) (size : Z)
| CallInit.

Definition run_call (st : alloc_stats_t) (c : alloc_call) : alloc_stats_t :=
  match c with
  | CallMalloc size ok => snd (secure_malloc size ok st)
  | CallFree ptr size => secure_free ptr size st
  | CallAlignedMalloc size alignment ok =>
    snd (secure_aligned_malloc size alignment ok st)
  | CallAlignedFree ptr size => secure_aligned_free ptr size st
  | CallInit => snd (secure_memory_init st)
  end.

(** The size argument of a call (a size_t). *)
Definition call_size (c : alloc_call) : Z :=
  match c with
  | CallMalloc size _ => size
  | CallFree _ size => size
  | CallAlignedMalloc size _ _ => size
  | CallAlignedFree _ size => size
  | CallInit => 0
  end.

End SecureMemory.
Export SecureMemory.

(** ** cryptoHash.c: Keccak-f[1600], SHA-3 and SHAKE *)

Module CryptoHash.

Definition KECCAK_ROUNDS : nat := 24.
Definition KECCAK_RATE_SHA3_256 : nat := 136.
Definition KECCAK_RATE_SHA3_512 : nat := 72.
Definition KECCAK_RATE_SHAKE128 : nat := 168.
Definition KECCAK_RATE_SHAKE256 : nat := 136.

Definition keccak_round_constants : list Z :=
  [0x0000000000000001; 0x0000000000008082; 0x800000000000808a;
   0x8000000080008000; 0x000000000000808b; 0x0000000080000001;
   0x8000000080008081; 0x8000000000008009; 0x000000000000008a;
   0x0000000000000088; 0x0000000080008009; 0x000000008000000a;
   0x000000008000808b; 0x800000000000008b; 0x8000000000008089;
   0x8000000000008003; 0x8000000000008002; 0x8000000000000080;
   0x000000000000800a; 0x800000008000000a; 0x8000000080008081;
   0x8000000000008080; 0x0000000080000001; 0x8000000080008008].

Definition keccak_rho_offsets : list Z :=
  [ 0;  1; 62; 28; 27; 36; 44;  6; 55; 20;
    3; 10; 43; 25; 39; 41; 45; 15; 21;  8;
   18;  2; 61; 56; 14].

Definition pi_indices : list nat :=
  [0; 6; 12; 18; 24; 3; 9; 10; 16; 22; 1; 7; 13; 19; 20;
   4; 5; 11; 17; 23; 2; 8; 14; 15; 21]%nat.

Record keccak_state_t : Type := {
  state : list Z;
  rate : nat;
  capacity : nat;
  pos : nat;
  suffix : Z
}.

(** [(x << n) | (x >> (64 - n))] on uint64_t.  For [n = 0] the right shift
    by 64 is undefined in C; here it yields 0, so that [rol64 x 0 = x]. *)
Definition rol64 (x n : Z) : Z :=
  u64 (Z.lor (Z.shiftl x n) (Z.shiftr x (64 - n))).

Definition keccak_round (round : nat) (state : list Z) : list Z :=
  (* Theta *)
  let C := for_range 0 5 (fun x C =>
    <[x := Z.lxor (Z.lxor (Z.lxor (Z.lxor (rd state x) (rd state (x + 5)))
                    (rd state (x + 10))) (rd state (x + 15)))
                  (rd state (x + 20))]> C) (replicate 5 0) in
  let D := for_range 0 5 (fun x D =>
    <[x := Z.lxor (rd C ((x + 4) mod 5)) (rol64 (rd C ((x + 1) mod 5)) 1)]> D)
    (replicate 5 0) in
  let state := for_range 0 5 (fun x st =>
    for_range 0 5 (fun y st =>
      <[(x + 5 * y)%nat := Z.lxor (rd st (x + 5 * y)) (rd D x)]> st) st)
    state in
  (* Rho and Pi *)
  let B := for_range 0 25 (fun i B =>
    <[default 0%nat (pi_indices !! i) :=
        rol64 (rd state i) (rd keccak_rho_offsets i)]> B) (replicate 25 0) in
  (* Chi *)
  let state := for_range 0 5 (fun y st =>
    for_range 0 5 (fun x st =>
      <[(x + 5 * y)%nat :=
          Z.lxor (rd B (x + 5 * y))
            (Z.land (u64 (Z.lnot (rd B (((x + 1) mod 5) + 5 * y))))
                    (rd B (((x + 2) mod 5) + 5 * y)))]> st) st) state in
  (* Iota *)
  <[0%nat := Z.lxor (rd state 0) (rd keccak_round_constants round)]> state.

Definition keccak_f1600 (state : list Z) : list Z :=
  for_range 0 KECCAK_ROUNDS keccak_round state.

(** The state seen through [(uint8_t * )ctx->state] on a little-endian
    machine: byte [i] is bits [8*(i mod 8) ..] of lane [i / 8]. *)
Definition state_byte (st : list Z) (i : nat) : Z :=
  u8 (Z.shiftr (rd st (i / 8)) (8 * Z.of_nat (i mod 8))).

Definition xor_state_byte (st : list Z) (i : nat) (b : Z) : list Z :=
  <[(i / 8)%nat :=
      Z.lxor (rd st (i / 8)) (Z.shiftl (u8 b) (8 * Z.of_nat (i mod 8)))]> st.

Definition keccak_init (rate : nat) (suffix : Z) : keccak_state_t :=
  {| state := replicate 25 0; rate := rate; capacity := 1600 - rate;
     pos := 0; suffix := suffix |}.

(** [while (len > 0)] of [keccak_update]; every turn consumes at least one
    byte, so [len] turns are enough. *)
Fixpoint keccak_update_loop (fuel : nat) (ctx : keccak_state_t)
  (input : list Z) (len : nat) : keccak_state_t :=
  match fuel with
  | O => ctx
  | S fuel' =>
    if (0 <? len)%nat then
      let chunk := if (rate ctx - pos ctx <? len)%nat
                   then (rate ctx - pos ctx)%nat else len in
      let st := for_range 0 chunk (fun i st =>
        xor_state_byte st (pos ctx + i) (rd input i)) (state ctx) in
      let pos' := (pos ctx + chunk)%nat in
      let ctx' :=
        if (pos' =? rate ctx)%nat
        then {| state := keccak_f1600 st; rate := rate ctx;
                capacity := capacity ctx; pos := 0; suffix := suffix ctx |}
        else {| state := st; rate := rate ctx;
                capacity := capacity ctx; pos := pos'; suffix := suffix ctx |}
      in
      keccak_update_loop fuel' ctx' (drop chunk input) (len - chunk)
    else ctx
  end.

Definition keccak_update (ctx : keccak_state_t) (input : list Z) (len : nat)
  : keccak_state_t :=
  keccak_update_loop len ctx input len.

(** [while (extracted < outlen)] of [keccak_final]; every turn extracts at
    least one byte when the rate is positive. *)
Fixpoint keccak_squeeze (fuel : nat) (st : list Z) (rate : nat)
  (output : list Z) (extracted outlen : nat) : list Z :=
  match fuel with
  | O => output
  | S fuel' =>
    if (extracted <? outlen)%nat then
      let chunk := if (rate <? outlen - extracted)%nat
                   then rate else (outlen - extracted)%nat in
      let output := memcpy_at output extracted
                      (map (state_byte st) (seq 0 chunk)) in
      let extracted := (extracted + chunk)%nat in
      let st := if (extracted <? outlen)%nat then keccak_f1600 st else st in
      keccak_squeeze fuel' st rate output extracted outlen
    else output
  end.

Definition keccak_final (ctx : keccak_state_t) (output : list Z)
  (outlen : nat) : list Z :=
  let st := xor_state_byte (state ctx) (pos ctx) (suffix ctx) in
  let st := xor_state_byte st (rate ctx - 1) 0x80 in
  let st := keccak_f1600 st in
  keccak_squeeze outlen st (rate ctx) output 0 outlen.

(** Bodies of the four primitives after their argument checks: the bytes
    written to the output buffer. *)
Definition sha3_256_digest (input : list Z) (inlen : nat) : list Z :=
  let ctx := keccak_init KECCAK_RATE_SHA3_256 0x06 in
  let ctx := keccak_update ctx input inlen in
  keccak_final ctx (replicate 32 0) 32.

Definition sha3_512_digest (input : list Z) (inlen : nat) : list Z :=
  let ctx := keccak_init KECCAK_RATE_SHA3_512 0x06 in
  let ctx := keccak_update ctx input inlen in
  keccak_final ctx (replicate 64 0) 64.

Definition shake128_output (outlen : nat) (input : list Z) (inlen : nat)
  : list Z :=
  let ctx := keccak_init KECCAK_RATE_SHAKE128 0x1F in
  let ctx := keccak_update ctx input inlen in
  keccak_final ctx (replicate outlen 0) outlen.

Definition shake256_output (outlen : nat) (input : list Z) (inlen : nat)
  (custom : option (list Z)) (customlen : nat) : list Z :=
  let ctx := keccak_init KECCAK_RATE_SHAKE256 0x1F in
  let ctx := keccak_update ctx input inlen in
  let ctx := match custom with
             | Some c => if (0 <? customlen)%nat
                         then keccak_update ctx c customlen else ctx
             | None => ctx
             end in
  keccak_final ctx (replicate outlen 0) outlen.

Definition sha3_256_enhanced (hash : option (list Z))
  (input : option (list Z)) (inlen : nat)
  : pqc_result_t * option (list Z) :=
  match hash, input with
  | Some h, Some inp =>
    (PQC_SUCCESS, Some (memcpy_at h 0 (sha3_256_digest inp inlen)))
  | _, _ => (PQC_ERROR_INVALID_PARAMETER, hash)
  end.

Definition sha3_512_enhanced (hash : option (list Z))
  (input : option (list Z)) (inlen : nat)
  : pqc_result_t * option (list Z) :=
  match hash, input with
  | Some h, Some inp =>
    (PQC_SUCCESS, Some (memcpy_at h 0 (sha3_512_digest inp inlen)))
  | _, _ => (PQC_ERROR_INVALID_PARAMETER, hash)
  end.

Definition shake128_enhanced (output : option (list Z)) (outlen : nat)
  (input : option (list Z)) (inlen : nat)
  : pqc_result_t * option (list Z) :=
  match output, input with
  | Some out, Some inp =>
    if ((outlen =? 0) || (65536 <? outlen))%nat
    then (PQC_ERROR_INVALID_PARAMETER, output)
    else (PQC_SUCCESS, Some (memcpy_at out 0 (shake128_output outlen inp inlen)))
  | _, _ => (PQC_ERROR_INVALID_PARAMETER, output)
  end.

Definition shake256_enhanced (output : option (list Z)) (outlen : nat)
  (input : option (list Z)) (inlen : nat)
  (custom : option (list Z)) (customlen : nat)
  : pqc_result_t * option (list Z) :=
  match output, input with
  | Some out, Some inp =>
    if ((outlen =? 0) || (65536 <? outlen))%nat
    then (PQC_ERROR_INVALID_PARAMETER, output)
    else (PQC_SUCCESS,
          Some (memcpy_at out 0
                  (shake256_output outlen inp inlen custom customlen)))
  | _, _ => (PQC_ERROR_INVALID_PARAMETER, output)
  end.

(** The wrappers that replace the Generation 1 functions of the same
    names. *)
Definition sha3_256 := sha3_256_enhanced.
Definition sha3_512 := sha3_512_enhanced.
Definition shake128 := shake128_enhanced.
Definition shake256 := shake256_enhanced.

(** [hash_self_test]: the vector the source checks [sha3_256] against. *)
Definition expected_sha3_256 : list Z :=
  [0x3a; 0x98; 0x5d; 0xa7; 0x4f; 0xe2; 0x25; 0xb2;
   0x04; 0x5c; 0x17; 0x2d; 0x6b; 0xd3; 0x90; 0xbd;
   0x85; 0x5f; 0x08; 0x6e; 0x3e; 0x9d; 0x52; 0x5b;
   0x46; 0xbf; 0xe2; 0x45; 0x11; 0x43; 0x15; 0x32].

Definition hash_self_test_sha3 : pqc_result_t :=
  let test_input := [97; 98; 99] in
  let '(status, result) :=
    sha3_256 (Some (replicate 32 0)) (Some test_input) 3 in
  if negb (is_success status) then status
  else if negb (secure_memcmp result (Some expected_sha3_256) 32 =? 0)
       then PQC_ERROR_INTERNAL
       else PQC_SUCCESS.

(** For comparison only, not in the source: the round of FIPS 202, which
    section 4.3 of the specification asks for.  It differs from
    [keccak_round] in the rho and pi steps alone: the lane
    [pi_indices[i]], rotated by its own offset, goes to position [i]. *)
Definition keccak_round_fips202 (round : nat) (state : list Z) : list Z :=
  let C := for_range 0 5 (fun x C =>
    <[x := Z.lxor (Z.lxor (Z.lxor (Z.lxor (rd state x) (rd state (x + 5)))
                    (rd state (x + 10))) (rd state (x + 15)))
                  (rd state (x + 20))]> C) (replicate 5 0) in
  let D := for_range 0 5 (fun x D =>
    <[x := Z.lxor (rd C ((x + 4) mod 5)) (rol64 (rd C ((x + 1) mod 5)) 1)]> D)
    (replicate 5 0) in
  let state := for_range 0 5 (fun x st =>
    for_range 0 5 (fun y st =>
      <[(x + 5 * y)%nat := Z.lxor (rd st (x + 5 * y)) (rd D x)]> st) st)
    state in
  let B := for_range 0 25 (fun i B =>
    let src := default 0%nat (pi_indices !! i) in
    <[i := rol64 (rd state src) (rd keccak_rho_offsets src)]> B)
    (replicate 25 0) in
  let state := for_range 0 5 (fun y st =>
    for_range 0 5 (fun x st =>
      <[(x + 5 * y)%nat :=
          Z.lxor (rd B (x + 5 * y))
            (Z.land (u64 (Z.lnot (rd B (((x + 1) mod 5) + 5 * y))))
                    (rd B (((x + 2) mod 5) + 5 * y)))]> st) st) state in
  <[0%nat := Z.lxor (rd state 0) (rd keccak_round_constants round)]> state.

Definition keccak_f1600_fips202 (state : list Z) : list Z :=
  for_range 0 KECCAK_ROUNDS keccak_round_fips202 state.

(** The state [keccak_final] permutes when the whole input is shorter than
    the rate: the input, the suffix and the final bit XOR-ed into the zero
    state. *)
Definition padded_block (input : list Z) (len rate : nat) (suffix : Z)
  : list Z :=
  let st := for_range 0 len (fun i st => xor_state_byte st i (rd input i))
              (replicate 25 0) in
  let st := xor_state_byte st len suffix in
  xor_state_byte st (rate - 1) 0x80.

(** For comparison only, not in the source: the sponge of FIPS 202 around
    [keccak_f1600_fips202].  Every full block of [rate] bytes is XOR-ed
    into the state and permuted; the rest of the message, shorter than a
    block and possibly empty, gets the suffix and the final bit before the
    last permutation. *)
Fixpoint fips202_absorb (fuel rate : nat) (suffix : Z) (st msg : list Z)
  : list Z :=
  match fuel with
  | O => st
  | S fuel' =>
    if (length msg <? rate)%nat then
      let st := for_range 0 (length msg) (fun i st =>
                  xor_state_byte st i (rd msg i)) st in
      let st := xor_state_byte st (length msg) suffix in
      keccak_f1600_fips202 (xor_state_byte st (rate - 1) 0x80)
    else
      let st := for_range 0 rate (fun i st =>
                  xor_state_byte st i (rd msg i)) st in
      fips202_absorb fuel' rate suffix (keccak_f1600_fips202 st)
        (drop rate msg)
  end.

(** For comparison only, not in the source: SHA3-256 and SHA3-512 as
    FIPS 202 defines them, the functions the specification names.  The
    [sha3_256] and [sha3_512] of the code are [sha3_256_digest] and
    [sha3_512_digest] above. *)
Definition sha3_256_fips202 (msg : list Z) : list Z :=
  map (state_byte
         (fips202_absorb (S (length msg)) KECCAK_RATE_SHA3_256 0x06
            (replicate 25 0) msg)) (seq 0 32).

Definition sha3_512_fips202 (msg : list Z) : list Z :=
  map (state_byte
         (fips202_absorb (S (length msg)) KECCAK_RATE_SHA3_512 0x06
            (replicate 25 0) msg)) (seq 0 64).

(** "Additional security-focused hash utilities": the bytes
    [secure_hash_with_salt] writes, salt first. *)
Definition salted_digest (input : list Z) (inlen : nat) (salt : list Z)
  (saltlen : nat) : list Z :=
  let ctx := keccak_init KECCAK_RATE_SHA3_256 0x06 in
  let ctx := keccak_update ctx salt saltlen in
  let ctx := keccak_update ctx input inlen in
  keccak_final ctx (replicate 32 0) 32.

Definition secure_hash_with_salt (hash : option (list Z))
  (input : option (list Z)) (inlen : nat)
  (salt : option (list Z)) (saltlen : nat)
  : pqc_result_t * option (list Z) :=
  match hash, input, salt with
  | Some h, Some inp, Some s =>
    if (saltlen <? 16)%nat then (PQC_ERROR_INVALID_PARAMETER, hash)
    else (PQC_SUCCESS, Some (memcpy_at h 0 (salted_digest inp inlen s saltlen)))
  | _, _, _ => (PQC_ERROR_INVALID_PARAMETER, hash)
  end.

(** The bytes [key_derivation_function] writes: salt (if any), key, info
    (if any) absorbed in this order at the SHAKE256 rate. *)
Definition kdf_output (outlen : nat) (key : list Z) (keylen : nat)
  (info : option (list Z)) (infolen : nat)
  (salt : option (list Z)) (saltlen : nat) : list Z :=
  let ctx := keccak_init KECCAK_RATE_SHAKE256 0x1F in
  let ctx := match salt with
             | Some s => if (0 <? saltlen)%nat
                         then keccak_update ctx s saltlen else ctx
             | None => ctx
             end in
  let ctx := keccak_update ctx key keylen in
  let ctx := match info with
             | Some inf => if (0 <? infolen)%nat
                           then keccak_update ctx inf infolen else ctx
             | None => ctx
             end in
  keccak_final ctx (replicate outlen 0) outlen.

Definition key_derivation_function (output : option (list Z)) (outlen : nat)
  (key : option (list Z)) (keylen : nat)
  (info : option (list Z)) (infolen : nat)
  (salt : option (list Z)) (saltlen : nat)
  : pqc_result_t * option (list Z) :=
  match output, key with
  | Some out, Some k =>
    if ((outlen =? 0) || (8192 <? outlen))%nat
    then (PQC_ERROR_INVALID_PARAMETER, output)
    else (PQC_SUCCESS,
          Some (memcpy_at out 0
                  (kdf_output outlen k keylen info infolen salt saltlen)))
  | _, _ => (PQC_ERROR_INVALID_PARAMETER, output)
  end.

End CryptoHash.

(** ** kyber.h / kyber.c

    The hash primitives are the Generation 2 ones of cryptoHash.c, called
    on local, non-NULL buffers (their status is not inspected by kyber.c,
    so the digest bytes are used directly). *)

Module Kyber.
Import CryptoHash.

Definition KYBER_K : nat := 4.
Definition KYBER_N : nat := 256.
Definition KYBER_Q : Z := 3329.
Definition KYBER_ETA1 : nat := 2.
Definition KYBER_DU : nat := 11.
Definition KYBER_DV : nat := 5.
Definition KYBER_QINV : Z := 62209.
Definition KYBER_PUBLICKEYBYTES : nat := 1568.
Definition KYBER_CIPHERTEXTBYTES : nat := 1568.

Definition zetas : list Z :=
  [2285; 2571; 2970; 1812; 1493; 1422; 287; 202;
   3158; 622; 1577; 182; 962; 2127; 1855; 1468;
   573; 2004; 264; 383; 2500; 1458; 1727; 3199;
   2648; 1017; 732; 608; 1787; 411; 3124; 1758;
   1223; 652; 2777; 1015; 2036; 1491; 3047; 1785;
   516; 3321; 3009; 2663; 1711; 2167; 126; 1469;
   2476; 3239; 3058; 830; 107; 1908; 3082; 2378;
   2931; 961; 1821; 2604; 448; 2264; 677; 2054;
   2226; 430; 555; 843; 2078; 871; 1550; 105;
   422; 587; 177; 3094; 3038; 2869; 1574; 1653;
   3083; 778; 1159; 3182; 2552; 1483; 2727; 1119;
   1739; 644; 2457; 349; 418; 329; 3173; 3254;
   817; 1097; 603; 610; 1322; 2044; 1864; 384;
   2114; 3193; 1218; 1994; 2455; 220; 2142; 1670;
   2144; 1799; 2051; 794; 1819; 2475; 2459; 478;
   3221; 3021; 996; 991; 958; 1869; 1522; 1628].

Record kyber_public_key_t : Type := {
  pk_seed : list Z;            (* uint8_t seed[32] *)
  pk_t : list Z                (* uint8_t t[1536] *)
}.

Record kyber_secret_key_t : Type := {
  sk_s : list Z;               (* uint8_t s[1536] *)
  sk_pk : kyber_public_key_t;
  sk_h : list Z;               (* uint8_t h[32] *)
  sk_z : list Z                (* uint8_t z[32] *)
}.

Record kyber_ciphertext_t : Type := {
  ct_u : list Z;               (* uint8_t u[1408] *)
  ct_v : list Z                (* uint8_t v[160] *)
}.

(** The structs seen through [(uint8_t * )]: byte arrays only, no padding. *)
Definition pk_bytes (pk : kyber_public_key_t) : list Z := pk_seed pk ++ pk_t pk.
Definition ct_bytes (ct : kyber_ciphertext_t) : list Z := ct_u ct ++ ct_v ct.

(** A polynomial of a vector, a row of a matrix. *)
Definition row {A : Type} (l : list (list A)) (i : nat) : list A :=
  default [] (l !! i).

Definition montgomery_reduce (a : Z) : Z :=
  let t := u32 (u32 (s16 a) * KYBER_QINV) in
  let t := Z.land t 65535 in
  let t := u32 (t * KYBER_Q) in
  let t := u32 (a - t) in
  u16 (Z.shiftr t 16).

Definition barrett_reduce (a : Z) : Z :=
  let t := Z.shiftr (u32 (a * 5039)) 23 in
  u16 (a - u16 (t * KYBER_Q)).

(** One turn of the innermost loop of [ntt]. *)
Definition ntt_butterfly (zeta : Z) (len j : nat) (poly : list Z) : list Z :=
  let t := montgomery_reduce (u32 (zeta * rd poly (j + len))) in
  let poly := <[(j + len)%nat := u16 (rd poly j - t)]> poly in
  <[j := u16 (rd poly j + t)]> poly.

(** The [start] loop for one value of [len]: the inner loop leaves
    [j = start + len], so [start] advances by [2 * len]. *)
Definition ntt_layer (len : nat) (s : nat * list Z) : nat * list Z :=
  for_range 0 (KYBER_N / (2 * len)) (fun blk '(k, poly) =>
    let start := (blk * (2 * len))%nat in
    let zeta := rd zetas k in
    (S k, for_range start len (ntt_butterfly zeta len) poly)) s.

(** [for (len = 128; len >= 2; len >>= 1)], starting with [k = 1]. *)
Definition ntt (poly : list Z) : list Z :=
  snd (fold_left (fun s len => ntt_layer len s)
         [128; 64; 32; 16; 8; 4; 2]%nat (1%nat, poly)).

Definition invntt_butterfly (zeta : Z) (len j : nat) (poly : list Z)
  : list Z :=
  let t := rd poly j in
  let poly := <[j := barrett_reduce (u16 (t + rd poly (j + len)))]> poly in
  let poly := <[(j + len)%nat := u16 (t - rd poly (j + len))]> poly in
  <[(j + len)%nat :=
      montgomery_reduce (u32 (zeta * rd poly (j + len)))]> poly.

Definition invntt_layer (len : nat) (s : nat * list Z) : nat * list Z :=
  for_range 0 (KYBER_N / (2 * len)) (fun blk '(k, poly) =>
    let start := (blk * (2 * len))%nat in
    let zeta := rd zetas k in
    ((k - 1)%nat, for_range start len (invntt_butterfly zeta len) poly)) s.

(** [for (len = 2; len <= 128; len <<= 1)], starting with [k = 127], then
    the scaling by [f = 1441]. *)
Definition invntt (poly : list Z) : list Z :=
  let f := 1441 in
  let poly := snd (fold_left (fun s len => invntt_layer len s)
                     [2; 4; 8; 16; 32; 64; 128]%nat (127%nat, poly)) in
  for_range 0 KYBER_N (fun j poly =>
    <[j := montgomery_reduce (u32 (f * rd poly j))]> poly) poly.

Definition poly_getnoise_eta1 (poly : list Z) (seed : list Z) (nonce : Z)
  : list Z :=
  let buf := shake256_output (KYBER_ETA1 * KYBER_N / 4) seed 32
               (Some [u8 nonce]) 1 in
  for_range 0 (KYBER_N / 8) (fun i poly =>
    let t := load_le buf (4 * i) 4 in
    for_range 0 8 (fun j poly =>
      let d := Z.land t 0x55555555 in
      let d := u32 (d + Z.land (Z.shiftr t 1) 0x55555555) in
      <[(8 * i + j)%nat :=
          u16 (Z.land (Z.shiftr d (4 * Z.of_nat j + 0)) 0x3
               - Z.land (Z.shiftr d (4 * Z.of_nat j + 2)) 0x3)]> poly) poly)
    poly.

Definition poly_add (c a b : list Z) : list Z :=
  for_range 0 KYBER_N (fun i c =>
    <[i := barrett_reduce (u16 (rd a i + rd b i))]> c) c.

Definition poly_sub (c a b : list Z) : list Z :=
  for_range 0 KYBER_N (fun i c =>
    <[i := barrett_reduce (u16 (rd a i - rd b i + KYBER_Q))]> c) c.

(** [ntt] both operands, multiply pointwise, [invntt]: the body the source
    repeats in [matrix_vector_mul], [kyber_encapsulate] and
    [kyber_decapsulate]. *)
Definition poly_mul_ntt (a b : list Z) : list Z :=
  let temp := ntt a in
  let b_ntt := ntt b in
  let temp := for_range 0 KYBER_N (fun k temp =>
    <[k := montgomery_reduce (u32 (rd temp k * rd b_ntt k))]> temp) temp in
  invntt temp.

Definition matrix_vector_mul (t : list (list Z)) (A : list (list (list Z)))
  (s : list (list Z)) (transposed : bool) : list (list Z) :=
  for_range 0 KYBER_K (fun i t =>
    let t := <[i := replicate KYBER_N 0]> t in
    for_range 0 KYBER_K (fun j t =>
      let temp := poly_mul_ntt
        (row (row A (if transposed then j else i))
             (if transposed then i else j)) (row s j) in
      <[i := poly_add (row t i) (row t i) temp]> t) t) t.

(** The [do ... while (val >= KYBER_Q && pos < sizeof(buf) - 1)] loop; it
    runs at most 384 times because [pos] grows by 2 each turn. *)
Fixpoint sample_coeff (fuel : nat) (buf : list Z) (pos : nat) : Z * nat :=
  let val := u16 (Z.lor (rd buf pos) (Z.shiftl (rd buf (pos + 1)) 8)) in
  let pos := (pos + 2)%nat in
  let val := Z.land val 0x1FFF in
  match fuel with
  | O => (val, pos)
  | S fuel' =>
    if (KYBER_Q <=? val) && (pos <? 3 * KYBER_N - 1)%nat
    then sample_coeff fuel' buf pos
    else (val, pos)
  end.

(** "Generate matrix A from public seed" (the same code in [kyber_keypair]
    and [kyber_encapsulate]). *)
Definition gen_matrix (seed : list Z) : list (list (list Z)) :=
  for_range 0 KYBER_K (fun i A =>
    <[i := for_range 0 KYBER_K (fun j Ai =>
      let seed_ext := memcpy_at (replicate 34 0) 0 (take 32 seed) in
      let seed_ext := <[32%nat := u8 (Z.of_nat j)]> seed_ext in
      let seed_ext := <[33%nat := u8 (Z.of_nat i)]> seed_ext in
      let buf := shake128_output (3 * KYBER_N) seed_ext 34 in
      <[j := fst (for_range 0 KYBER_N (fun k '(Aij, pos) =>
                let '(val, pos) := sample_coeff 384 buf pos in
                (<[k := val]> Aij, pos)) (replicate KYBER_N 0, 0%nat))]> Ai)
      (row A i)]> A)
    (replicate KYBER_K (replicate KYBER_K (replicate KYBER_N 0))).

(** "Pack public key": the loop body increments [j] itself, so each turn
    handles the pair [j], [j + 1] with [j] even. *)
Definition pack_pk_t (pkt : list Z) (t : list (list Z)) : list Z :=
  for_range 0 KYBER_K (fun i pkt =>
    for_range 0 (KYBER_N / 2) (fun p pkt =>
      let j := (2 * p)%nat in
      let idx := (i * KYBER_N + j)%nat in
      let tij := rd (row t i) j in
      let pkt := <[(idx * 3 / 2)%nat := u8 (Z.land tij 0xFF)]> pkt in
      let pkt := <[(idx * 3 / 2 + 1)%nat :=
        u8 (Z.lor (Z.shiftr tij 8)
              (Z.shiftl (if (j + 1 <? KYBER_N)%nat
                         then rd (row t i) (j + 1) else 0) 4))]> pkt in
      if (j + 1 <? KYBER_N)%nat
      then <[(idx * 3 / 2 + 2)%nat :=
             u8 (Z.shiftr (rd (row t i) (j + 1)) 4)]> pkt
      else pkt) pkt) pkt.

(** "Unpack public key t". *)
Definition unpack_pk_t (pkt : list Z) : list (list Z) :=
  for_range 0 KYBER_K (fun i t =>
    <[i := for_range 0 (KYBER_N / 2) (fun p ti =>
      let j := (2 * p)%nat in
      let idx := (i * KYBER_N + j)%nat in
      let ti := <[j := u16 (Z.lor (rd pkt (idx * 3 / 2))
                   (Z.shiftl (Z.land (rd pkt (idx * 3 / 2 + 1)) 0x0F) 8))]> ti in
      if (j + 1 <? KYBER_N)%nat
      then <[(j + 1)%nat :=
             u16 (Z.lor (Z.shiftr (rd pkt (idx * 3 / 2 + 1)) 4)
                        (Z.shiftl (rd pkt (idx * 3 / 2 + 2)) 4))]> ti
      else ti) (row t i)]> t)
    (replicate KYBER_K (replicate KYBER_N 0)).

(** [sum_i a[i] * b[i]] accumulated with [poly_add], as for [tr] and [su]. *)
Definition inner_product (a b : list (list Z)) : list Z :=
  for_range 0 KYBER_K (fun i acc =>
    poly_add acc acc (poly_mul_ntt (row a i) (row b i)))
    (replicate KYBER_N 0).

(** One coefficient packed with [d] bits at bit offset [idx * d]:
    [buf[idx*d/8] |= c << (idx*d % 8)], and the next byte when the value
    crosses a byte boundary.  The compression is the formula the source
    intends, [(((uint32_t)x << d) + KYBER_Q / 2) / KYBER_Q]. *)
Definition compress (d : nat) (x : Z) : Z :=
  let compressed :=
    u16 (u32 (Z.shiftl x (Z.of_nat d) + KYBER_Q / 2) / KYBER_Q) in
  Z.land compressed (Z.shiftl 1 (Z.of_nat d) - 1).

Definition pack_bits (d : nat) (idx : nat) (compressed : Z) (buf : list Z)
  : list Z :=
  let byte := (idx * d / 8)%nat in
  let sh := (idx * d mod 8)%nat in
  let buf := <[byte := u8 (Z.lor (rd buf byte)
                             (Z.shiftl compressed (Z.of_nat sh)))]> buf in
  if (8 <? sh + d)%nat
  then <[(byte + 1)%nat :=
         u8 (Z.lor (rd buf (byte + 1))
               (Z.shiftr compressed (8 - Z.of_nat sh)))]> buf
  else buf.

Definition unpack_bits (d : nat) (idx : nat) (buf : list Z) : Z :=
  let byte := (idx * d / 8)%nat in
  let sh := (idx * d mod 8)%nat in
  let compressed := u16 (Z.shiftr (rd buf byte) (Z.of_nat sh)) in
  let compressed :=
    if (8 <? sh + d)%nat
    then u16 (Z.lor compressed
                (Z.shiftl (rd buf (byte + 1)) (8 - Z.of_nat sh)))
    else compressed in
  Z.land compressed (Z.shiftl 1 (Z.of_nat d) - 1).

Definition decompress (d : nat) (compressed : Z) : Z :=
  u16 (Z.shiftr (u32 (u32 (compressed * KYBER_Q)
                      + Z.shiftl 1 (Z.of_nat d - 1))) (Z.of_nat d)).

(** "Pack ciphertext". *)
Definition pack_ciphertext (ct : kyber_ciphertext_t) (u : list (list Z))
  (v : list Z) : kyber_ciphertext_t :=
  let ctu := for_range 0 KYBER_K (fun i ctu =>
    for_range 0 KYBER_N (fun j ctu =>
      pack_bits KYBER_DU (i * KYBER_N + j)
        (compress KYBER_DU (rd (row u i) j)) ctu) ctu) (ct_u ct) in
  let ctv := for_range 0 KYBER_N (fun i ctv =>
    pack_bits KYBER_DV i (compress KYBER_DV (rd v i)) ctv) (ct_v ct) in
  {| ct_u := ctu; ct_v := ctv |}.

(** Everything [kyber_encapsulate] computes between drawing [m] and
    packing: the vector [u] and the polynomial [v]. *)
Definition encrypt_uv (pk : kyber_public_key_t) (m coins : list Z)
  : list (list Z) * list Z :=
  let A := gen_matrix (pk_seed pk) in
  let t := unpack_pk_t (pk_t pk) in
  let zero_vec := replicate KYBER_K (replicate KYBER_N 0) in
  let '(r, e1) := for_range 0 KYBER_K (fun i '(r, e1) =>
    (<[i := poly_getnoise_eta1 (row r i) coins (Z.of_nat i)]> r,
     <[i := poly_getnoise_eta1 (row e1 i) coins
              (Z.of_nat (i + KYBER_K))]> e1)) (zero_vec, zero_vec) in
  let e2 := poly_getnoise_eta1 (replicate KYBER_N 0) coins
              (Z.of_nat (2 * KYBER_K)) in
  let u := matrix_vector_mul zero_vec A r true in
  let u := for_range 0 KYBER_K (fun i u =>
    <[i := poly_add (row u i) (row u i) (row e1 i)]> u) u in
  let tr := inner_product t r in
  let v := poly_add (replicate KYBER_N 0) tr e2 in
  let v := for_range 0 KYBER_N (fun i v =>
    let bit := Z.land (Z.shiftr (rd m (i / 8)) (Z.of_nat (i mod 8))) 1 in
    <[i := barrett_reduce (u16 (rd v i + bit * ((KYBER_Q + 1) / 2)))]> v) v in
  (u, v).

Definition kyber_keypair (pk : option kyber_public_key_t)
  (sk : option kyber_secret_key_t) (tape : list Z)
  : pqc_result_t * option kyber_public_key_t * option kyber_secret_key_t
    * list Z :=
  match pk, sk with
  | Some pk0, Some sk0 =>
    let '(r1, publicseed, tape) :=
      pqc_randombytes (Some (replicate 32 0)) 32 tape in
    if negb (is_success r1) then (PQC_ERROR_RANDOM_GENERATION, pk, sk, tape)
    else
    let '(r2, noiseseed, tape) :=
      pqc_randombytes (Some (replicate 32 0)) 32 tape in
    if negb (is_success r2) then (PQC_ERROR_RANDOM_GENERATION, pk, sk, tape)
    else
    let publicseed := default [] publicseed in
    let noiseseed := default [] noiseseed in
    let A := gen_matrix publicseed in
    let zero_vec := replicate KYBER_K (replicate KYBER_N 0) in
    let s := for_range 0 KYBER_K (fun i s =>
      <[i := poly_getnoise_eta1 (row s i) noiseseed (Z.of_nat i)]> s)
      zero_vec in
    let e := for_range 0 KYBER_K (fun i e =>
      <[i := poly_getnoise_eta1 (row e i) noiseseed
               (Z.of_nat (i + KYBER_K))]> e) zero_vec in
    let t := matrix_vector_mul zero_vec A s false in
    let t := for_range 0 KYBER_K (fun i t =>
      <[i := poly_add (row t i) (row t i) (row e i)]> t) t in
    let pk1 := {| pk_seed := memcpy_at (pk_seed pk0) 0 publicseed;
                  pk_t := pack_pk_t (pk_t pk0) t |} in
    let sks := for_range 0 KYBER_K (fun i sks =>
      for_range 0 KYBER_N (fun j sks =>
        <[(i * KYBER_N + j)%nat := u8 (rd (row s i) j)]> sks) sks)
      (sk_s sk0) in
    let h := memcpy_at (sk_h sk0) 0
               (sha3_256_digest (pk_bytes pk1) KYBER_PUBLICKEYBYTES) in
    let '(_, z, tape) := pqc_randombytes (Some (sk_z sk0)) 32 tape in
    let sk1 := {| sk_s := sks; sk_pk := pk1; sk_h := h;
                  sk_z := default [] z |} in
    (PQC_SUCCESS, Some pk1, Some sk1, tape)
  | _, _ => (PQC_ERROR_INVALID_PARAMETER, pk, sk, tape)
  end.

Definition kyber_encapsulate (ct : option kyber_ciphertext_t)
  (shared_secret : option (list Z)) (pk : option kyber_public_key_t)
  (tape : list Z)
  : pqc_result_t * option kyber_ciphertext_t * option (list Z) * list Z :=
  match ct, shared_secret, pk with
  | Some ct0, Some ss0, Some pk0 =>
    let '(r, m, tape) := pqc_randombytes (Some (replicate 32 0)) 32 tape in
    if negb (is_success r)
    then (PQC_ERROR_RANDOM_GENERATION, ct, shared_secret, tape)
    else
    let m := default [] m in
    let pk_hash := sha3_256_digest (pk_bytes pk0) KYBER_PUBLICKEYBYTES in
    let hash_input := memcpy_at (replicate 64 0) 0 m in
    let hash_input := memcpy_at hash_input 32 pk_hash in
    (* sha3_512 writes 64 bytes; [coins] is read as a 32-byte seed *)
    let coins := sha3_512_digest hash_input 64 in
    let '(u, v) := encrypt_uv pk0 m coins in
    let ct1 := pack_ciphertext ct0 u v in
    let hash_input := memcpy_at hash_input 0 m in
    let K := sha3_256_digest hash_input 32 in
    (PQC_SUCCESS, Some ct1, Some (memcpy_at ss0 0 K), tape)
  | _, _, _ => (PQC_ERROR_INVALID_PARAMETER, ct, shared_secret, tape)
  end.

(** "Decode message" of [kyber_decapsulate]. *)
Definition decode_message (mp : list Z) : list Z :=
  for_range 0 32 (fun i m =>
    let m := <[i := 0]> m in
    for_range 0 8 (fun j m =>
      let coeff_idx := (i * 8 + j)%nat in
      let t := u16 (u32 (Z.shiftl (rd mp coeff_idx) 1) + KYBER_Q / 2) in
      let t := Z.land (t / KYBER_Q) 1 in
      <[i := u8 (Z.lor (rd m i) (Z.shiftl t (Z.of_nat j)))]> m) m)
    (replicate 32 0).

(** The message [kyber_decapsulate] decodes from [ct] with [sk]. *)
Definition decrypt_message (ct : kyber_ciphertext_t)
  (sk : kyber_secret_key_t) : list Z :=
  let zero_vec := replicate KYBER_K (replicate KYBER_N 0) in
  let s := for_range 0 KYBER_K (fun i s =>
    <[i := for_range 0 KYBER_N (fun j si =>
      <[j := rd (sk_s sk) (i * KYBER_N + j)]> si) (row s i)]> s) zero_vec in
  let u := for_range 0 KYBER_K (fun i u =>
    <[i := for_range 0 KYBER_N (fun j ui =>
      <[j := decompress KYBER_DU
               (unpack_bits KYBER_DU (i * KYBER_N + j) (ct_u ct))]> ui)
      (row u i)]> u) zero_vec in
  let v := for_range 0 KYBER_N (fun i v =>
    <[i := decompress KYBER_DV (unpack_bits KYBER_DV i (ct_v ct))]> v)
    (replicate KYBER_N 0) in
  let su := inner_product s u in
  let mp := poly_sub (replicate KYBER_N 0) v su in
  decode_message mp.

(** [ct_prime] and [K] are uninitialised locals of [kyber_decapsulate];
    their contents on entry are the arguments [ct_prime0] and [K0]. *)
Definition kyber_decapsulate (shared_secret : option (list Z))
  (ct : option kyber_ciphertext_t) (sk : option kyber_secret_key_t)
  (ct_prime0 : kyber_ciphertext_t) (K0 : list Z) (tape : list Z)
  : pqc_result_t * option (list Z) * list Z :=
  match shared_secret, ct, sk with
  | Some ss0, Some ct0, Some sk0 =>
    let m := decrypt_message ct0 sk0 in
    let hash_input := memcpy_at (replicate 64 0) 0 m in
    let hash_input := memcpy_at hash_input 32 (sk_h sk0) in
    let Kr := sha3_512_digest hash_input 64 in
    let '(_, ct_prime, K, tape) :=
      kyber_encapsulate (Some ct_prime0) (Some K0) (Some (sk_pk sk0)) tape in
    let ct_match :=
      secure_memcmp (Some (ct_bytes ct0)) (option_map ct_bytes ct_prime)
        KYBER_CIPHERTEXTBYTES in
    let K := default [] K in
    let K :=
      if negb (ct_match =? 0) then
        let hash_input := memcpy_at hash_input 0 (sk_z sk0) in
        (* copies 1568 bytes into the 64-byte [hash_input] *)
        let hash_input := memcpy_at hash_input 32 (ct_bytes ct0) in
        sha3_256_digest hash_input (32 + KYBER_CIPHERTEXTBYTES)
      else K in
    (PQC_SUCCESS, Some (memcpy_at ss0 0 K), tape)
  | _, _, _ => (PQC_ERROR_INVALID_PARAMETER, shared_secret, tape)
  end.

(** The pair [(u, v)] that [kyber_encapsulate] computes once it has drawn
    the message [m] (it depends on [pk] and [m] only). *)
Definition encaps_uv (pk : kyber_public_key_t) (m : list Z)
  : list (list Z) * list Z :=
  let pk_hash := sha3_256_digest (pk_bytes pk) KYBER_PUBLICKEYBYTES in
  let hash_input := memcpy_at (replicate 64 0) 0 m in
  let hash_input := memcpy_at hash_input 32 pk_hash in
  encrypt_uv pk m (sha3_512_digest hash_input 64).

(** The ciphertext [kyber_encapsulate] leaves in a buffer that held [ct0]. *)
Definition encaps_ct (ct0 : kyber_ciphertext_t) (pk : kyber_public_key_t)
  (m : list Z) : kyber_ciphertext_t :=
  pack_ciphertext ct0 (fst (encaps_uv pk m)) (snd (encaps_uv pk m)).

(** The key [kyber_decapsulate] derives on the implicit-rejection path. *)
Definition reject_key (ct : kyber_ciphertext_t) (sk : kyber_secret_key_t)
  : list Z :=
  let hash_input := memcpy_at (replicate 64 0) 0 (decrypt_message ct sk) in
  let hash_input := memcpy_at hash_input 32 (sk_h sk) in
  let hash_input := memcpy_at hash_input 0 (sk_z sk) in
  let hash_input := memcpy_at hash_input 32 (ct_bytes ct) in
  sha3_256_digest hash_input (32 + KYBER_CIPHERTEXTBYTES).

(** Buffers used in the examples: zero-filled keys and ciphertext, and a
    ciphertext buffer whose bytes are all 0xFF. *)
Definition pk_zero : kyber_public_key_t :=
  {| pk_seed := replicate 32 0; pk_t := replicate 1536 0 |}.
Definition sk_zero : kyber_secret_key_t :=
  {| sk_s := replicate 1536 0; sk_pk := pk_zero;
     sk_h := replicate 32 0; sk_z := replicate 32 0 |}.
Definition ct_zero : kyber_ciphertext_t :=
  {| ct_u := replicate 1408 0; ct_v := replicate 160 0 |}.
Definition ct_ff : kyber_ciphertext_t :=
  {| ct_u := replicate 1408 255; ct_v := replicate 160 255 |}.

End Kyber.

(** ** dilithium.c *)

Module Dilithium.
Import CryptoHash.

Definition DILITHIUM_K : nat := 8.
Definition DILITHIUM_L : nat := 7.
Definition DILITHIUM_ETA : Z := 2.
Definition DILITHIUM_TAU : nat := 60.
Definition DILITHIUM_BETA : Z := 196.
Definition DILITHIUM_N : nat := 256.
Definition DILITHIUM_Q : Z := 8380417.
Definition DILITHIUM_D : Z := 13.
Definition DILITHIUM_QINV : Z := 58728449.
Definition DILITHIUM_GAMMA1 : Z := Z.shiftl 1 19.
Definition DILITHIUM_GAMMA2 : Z := (DILITHIUM_Q - 1) / 32.
Definition DILITHIUM_OMEGA : Z := 75.

Definition zetas : list Z :=
  [0; 25847; 5771523; 7861508; 237124; 7602457; 7504169; 466468;
   1826347; 2353451; 8021166; 6288512; 3119733; 5495562; 3111497; 2680103;
   2725464; 1024112; 7300517; 3585928; 7830929; 7260833; 2619752; 6271868;
   6262231; 4520680; 6980856; 5102745; 1757237; 8360995; 4010497; 280005;
   2706023; 95776; 3077325; 3530437; 6718724; 4788269; 5842901; 3915439;
   4519302; 5336701; 3574422; 5512770; 3539968; 8079950; 2348700; 7841118;
   6681150; 6736599; 3505694; 4558682; 3507263; 6239768; 6779997; 3699596;
   811944; 531354; 954230; 3881043; 3900724; 5823537; 2071892; 5582638;
   4450022; 6851714; 4702672; 5339162; 6927966; 3475950; 2176455; 6795196;
   7122806; 1939314; 4296819; 7380215; 5190273; 5223087; 4747489; 126922;
   3412210; 7396998; 2147896; 2715295; 5412772; 4686924; 7969390; 5903370;
   7709315; 7151892; 8357436; 7072248; 7998430; 1349076; 1852771; 6949987;
   5037034; 264944; 508951; 3097992; 44288; 7280319; 904516; 3958618;
   4656075; 8371839; 1653064; 5130689; 2389356; 8169440; 759969; 7063561;
   189548; 4827145; 3159746; 6529015; 5971092; 8202977; 1315589; 1341330;
   1285669; 6795489; 7567685; 6940675; 5361315; 4499357; 4751448; 3839961;
   2091667; 3407706; 2316500; 3817976; 5037939; 2244091; 5933984; 4817955;
   266997; 2434439; 7144689; 3513181; 4860065; 4621053; 7183191; 5187039;
   900702; 1859098; 909542; 819034; 495491; 6767243; 8337157; 7857917;
   7725090; 5257975; 2031748; 3207046; 4823422; 7855319; 7611795; 4784579;
   342297; 286988; 5942594; 4108315; 3437287; 5038140; 1735879; 203044;
   2842341; 2691481; 5790267; 1265009; 4055324; 1247620; 2486353; 1595974;
   4613401; 1250494; 2635921; 4832145; 5386378; 1869119; 1903435; 7329447;
   7047359; 1237275; 5062207; 6950192; 7929317; 1312455; 3306115; 6417775;
   7100756; 1917081; 5834105; 7005614; 1500165; 777191; 2235880; 3406031;
   7838005; 5548557; 6709241; 6533464; 5796124; 4656147; 594136; 4603424;
   6366809; 2432395; 2454455; 8215696; 1957272; 3369112; 185531; 7173032;
   5196991; 162844; 1616392; 3014001; 810149; 1652634; 4686184; 6581310;
   5341501; 3523897; 3866901; 269760; 2213111; 7404533; 1717735; 472078;
   7953734; 1723600; 6577327; 1910376; 6712985; 7276084; 8119771; 4546524;
   5441381; 6144432; 7959518; 6094090; 183443; 7403526; 1612842; 4834730;
   7826001; 3919660; 8332111; 7018208; 3937738; 1400424; 7534263; 1976782].

(** Modelled from the spec: dilithium.h is not part of the sources; the key
    types follow section 3 of the specification and the field accesses of
    dilithium.c.  The public key is [rho] (32 bytes) followed by the packed
    [t1] (k*n*10/8 = 2560 bytes); the secret key holds [rho], [key], [tr]
    (64 bytes) and the coefficient arrays [s1], [s2], [t0], whose elements
    are kept as the uint32_t values the code stores. *)
Record dilithium_public_key_t : Type := {
  pk_rho : list Z;
  pk_t1 : list Z
}.

Record dilithium_secret_key_t : Type := {
  sk_rho : list Z;
  sk_key : list Z;
  sk_tr : list Z;
  sk_s1 : list Z;
  sk_s2 : list Z;
  sk_t0 : list Z
}.

Record dilithium_keypair_t : Type := {
  kp_pk : dilithium_public_key_t;
  kp_sk : dilithium_secret_key_t
}.

Definition DILITHIUM_PUBLICKEYBYTES : nat := 2592.
Definition DILITHIUM_SIGNATUREBYTES : nat := 4595.

Definition pk_bytes (pk : dilithium_public_key_t) : list Z :=
  pk_rho pk ++ pk_t1 pk.

(** Modelled from the spec: dilithium.c calls [shake128] with a nonce
    buffer and its length, two arguments the [shake128] of pqc_common.h
    does not take.  Section 4.5 of the specification derives the matrix
    from SHAKE128 of the seed followed by the nonce, which is what
    [shake256_enhanced] does with its customisation input at rate 136;
    this is the same sponge at the SHAKE128 rate. *)
Definition shake128_custom (outlen : nat) (input : list Z) (inlen : nat)
  (custom : list Z) (customlen : nat) : list Z :=
  let ctx := keccak_init KECCAK_RATE_SHAKE128 0x1F in
  let ctx := keccak_update ctx input inlen in
  let ctx := if (0 <? customlen)%nat
             then keccak_update ctx custom customlen else ctx in
  keccak_final ctx (replicate outlen 0) outlen.

(** [(uint8_t * )&nonce_le] on a little-endian machine. *)
Definition nonce_bytes (nonce : Z) : list Z :=
  [u8 (u16 nonce); u8 (Z.shiftr (u16 nonce) 8)].

Definition row {A : Type} (l : list (list A)) (i : nat) : list A :=
  default [] (l !! i).

Definition montgomery_reduce (a : Z) : Z :=
  let t := Z.land (u64 (a * DILITHIUM_QINV)) 4294967295 in
  let t := u64 (t * DILITHIUM_Q) in
  let t := u64 (a - t) in
  u32 (Z.shiftr t 32).

Definition reduce32 (a : Z) : Z :=
  let t := Z.shiftr (u32 (a + Z.shiftl 1 22)) 23 in
  let t := u32 (t * DILITHIUM_Q) in
  u32 (a - t).

Definition ntt_butterfly (zeta : Z) (len j : nat) (poly : list Z) : list Z :=
  let t := montgomery_reduce (u64 (zeta * rd poly (j + len))) in
  let poly := <[(j + len)%nat := u32 (rd poly j - t)]> poly in
  <[j := u32 (rd poly j + t)]> poly.

Definition ntt_layer (len : nat) (s : nat * list Z) : nat * list Z :=
  for_range 0 (DILITHIUM_N / (2 * len)) (fun blk '(k, poly) =>
    let start := (blk * (2 * len))%nat in
    let zeta := rd zetas k in
    (S k, for_range start len (ntt_butterfly zeta len) poly)) s.

(** [for (len = 128; len > 0; len >>= 1)], starting with [k = 1]. *)
Definition ntt (poly : list Z) : list Z :=
  snd (fold_left (fun s len => ntt_layer len s)
         [128; 64; 32; 16; 8; 4; 2; 1]%nat (1%nat, poly)).

Definition invntt_butterfly (zeta : Z) (len j : nat) (poly : list Z)
  : list Z :=
  let t := rd poly j in
  let poly := <[j := u32 (t + rd poly (j + len))]> poly in
  let poly := <[(j + len)%nat := u32 (t - rd poly (j + len))]> poly in
  <[(j + len)%nat :=
      montgomery_reduce (u64 (zeta * rd poly (j + len)))]> poly.

Definition invntt_layer (len : nat) (s : nat * list Z) : nat * list Z :=
  for_range 0 (DILITHIUM_N / (2 * len)) (fun blk '(k, poly) =>
    let start := (blk * (2 * len))%nat in
    let zeta := rd zetas k in
    ((k - 1)%nat, for_range start len (invntt_butterfly zeta len) poly)) s.

(** [for (len = 1; len < DILITHIUM_N; len <<= 1)], starting with
    [k = 255], then the scaling by [f = 41978]. *)
Definition invntt (poly : list Z) : list Z :=
  let f := 41978 in
  let poly := snd (fold_left (fun s len => invntt_layer len s)
                     [1; 2; 4; 8; 16; 32; 64; 128]%nat (255%nat, poly)) in
  for_range 0 DILITHIUM_N (fun j poly =>
    <[j := montgomery_reduce (u64 (f * rd poly j))]> poly) poly.

(** The [while (ctr < DILITHIUM_N && i < sizeof(buf))] loop: [i] runs over
    the 136 bytes, and once [ctr] reaches 256 nothing more is stored. *)
Definition poly_uniform_eta (poly : list Z) (seed : list Z) (nonce : Z)
  : list Z :=
  let buf := shake256_output 136 seed 32 (Some (nonce_bytes nonce)) 2 in
  fst (for_range 0 136 (fun i '(poly, ctr) =>
    if (ctr <? DILITHIUM_N)%nat then
      let t0 := Z.land (rd buf i) 0x0F in
      let t1 := Z.shiftr (rd buf i) 4 in
      let '(poly, ctr) :=
        if t0 <? 15 then
          let t0 := u32 (t0 - u32 (Z.shiftr (u32 (205 * t0)) 10 * 5)) in
          (<[ctr := u32 (2 - t0)]> poly, S ctr)
        else (poly, ctr) in
      if (t1 <? 15) && (ctr <? DILITHIUM_N)%nat then
        let t1 := u32 (t1 - u32 (Z.shiftr (u32 (205 * t1)) 10 * 5)) in
        (<[ctr := u32 (2 - t1)]> poly, S ctr)
      else (poly, ctr)
    else (poly, ctr)) (poly, 0%nat)).

(** The [while (ctr < DILITHIUM_N && i < sizeof(buf) - 2)] loop: [i] takes
    the values 0, 3, ..., 165. *)
Definition poly_uniform (poly : list Z) (seed : list Z) (nonce : Z)
  : list Z :=
  let buf := shake128_custom 168 seed 32 (nonce_bytes nonce) 2 in
  fst (for_range 0 56 (fun p '(poly, ctr) =>
    let i := (3 * p)%nat in
    if (ctr <? DILITHIUM_N)%nat then
      let t := Z.land (load_le buf i 3) 0x7FFFFF in
      if t <? DILITHIUM_Q then (<[ctr := t]> poly, S ctr) else (poly, ctr)
    else (poly, ctr)) (poly, 0%nat)).

(** [t |= ((uint32_t)buf[5 * i + 4] << 32)] shifts a 32-bit value by its
    width (undefined in C); the shifted value is taken modulo 2^32. *)
Definition poly_uniform_gamma1 (poly : list Z) (seed : list Z) (nonce : Z)
  : list Z :=
  let buf := shake256_output 640 seed 64 (Some (nonce_bytes nonce)) 2 in
  for_range 0 DILITHIUM_N (fun i poly =>
    let t := u32 (load_le buf (5 * i) 4) in
    let t := Z.lor t (u32 (Z.shiftl (rd buf (5 * i + 4)) 32)) in
    let t := Z.land t (Z.shiftl 1 20 - 1) in
    <[i := u32 (DILITHIUM_GAMMA1 - t)]> poly) poly.

Definition power2round (a : Z) : Z * Z :=
  let a1 := Z.shiftr (u32 (a + Z.shiftl 1 (DILITHIUM_D - 1) - 1))
              DILITHIUM_D in
  let a0 := u32 (a - u32 (Z.shiftl a1 DILITHIUM_D)) in
  (a1, a0).

Definition decompose (a : Z) : Z * Z :=
  let a1_prime := Z.shiftr (u32 (a + 127)) 7 in
  let '(a1, a0) :=
    if a1_prime =? (DILITHIUM_Q - 1) / 128
    then (0, u32 (a - 1))
    else (a1_prime, u32 (a - u32 (a1_prime * 128))) in
  let a0 := if 95 <? a0 then u32 (a0 - 256) else a0 in
  (a1, a0).

(** [a0] is a uint32_t, so [-DILITHIUM_GAMMA2] is converted to unsigned
    before each comparison. *)
Definition make_hint (a0 a1 : Z) : Z :=
  if (DILITHIUM_GAMMA2 <? a0) || (a0 <? u32 (- DILITHIUM_GAMMA2))
     || ((a0 =? u32 (- DILITHIUM_GAMMA2)) && negb (a1 =? 0))
  then 1 else 0.

Definition use_hint (a : Z) (hint : Z) : Z :=
  let '(a1, a0) := decompose a in
  if hint =? 0 then a1
  else if 0 <? a0 then Z.land (u32 (a1 + 1)) 15
  else Z.land (u32 (a1 - 1)) 15.

(** "Generate matrix A" / "Reconstruct matrix A". *)
Definition expand_matrix (rho : list Z) : list (list (list Z)) :=
  for_range 0 DILITHIUM_K (fun i A =>
    <[i := for_range 0 DILITHIUM_L (fun j Ai =>
       <[j := poly_uniform (row Ai j) rho
                (u16 (Z.shiftl (Z.of_nat i) 8 + Z.of_nat j))]> Ai)
       (row A i)]> A)
    (replicate DILITHIUM_K (replicate DILITHIUM_L (replicate DILITHIUM_N 0))).

(** Row [i] of the product of [A] with a vector of [DILITHIUM_L]
    polynomials: the accumulation in the NTT domain followed by [invntt],
    as written three times in the source. *)
Definition mat_row_mul (Ai : list (list Z)) (v : list (list Z)) : list Z :=
  let temp := for_range 0 DILITHIUM_L (fun j temp =>
    let v_ntt := ntt (row v j) in
    let a_ntt := ntt (row Ai j) in
    for_range 0 DILITHIUM_N (fun k temp =>
      <[k := u32 (rd temp k
                  + montgomery_reduce (u64 (rd a_ntt k * rd v_ntt k)))]> temp)
      temp) (replicate DILITHIUM_N 0) in
  invntt temp.

(** [xs[i][j] = flat[i * DILITHIUM_N + j]] for [i < rows]. *)
Definition unflatten (rows : nat) (flat : list Z) : list (list Z) :=
  for_range 0 rows (fun i xs =>
    <[i := for_range 0 DILITHIUM_N (fun j xi =>
       <[j := rd flat (i * DILITHIUM_N + j)]> xi) (row xs i)]> xs)
    (replicate rows (replicate DILITHIUM_N 0)).

Definition flatten_into (rows : nat) (flat : list Z) (xs : list (list Z))
  : list Z :=
  for_range 0 rows (fun i flat =>
    for_range 0 DILITHIUM_N (fun j flat =>
      <[(i * DILITHIUM_N + j)%nat := rd (row xs i) j]> flat) flat) flat.

(** "Pack w1 (simplified packing)", 6 bits per coefficient. *)
Definition pack_w1 (w1 : list (list Z)) : list Z :=
  for_range 0 DILITHIUM_K (fun i w1_packed =>
    for_range 0 DILITHIUM_N (fun j w1_packed =>
      let idx := (i * DILITHIUM_N + j)%nat in
      let byte := (idx * 6 / 8)%nat in
      let sh := Z.of_nat (idx * 6 mod 8) in
      let w := rd (row w1 i) j in
      let w1_packed :=
        <[byte := u8 (Z.lor (rd w1_packed byte)
                        (Z.shiftl (Z.land w 0x3F) sh))]> w1_packed in
      if 2 <? sh
      then <[(byte + 1)%nat :=
             u8 (Z.lor (rd w1_packed (byte + 1))
                   (Z.land (Z.shiftr w (8 - sh)) 0x3F))]> w1_packed
      else w1_packed) w1_packed)
    (replicate (DILITHIUM_K * DILITHIUM_N * 6 / 8) 0).

(** Calls of [shake256] with four arguments pass no customisation. *)
Definition dilithium_keypair (pk : option dilithium_public_key_t)
  (sk : option dilithium_secret_key_t) (tape : list Z)
  : pqc_result_t * option dilithium_public_key_t
    * option dilithium_secret_key_t * list Z :=
  match pk, sk with
  | Some pk0, Some sk0 =>
    let '(r, seedbuf, tape) :=
      pqc_randombytes (Some (replicate 96 0)) 96 tape in
    if negb (is_success r) then (PQC_ERROR_RANDOM_GENERATION, pk, sk, tape)
    else
    let seedbuf := default [] seedbuf in
    let rho := shake256_output 32 seedbuf 32 None 0 in
    let rhoprime := shake256_output 64 (drop 32 seedbuf) 32 None 0 in
    let key := take 32 (drop 64 seedbuf) in
    let A := expand_matrix rho in
    let s1 := for_range 0 DILITHIUM_L (fun i s1 =>
      <[i := poly_uniform_eta (row s1 i) rhoprime (Z.of_nat i)]> s1)
      (replicate DILITHIUM_L (replicate DILITHIUM_N 0)) in
    let s2 := for_range 0 DILITHIUM_K (fun i s2 =>
      <[i := poly_uniform_eta (row s2 i) rhoprime
               (Z.of_nat (DILITHIUM_L + i))]> s2)
      (replicate DILITHIUM_K (replicate DILITHIUM_N 0)) in
    let zero_mat := replicate DILITHIUM_K (replicate DILITHIUM_N 0) in
    let '(t1, t0) := for_range 0 DILITHIUM_K (fun i '(t1, t0) =>
      let temp := mat_row_mul (row A i) s1 in
      for_range 0 DILITHIUM_N (fun j '(t1, t0) =>
        let tj := reduce32 (u32 (rd temp j + rd (row s2 i) j)) in
        let '(a1, a0) := power2round tj in
        (<[i := <[j := a1]> (row t1 i)]> t1,
         <[i := <[j := a0]> (row t0 i)]> t0)) (t1, t0))
      (zero_mat, zero_mat) in
    let pkt1 := for_range 0 DILITHIUM_K (fun i pkt1 =>
      for_range 0 DILITHIUM_N (fun j pkt1 =>
        let idx := (i * DILITHIUM_N + j)%nat in
        let byte := (idx * 10 / 8)%nat in
        let sh := Z.of_nat (idx * 10 mod 8) in
        let t := rd (row t1 i) j in
        let pkt1 := <[byte := u8 (Z.lor (rd pkt1 byte)
                                    (Z.shiftl (Z.land t 0xFF) sh))]> pkt1 in
        let pkt1 :=
          if 6 <? sh
          then <[(byte + 1)%nat :=
                 u8 (Z.lor (rd pkt1 (byte + 1))
                       (Z.land (Z.shiftr t (8 - sh)) 0xFF))]> pkt1
          else pkt1 in
        if 4 <? sh
        then <[(byte + 2)%nat :=
               u8 (Z.lor (rd pkt1 (byte + 2))
                     (Z.land (Z.shiftr t (16 - sh)) 0x03))]> pkt1
        else pkt1) pkt1) (pk_t1 pk0) in
    let pk1 := {| pk_rho := memcpy_at (pk_rho pk0) 0 rho; pk_t1 := pkt1 |} in
    let tr := shake256_output 64 (pk_bytes pk1) DILITHIUM_PUBLICKEYBYTES
                None 0 in
    let sk1 := {| sk_rho := memcpy_at (sk_rho sk0) 0 rho;
                  sk_key := memcpy_at (sk_key sk0) 0 key;
                  sk_tr := memcpy_at (sk_tr sk0) 0 tr;
                  sk_s1 := flatten_into DILITHIUM_L (sk_s1 sk0) s1;
                  sk_s2 := flatten_into DILITHIUM_K (sk_s2 sk0) s2;
                  sk_t0 := flatten_into DILITHIUM_K (sk_t0 sk0) t0 |} in
    (PQC_SUCCESS, Some pk1, Some sk1, tape)
  | _, _ => (PQC_ERROR_INVALID_PARAMETER, pk, sk, tape)
  end.

(** "Convert challenge to polynomial". *)
Definition challenge_poly (c : list Z) : list Z :=
  for_range 0 DILITHIUM_TAU (fun j c_poly =>
    let pos := u32 (Z.lor (rd c j) (u32 (Z.shiftl (rd c (j + 32)) 8))) in
    let pos := Z.land pos 0xFF in
    if pos <? Z.of_nat DILITHIUM_N
    then <[Z.to_nat pos := 1]> c_poly else c_poly)
    (replicate DILITHIUM_N 0).

(** The inner loop of "Compute z = y + cs1": it stops at the first
    coefficient that fails the range test ([valid = 0; break]).  Both
    bounds are compared with the uint32_t [z[i][j]], so the negative one is
    converted to unsigned. *)
Fixpoint z_row_loop (n j : nat) (y_i cs1 z_i : list Z) : list Z * bool :=
  match n with
  | O => (z_i, true)
  | S n' =>
    let zj := u32 (rd y_i j + rd cs1 j) in
    let z_i := <[j := zj]> z_i in
    if (DILITHIUM_GAMMA1 - DILITHIUM_BETA <=? zj)
       || (zj <=? u32 (- (DILITHIUM_GAMMA1 - DILITHIUM_BETA)))
    then (z_i, false)
    else z_row_loop n' (S j) y_i cs1 z_i
  end.

(** The loop over the rows of [z], left by [if (!valid) break]. *)
Fixpoint z_loop (n i : nat) (c : list Z) (s1 y z : list (list Z))
  : list (list Z) * bool :=
  match n with
  | O => (z, true)
  | S n' =>
    let c_poly := ntt (challenge_poly c) in
    let s1_ntt := ntt (row s1 i) in
    let cs1 := for_range 0 DILITHIUM_N (fun j cs1 =>
      <[j := montgomery_reduce (u64 (rd c_poly j * rd s1_ntt j))]> cs1)
      (replicate DILITHIUM_N 0) in
    let cs1 := invntt cs1 in
    let '(z_i, valid) :=
      z_row_loop DILITHIUM_N 0 (row y i) cs1 (row z i) in
    let z := <[i := z_i]> z in
    if negb valid then (z, false) else z_loop n' (S i) c s1 y z
  end.

(** One turn of the "Main signing loop": [None] stands for
    [nonce++; continue], [Some] for the signature bytes and their length
    at [break]. *)
Definition sign_attempt (signature : list Z) (A : list (list (list Z)))
  (s1 s2 t0 : list (list Z)) (mu rhoprime : list Z) (nonce : Z)
  : option (list Z * nat) :=
  let y := for_range 0 DILITHIUM_L (fun i y =>
    <[i := poly_uniform_gamma1 (row y i) rhoprime
             (u16 (Z.of_nat DILITHIUM_L * nonce + Z.of_nat i))]> y)
    (replicate DILITHIUM_L (replicate DILITHIUM_N 0)) in
  let zero_mat := replicate DILITHIUM_K (replicate DILITHIUM_N 0) in
  let '(w1, w0) := for_range 0 DILITHIUM_K (fun i '(w1, w0) =>
    let temp := mat_row_mul (row A i) y in
    for_range 0 DILITHIUM_N (fun j '(w1, w0) =>
      let '(a1, a0) := decompose (reduce32 (rd temp j)) in
      (<[i := <[j := a1]> (row w1 i)]> w1,
       <[i := <[j := a0]> (row w0 i)]> w0)) (w1, w0))
    (zero_mat, zero_mat) in
  let w1_packed := pack_w1 w1 in
  let c := shake256_output 32 mu 64 (Some w1_packed)
             (DILITHIUM_K * DILITHIUM_N * 6 / 8) in
  let '(z, valid) :=
    z_loop DILITHIUM_L 0 c s1 y
      (replicate DILITHIUM_L (replicate DILITHIUM_N 0)) in
  if negb valid then None
  else
    let '(h, hint_count) := for_range 0 DILITHIUM_K (fun i '(h, cnt) =>
      for_range 0 DILITHIUM_N (fun j '(h, cnt) =>
        let r0 := u32 (rd (row w0 i) j - rd (row s2 i) j) in
        let hij := make_hint r0 (rd (row w1 i) j) in
        (<[i := <[j := hij]> (row h i)]> h, cnt + hij)) (h, cnt))
      (zero_mat, 0) in
    if DILITHIUM_OMEGA <? hint_count then None
    else
      let signature := memcpy_at signature 0 c in
      let '(signature, sig_pos) :=
        for_range 0 DILITHIUM_L (fun i '(sg, sig_pos) =>
          for_range 0 DILITHIUM_N (fun j '(sg, sig_pos) =>
            let t := rd (row z i) j in
            let sg := <[sig_pos := Z.land t 0xFF]> sg in
            let sg := <[S sig_pos := Z.land (Z.shiftr t 8) 0xFF]> sg in
            let sg := <[S (S sig_pos) := Z.land (Z.shiftr t 16) 0xFF]> sg in
            (sg, S (S (S sig_pos)))) (sg, sig_pos))
          (signature, 32%nat) in
      let '(signature, sig_pos) :=
        for_range 0 DILITHIUM_K (fun i '(sg, sig_pos) =>
          for_range 0 DILITHIUM_N (fun j '(sg, sig_pos) =>
            if negb (rd (row h i) j =? 0)
            then (<[sig_pos := u8 (Z.of_nat j)]> sg, S sig_pos)
            else (sg, sig_pos)) (sg, sig_pos))
          (signature, sig_pos) in
      Some (signature, sig_pos).

(** [while (1)]: [fuel] bounds the number of turns, and [None] means that
    the loop is still running after [fuel] turns. *)
Fixpoint sign_loop (fuel : nat) (signature : list Z)
  (A : list (list (list Z))) (s1 s2 t0 : list (list Z))
  (mu rhoprime : list Z) (nonce : Z) : option (list Z * nat) :=
  match fuel with
  | O => None
  | S fuel' =>
    match sign_attempt signature A s1 s2 t0 mu rhoprime nonce with
    | Some r => Some r
    | None => sign_loop fuel' signature A s1 s2 t0 mu rhoprime (nonce + 1)
    end
  end.

(** [dilithium_sign]; the result is [None] when the call has not returned
    after [fuel] turns of its signing loop. *)
Definition dilithium_sign (fuel : nat) (signature : option (list Z))
  (siglen : option nat) (message : option (list Z)) (msglen : nat)
  (sk : option dilithium_secret_key_t) (tape : list Z)
  : option (pqc_result_t * option (list Z) * option nat * list Z) :=
  match signature, siglen, message, sk with
  | Some sig0, Some _, Some msg, Some sk0 =>
    let s1 := unflatten DILITHIUM_L (sk_s1 sk0) in
    let s2 := unflatten DILITHIUM_K (sk_s2 sk0) in
    let t0 := unflatten DILITHIUM_K (sk_t0 sk0) in
    let A := expand_matrix (sk_rho sk0) in
    let mu := shake256_output 64 (sk_tr sk0) 64 (Some msg) msglen in
    let '(r, rhoprime, tape) :=
      pqc_randombytes (Some (replicate 64 0)) 64 tape in
    if negb (is_success r)
    then Some (PQC_ERROR_RANDOM_GENERATION, signature, siglen, tape)
    else
      match sign_loop fuel sig0 A s1 s2 t0 mu (default [] rhoprime) 0 with
      | Some (sig1, sig_pos) =>
        Some (PQC_SUCCESS, Some sig1, Some sig_pos, tape)
      | None => None
      end
  | _, _, _, _ =>
    Some (PQC_ERROR_INVALID_PARAMETER, signature, siglen, tape)
  end.

(** "Unpack z": rows are read while [sig_pos + 2 < siglen]; the first
    coefficient out of range ends the call ([None]). *)
Definition unpack_z_loop (signature : list Z) (siglen : nat)
  : option (list (list Z) * nat * bool) :=
  for_range 0 DILITHIUM_L (fun i st =>
    for_range 0 DILITHIUM_N (fun j st =>
      match st with
      | None => None
      | Some (z, sig_pos, running) =>
        if running && (sig_pos + 2 <? siglen)%nat then
          let zij := u32 (Z.lor (Z.lor (rd signature sig_pos)
                        (u32 (Z.shiftl (rd signature (sig_pos + 1)) 8)))
                        (u32 (Z.shiftl (rd signature (sig_pos + 2)) 16))) in
          if DILITHIUM_GAMMA1 - DILITHIUM_BETA <=? zij then None
          else Some (<[i := <[j := zij]> (row z i)]> z,
                     (sig_pos + 3)%nat, true)
        else Some (z, sig_pos, false)
      end)
      (match st with
       | Some (z, sig_pos, _) => Some (z, sig_pos, true)
       | None => None
       end))
    (Some (replicate DILITHIUM_L (replicate DILITHIUM_N 0), 32%nat, true)).

Definition unpack_z (signature : list Z) (siglen : nat)
  : option (list (list Z) * nat) :=
  match unpack_z_loop signature siglen with
  | Some (z, sig_pos, _) => Some (z, sig_pos)
  | None => None
  end.

Definition dilithium_verify (signature : option (list Z)) (siglen : nat)
  (message : option (list Z)) (msglen : nat)
  (pk : option dilithium_public_key_t) : pqc_result_t :=
  match signature, message, pk with
  | Some sg, Some msg, Some pk0 =>
    if (siglen <? 32)%nat then PQC_ERROR_INVALID_PARAMETER
    else
    let c := take 32 sg in
    match unpack_z sg siglen with
    | None => PQC_ERROR_INVALID_SIGNATURE
    | Some (z, sig_pos) =>
      let zero_mat := replicate DILITHIUM_K (replicate DILITHIUM_N 0) in
      let h := for_range sig_pos (siglen - sig_pos) (fun p h =>
        let pos := rd sg p in
        if pos <? Z.of_nat DILITHIUM_N
        then <[0%nat := <[Z.to_nat pos := 1]> (row h 0)]> h else h)
        zero_mat in
      let A := expand_matrix (pk_rho pk0) in
      let t1 := for_range 0 DILITHIUM_K (fun i t1 =>
        <[i := for_range 0 DILITHIUM_N (fun j t1i =>
          let idx := (i * DILITHIUM_N + j)%nat in
          let byte := (idx * 10 / 8)%nat in
          let sh := Z.of_nat (idx * 10 mod 8) in
          let t := Z.shiftr (rd (pk_t1 pk0) byte) sh in
          let t := if 6 <? sh
                   then Z.lor t (u32 (Z.shiftl (rd (pk_t1 pk0) (byte + 1))
                                        (8 - sh)))
                   else t in
          let t := if 4 <? sh
                   then Z.lor t (u32 (Z.shiftl (rd (pk_t1 pk0) (byte + 2))
                                        (16 - sh)))
                   else t in
          <[j := Z.land t (Z.shiftl 1 10 - 1)]> t1i) (row t1 i)]> t1)
        zero_mat in
      let tr := shake256_output 64 (pk_bytes pk0) DILITHIUM_PUBLICKEYBYTES
                  None 0 in
      let mu := shake256_output 64 tr 64 (Some msg) msglen in
      let w1_prime := for_range 0 DILITHIUM_K (fun i w1_prime =>
        let temp := mat_row_mul (row A i) z in
        <[i := for_range 0 DILITHIUM_N (fun j wi =>
          let tj := reduce32 (u32 (rd temp j
                      - u32 (Z.shiftl (rd (row t1 i) j) DILITHIUM_D))) in
          <[j := use_hint tj (rd (row h i) j)]> wi) (row w1_prime i)]>
        w1_prime) zero_mat in
      let w1_packed := pack_w1 w1_prime in
      let c_computed := shake256_output 32 mu 64 (Some w1_packed)
                          (DILITHIUM_K * DILITHIUM_N * 6 / 8) in
      if negb (secure_memcmp (Some c) (Some c_computed) 32 =? 0)
      then PQC_ERROR_INVALID_SIGNATURE
      else PQC_SUCCESS
    end
  | _, _, _ => PQC_ERROR_INVALID_PARAMETER
  end.

End Dilithium.

(** ** tmp2_interface.c: the simulated TPM

    The file spells its state and some of its functions both [tpm...] and
    [tmp...]; there is one state and one function of each kind. *)

Module Tpm2.

Definition MAX_PCR_REGISTERS : nat := 8.

Record tpm_state_t : Type := {
  initialized : bool;
  pcr_values : list (list Z);       (* uint8_t [MAX_PCR_REGISTERS][32] *)
  pcr_allocated : list bool;
  extend_count : list Z             (* uint32_t [MAX_PCR_REGISTERS] *)
}.

(** [static ... tpm_state = {0}]. *)
Definition tpm_state_zero : tpm_state_t :=
  {| initialized := false;
     pcr_values := replicate MAX_PCR_REGISTERS (replicate 32 0);
     pcr_allocated := replicate MAX_PCR_REGISTERS false;
     extend_count := replicate MAX_PCR_REGISTERS 0 |}.

Definition pcr (values : list (list Z)) (i : nat) : list Z :=
  default [] (values !! i).
Definition flag (flags : list bool) (i : nat) : bool :=
  default false (flags !! i).

Definition tpm2_init (st : tpm_state_t) : pqc_result_t * tpm_state_t :=
  if initialized st then (PQC_SUCCESS, st)
  else
    let '(values, allocated, counts) :=
      for_range 0 MAX_PCR_REGISTERS (fun i '(values, allocated, counts) =>
        (<[i := replicate 32 0]> values, <[i := true]> allocated,
         <[i := 0]> counts))
        (pcr_values st, pcr_allocated st, extend_count st) in
    (PQC_SUCCESS,
     {| initialized := true; pcr_values := values;
        pcr_allocated := allocated; extend_count := counts |}).

Definition tpm2_cleanup (st : tpm_state_t) : tpm_state_t :=
  if negb (initialized st) then st
  else
    let '(values, allocated, counts) :=
      for_range 0 MAX_PCR_REGISTERS (fun i '(values, allocated, counts) =>
        (<[i := secure_memzero (pcr values i) 32]> values,
         <[i := false]> allocated, <[i := 0]> counts))
        (pcr_values st, pcr_allocated st, extend_count st) in
    {| initialized := false; pcr_values := values;
       pcr_allocated := allocated; extend_count := counts |}.

Definition tpm2_read_pcr (pcr_index : nat) (pcr_value : option (list Z))
  (st : tpm_state_t) : pqc_result_t * option (list Z) :=
  if negb (initialized st) then (PQC_ERROR_HARDWARE_FAILURE, pcr_value)
  else if (MAX_PCR_REGISTERS <=? pcr_index)%nat
  then (PQC_ERROR_INVALID_PARAMETER, pcr_value)
  else if negb (flag (pcr_allocated st) pcr_index)
  then (PQC_ERROR_HARDWARE_FAILURE, pcr_value)
  else match pcr_value with
       | None => (PQC_ERROR_INVALID_PARAMETER, pcr_value)
       | Some buf =>
         (PQC_SUCCESS, Some (memcpy_at buf 0 (pcr (pcr_values st) pcr_index)))
       end.

Definition tmp2_extend_pcr (pcr_index : nat) (measurement : option (list Z))
  (st : tpm_state_t) : pqc_result_t * tpm_state_t :=
  if negb (initialized st) then (PQC_ERROR_HARDWARE_FAILURE, st)
  else if (MAX_PCR_REGISTERS <=? pcr_index)%nat
  then (PQC_ERROR_INVALID_PARAMETER, st)
  else if negb (flag (pcr_allocated st) pcr_index)
  then (PQC_ERROR_HARDWARE_FAILURE, st)
  else match measurement with
       | None => (PQC_ERROR_INVALID_PARAMETER, st)
       | Some m =>
         let extend_data := memcpy_at (replicate 64 0) 0
                              (pcr (pcr_values st) pcr_index) in
         let extend_data := memcpy_at extend_data 32 (take 32 m) in
         let '(result, new_value) :=
           CryptoHash.sha3_256 (Some (pcr (pcr_values st) pcr_index))
             (Some extend_data) 64 in
         let st := {| initialized := initialized st;
                      pcr_values :=
                        <[pcr_index :=
                            default (pcr (pcr_values st) pcr_index) new_value]>
                          (pcr_values st);
                      pcr_allocated := pcr_allocated st;
                      extend_count := extend_count st |} in
         if negb (is_success result) then (result, st)
         else
           (PQC_SUCCESS,
            {| initialized := initialized st;
               pcr_values := pcr_values st;
               pcr_allocated := pcr_allocated st;
               extend_count :=
                 <[pcr_index := u32 (rd (extend_count st) pcr_index + 1)]>
                   (extend_count st) |})
       end.

Definition tpm2_get_extend_count (pcr_index : nat) (st : tpm_state_t) : Z :=
  if negb (initialized st) || (MAX_PCR_REGISTERS <=? pcr_index)%nat then 0
  else rd (extend_count st) pcr_index.

Definition tmp2_reset_pcr (pcr_index : nat) (st : tpm_state_t)
  : tpm_state_t :=
  if negb (initialized st) || (MAX_PCR_REGISTERS <=? pcr_index)%nat then st
  else {| initialized := initialized st;
          pcr_values := <[pcr_index := replicate 32 0]> (pcr_values st);
          pcr_allocated := pcr_allocated st;
          extend_count := <[pcr_index := 0]> (extend_count st) |}.

(** The shape the C types give the state: eight registers of 32 bytes and
    eight counters. *)
Definition tpm_wf (st : tpm_state_t) : Prop :=
  length (pcr_values st) = MAX_PCR_REGISTERS
  /\ length (extend_count st) = MAX_PCR_REGISTERS
  /\ Forall (fun v => length v = 32%nat) (pcr_values st).

(** [tpm2_quote]: the header, the mask byte and the selected registers are
    written one after the other; a buffer that turns out too small ends the
    call with what has been written so far and [*quote_size] unchanged. *)
Definition tpm2_quote (pcr_mask : Z) (quote_data : option (list Z))
  (quote_size : option nat) (st : tpm_state_t)
  : pqc_result_t * option (list Z) * option nat :=
  if negb (initialized st)
  then (PQC_ERROR_HARDWARE_FAILURE, quote_data, quote_size)
  else
    match quote_data, quote_size with
    | Some data, Some max_quote_size =>
      if (max_quote_size <? 0 + 4)%nat
      then (PQC_ERROR_INSUFFICIENT_MEMORY, quote_data, quote_size)
      else
        let data := <[0%nat := 0x54]> data in
        let data := <[1%nat := 0x50]> data in
        let data := <[2%nat := 0x4D]> data in
        let data := <[3%nat := 0x32]> data in
        if (max_quote_size <? 4 + 1)%nat
        then (PQC_ERROR_INSUFFICIENT_MEMORY, Some data, quote_size)
        else
          let data := <[4%nat := pcr_mask]> data in
          let '(data, offset, ok) :=
            @for_range (list Z * nat * bool) 0 MAX_PCR_REGISTERS
              (fun i '(data, offset, ok) =>
              if ok then
                if negb (Z.land pcr_mask (Z.shiftl 1 (Z.of_nat i)) =? 0) then
                  if (max_quote_size <? offset + 32)%nat
                  then (data, offset, false)
                  else (memcpy_at data offset (pcr (pcr_values st) i),
                        (offset + 32)%nat, true)
                else (data, offset, true)
              else (data, offset, false)) (data, 5%nat, true) in
          if ok then (PQC_SUCCESS, Some data, Some offset)
          else (PQC_ERROR_INSUFFICIENT_MEMORY, Some data, quote_size)
    | _, _ => (PQC_ERROR_INVALID_PARAMETER, quote_data, quote_size)
    end.

(** The registers a mask selects, in the order the quote lists them. *)
Definition quote_selected (pcr_mask : Z) : list nat :=
  List.filter
    (fun i => negb (Z.land pcr_mask (Z.shiftl 1 (Z.of_nat i)) =? 0))
    (seq 0 MAX_PCR_REGISTERS).

(** The bytes of a complete quote. *)
Definition quote_bytes (pcr_mask : Z) (st : tpm_state_t) : list Z :=
  [0x54; 0x50; 0x4D; 0x32; pcr_mask]
  ++ concat (map (pcr (pcr_values st)) (quote_selected pcr_mask)).

Definition TPM2_KEY_TYPE_RSA_2048 : Z := 1.
Definition TPM2_KEY_TYPE_ECC_P256 : Z := 3.
Definition TPM2_KEY_TYPE_HMAC : Z := 5.

(** [tpm2_create_key]; [next_handle] is the function's static counter
    (a uint32_t that starts at 0x80000001). *)
Definition tpm2_create_key (key_type : Z) (key_handle : option Z)
  (st : tpm_state_t) (next_handle : Z) : pqc_result_t * option Z * Z :=
  if negb (initialized st)
  then (PQC_ERROR_HARDWARE_FAILURE, key_handle, next_handle)
  else
    match key_handle with
    | None => (PQC_ERROR_INVALID_PARAMETER, key_handle, next_handle)
    | Some _ =>
      if (key_type =? TPM2_KEY_TYPE_RSA_2048)
         || (key_type =? TPM2_KEY_TYPE_ECC_P256)
         || (key_type =? TPM2_KEY_TYPE_HMAC)
      then (PQC_SUCCESS, Some next_handle, u32 (next_handle + 1))
      else (PQC_ERROR_INVALID_PARAMETER, key_handle, next_handle)
    end.

(** [(uint8_t * )&key_handle] on a little-endian machine. *)
Definition key_handle_bytes (key_handle : Z) : list Z :=
  [u8 key_handle; u8 (Z.shiftr key_handle 8); u8 (Z.shiftr key_handle 16);
   u8 (Z.shiftr key_handle 24)].

(** The mock signature: byte [i] is
    [hash_input[i % (data_size + 4)] ^ (i & 0xFF)], where [hash_input] is
    the data followed by the four bytes of the key handle. *)
Definition tpm2_sign (key_handle : Z) (data : option (list Z))
  (data_size : nat) (signature : option (list Z))
  (signature_size : option nat) (st : tpm_state_t)
  : pqc_result_t * option (list Z) * option nat :=
  if negb (initialized st)
  then (PQC_ERROR_HARDWARE_FAILURE, signature, signature_size)
  else
    match data, signature, signature_size with
    | Some d, Some sg, Some size =>
      if (data_size =? 0)%nat
      then (PQC_ERROR_INVALID_PARAMETER, signature, signature_size)
      else
        let sim_sig_size := 256%nat in
        if (size <? sim_sig_size)%nat
        then (PQC_ERROR_INSUFFICIENT_MEMORY, signature, Some sim_sig_size)
        else
          let hash_input :=
            map (rd d) (seq 0 data_size) ++ key_handle_bytes key_handle in
          let sg := for_range 0 sim_sig_size (fun i sg =>
            <[i := u8 (Z.lxor (rd hash_input (i mod (data_size + 4)))
                              (Z.land (Z.of_nat i) 0xFF))]> sg) sg in
          (PQC_SUCCESS, Some sg, Some sim_sig_size)
    | _, _, _ => (PQC_ERROR_INVALID_PARAMETER, signature, signature_size)
    end.

Definition tpm2_verify (key_handle : Z) (data : option (list Z))
  (data_size : nat) (signature : option (list Z)) (signature_size : nat)
  (st : tpm_state_t) : pqc_result_t :=
  if negb (initialized st) then PQC_ERROR_HARDWARE_FAILURE
  else
    match data, signature with
    | Some _, Some _ =>
      if (data_size =? 0)%nat || (signature_size =? 0)%nat
      then PQC_ERROR_INVALID_PARAMETER
      else
        let '(result, expected_signature, expected_size) :=
          tpm2_sign key_handle data data_size (Some (replicate 256 0))
            (Some 256%nat) st in
        if negb (is_success result) then result
        else if negb (signature_size =? default 0%nat expected_size)%nat
        then PQC_ERROR_INVALID_SIGNATURE
        else if negb (secure_memcmp signature expected_signature
                        signature_size =? 0)
        then PQC_ERROR_INVALID_SIGNATURE
        else PQC_SUCCESS
    | _, _ => PQC_ERROR_INVALID_PARAMETER
    end.

(** "TPM self-test data". *)
Definition self_test_data : list Z :=
  [84; 80; 77; 32; 115; 101; 108; 102; 45; 116; 101; 115; 116; 32;
   100; 97; 116; 97].

(** [tpm2_self_test]; [tpm2_unload_key] at its end does nothing on an
    initialised TPM. *)
Definition tpm2_self_test (st : tpm_state_t) (next_handle : Z)
  : pqc_result_t * tpm_state_t * Z :=
  if negb (initialized st)
  then (PQC_ERROR_HARDWARE_FAILURE, st, next_handle)
  else
    let test_measurement := replicate 32 0xAA in
    let test_pcr := 7%nat in
    let '(result, original_pcr) :=
      tpm2_read_pcr test_pcr (Some (replicate 32 0)) st in
    if negb (is_success result) then (result, st, next_handle)
    else
    let '(result, st) := tmp2_extend_pcr test_pcr (Some test_measurement) st in
    if negb (is_success result) then (result, st, next_handle)
    else
    let '(result, new_pcr) :=
      tpm2_read_pcr test_pcr (Some (replicate 32 0)) st in
    if negb (is_success result) then (result, st, next_handle)
    else if secure_memcmp original_pcr new_pcr 32 =? 0
    then (PQC_ERROR_HARDWARE_FAILURE, st, next_handle)
    else
    let '(result, test_key, next_handle) :=
      tpm2_create_key TPM2_KEY_TYPE_RSA_2048 (Some 0) st next_handle in
    if negb (is_success result) then (result, st, next_handle)
    else
    let test_key := default 0 test_key in
    let '(result, signature, sig_size) :=
      tpm2_sign test_key (Some self_test_data) (length self_test_data)
        (Some (replicate 256 0)) (Some 256%nat) st in
    if negb (is_success result) then (result, st, next_handle)
    else
    let result :=
      tpm2_verify test_key (Some self_test_data) (length self_test_data)
        signature (default 0%nat sig_size) st in
    if negb (is_success result) then (result, st, next_handle)
    else (PQC_SUCCESS, st, next_handle).

End Tpm2.

(** ** attestation_engine.h / attestation_engine.c *)

Module Attestation.
Import Dilithium Tpm2.

Definition MAX_MEASUREMENT_LOG_ENTRIES : nat := 256.
Definition MAX_MEASUREMENTS_PER_REPORT : nat := 32.
Definition ATTESTATION_REPORT_VERSION : Z := 1.
Definition DEVICE_ID_LENGTH : nat := 32.
Definition SERIAL_NUMBER_LENGTH : nat := 64.
Definition MEASUREMENT_TYPE_MAX : Z := 8.

Inductive trust_level_t : Set :=
| TRUST_LEVEL_UNKNOWN
| TRUST_LEVEL_LOW
| TRUST_LEVEL_MEDIUM
| TRUST_LEVEL_HIGH
| TRUST_LEVEL_CRITICAL.

Inductive attestation_error_t : Set :=
| ATTESTATION_ERROR_NONE
| ATTESTATION_ERROR_INVALID_FORMAT
| ATTESTATION_ERROR_SIGNATURE_INVALID
| ATTESTATION_ERROR_TIMESTAMP_INVALID
| ATTESTATION_ERROR_INVALID_PCR
| ATTESTATION_ERROR_INVALID_MEASUREMENT
| ATTESTATION_ERROR_POLICY_VIOLATION
| ATTESTATION_ERROR_EXPIRED
| ATTESTATION_ERROR_REVOKED
| ATTESTATION_ERROR_UNKNOWN_DEVICE.

Record device_info_t : Type := {
  serial_number : list Z;            (* char [SERIAL_NUMBER_LENGTH] *)
  di_device_type : Z;
  hardware_version : Z;
  firmware_version : Z;
  manufacturer_id : list Z;
  model_id : list Z
}.

Record platform_measurement_t : Type := {
  pcr_index : Z;                     (* uint8_t *)
  measurement_type : Z;              (* measurement_type_t *)
  measurement_value : list Z;
  m_timestamp : Z;
  measurement_size : Z;
  description : list Z
}.

Record measurement_log_t : Type := {
  count : nat;
  log_capacity : nat;
  log_measurements : list platform_measurement_t
}.

Record attestation_report_t : Type := {
  device_id : list Z;
  timestamp : Z;                     (* uint64_t *)
  report_version : Z;                (* uint32_t *)
  measurement_count : Z;             (* uint32_t *)
  report_pcr_values : list (list Z);
  measurements : list platform_measurement_t;
  signature_length : Z;              (* uint32_t *)
  signature : list Z                 (* uint8_t [DILITHIUM_SIGNATUREBYTES] *)
}.

Record attestation_verification_result_t : Type := {
  is_valid : bool;
  error_code : attestation_error_t;
  trust_level : trust_level_t;
  result_device_id : list Z;
  result_timestamp : Z;
  policies_met : Z;
  error_description : list Z
}.

Record attestation_config_t : Type := {
  device_type : Z;
  device_serial : list Z;            (* char [SERIAL_NUMBER_LENGTH] *)
  enable_continuous_monitoring : bool;
  attestation_interval_minutes : Z;
  require_tpm_presence : bool;
  enable_measurement_log : bool;
  max_log_entries : Z
}.

Record attestation_context_t : Type := {
  config : attestation_config_t;
  device_info : device_info_t;
  device_keypair : dilithium_keypair_t;
  device_keypair_valid : bool;
  ctx_pcr_values : list (list Z);
  pcr_valid : list bool;
  measurement_log : measurement_log_t;
  last_attestation_time : Z
}.

(** The process-wide state the engine works on: its two globals and the
    state of the simulated TPM. *)
Record engine_state : Type := {
  g_attestation_ctx : attestation_context_t;
  g_attestation_initialized : bool;
  tpm_state : tpm_state_t
}.

Definition zero_measurement : platform_measurement_t :=
  {| pcr_index := 0; measurement_type := 0;
     measurement_value := replicate 32 0; m_timestamp := 0;
     measurement_size := 0; description := replicate 64 0 |}.

(** [memset(result_out, 0, sizeof( *result_out))]. *)
Definition zero_result : attestation_verification_result_t :=
  {| is_valid := false; error_code := ATTESTATION_ERROR_NONE;
     trust_level := TRUST_LEVEL_UNKNOWN;
     result_device_id := replicate DEVICE_ID_LENGTH 0;
     result_timestamp := 0; policies_met := 0;
     error_description := replicate 128 0 |}.

Definition with_error (r : attestation_verification_result_t)
  (e : attestation_error_t) : attestation_verification_result_t :=
  {| is_valid := is_valid r; error_code := e; trust_level := trust_level r;
     result_device_id := result_device_id r;
     result_timestamp := result_timestamp r; policies_met := policies_met r;
     error_description := error_description r |}.

Fixpoint strlen (s : list Z) : nat :=
  match s with
  | [] => 0%nat
  | c :: s' => if c =? 0 then 0%nat else S (strlen s')
  end.

(** [strncpy(dst, src, n)]: the characters of [src], then NUL padding up
    to [n] bytes. *)
Definition strncpy (dst src : list Z) (n : nat) : list Z :=
  for_range 0 n (fun i dst =>
    <[i := if (i <? strlen src)%nat then rd src i else 0]> dst) dst.

Definition calculate_sha256 (data : option (list Z)) (data_len : nat)
  (hash : option (list Z)) : pqc_result_t * option (list Z) :=
  CryptoHash.sha3_256 hash data data_len.

Definition set_tpm (st : engine_state) (tpm : tpm_state_t) : engine_state :=
  {| g_attestation_ctx := g_attestation_ctx st;
     g_attestation_initialized := g_attestation_initialized st;
     tpm_state := tpm |}.

Definition set_ctx (st : engine_state) (ctx : attestation_context_t)
  : engine_state :=
  {| g_attestation_ctx := ctx;
     g_attestation_initialized := g_attestation_initialized st;
     tpm_state := tpm_state st |}.

Definition extend_pcr (pcr_index : nat) (measurement : list Z)
  (st : engine_state) : pqc_result_t * engine_state :=
  if (MAX_PCR_REGISTERS <=? pcr_index)%nat
  then (PQC_ERROR_INVALID_PARAMETER, st)
  else
    let '(result, current_pcr) :=
      tpm2_read_pcr pcr_index (Some (replicate 32 0)) (tpm_state st) in
    if negb (is_success result) then (result, st)
    else
      let current_pcr := default [] current_pcr in
      let extend_data := memcpy_at (replicate 64 0) 0 current_pcr in
      let extend_data := memcpy_at extend_data 32 (take 32 measurement) in
      let '(result, new_pcr) :=
        calculate_sha256 (Some extend_data) 64 (Some (replicate 32 0)) in
      if negb (is_success result) then (result, st)
      else
        let '(result, tpm) :=
          tmp2_extend_pcr pcr_index (Some measurement) (tpm_state st) in
        let st := set_tpm st tpm in
        if negb (is_success result) then (result, st)
        else
          let ctx := g_attestation_ctx st in
          (PQC_SUCCESS,
           set_ctx st
             {| config := config ctx; device_info := device_info ctx;
                device_keypair := device_keypair ctx;
                device_keypair_valid := device_keypair_valid ctx;
                ctx_pcr_values :=
                  <[pcr_index :=
                      memcpy_at (pcr (ctx_pcr_values ctx) pcr_index) 0
                        (default [] new_pcr)]> (ctx_pcr_values ctx);
                pcr_valid := <[pcr_index := true]> (pcr_valid ctx);
                measurement_log := measurement_log ctx;
                last_attestation_time := last_attestation_time ctx |}).

Definition attestation_init (config_arg : option attestation_config_t)
  (st : engine_state) (tape : list Z)
  : pqc_result_t * engine_state * list Z :=
  match config_arg with
  | None => (PQC_ERROR_INVALID_PARAMETER, st, tape)
  | Some cfg =>
    if g_attestation_initialized st then (PQC_SUCCESS, st, tape)
    else
      let '(result, tpm) := tpm2_init (tpm_state st) in
      let st := set_tpm st tpm in
      if negb (is_success result) then (result, st, tape)
      else
        let ctx := g_attestation_ctx st in
        let info := device_info ctx in
        let serial :=
          if (0 <? strlen (device_serial cfg))%nat
          then strncpy (serial_number info) (device_serial cfg)
                 (SERIAL_NUMBER_LENGTH - 1)
          else serial_number info in
        let info := {| serial_number := serial;
                       di_device_type := device_type cfg;
                       hardware_version := 1; firmware_version := 1;
                       manufacturer_id := manufacturer_id info;
                       model_id := model_id info |} in
        let '(values, valid) :=
          for_range 0 MAX_PCR_REGISTERS (fun i '(values, valid) =>
            (<[i := replicate 32 0]> values, <[i := false]> valid))
            (ctx_pcr_values ctx, pcr_valid ctx) in
        let ctx := {| config := cfg; device_info := info;
                      device_keypair := device_keypair ctx;
                      device_keypair_valid := device_keypair_valid ctx;
                      ctx_pcr_values := values; pcr_valid := valid;
                      measurement_log := measurement_log ctx;
                      last_attestation_time := last_attestation_time ctx |} in
        let '(result, ctx, tape) :=
          if negb (device_keypair_valid ctx) then
            let '(result, pk, sk, tape) :=
              dilithium_keypair (Some (kp_pk (device_keypair ctx)))
                (Some (kp_sk (device_keypair ctx))) tape in
            let kp := {| kp_pk := default (kp_pk (device_keypair ctx)) pk;
                         kp_sk := default (kp_sk (device_keypair ctx)) sk |} in
            (result,
             {| config := config ctx; device_info := device_info ctx;
                device_keypair := kp;
                device_keypair_valid := is_success result;
                ctx_pcr_values := ctx_pcr_values ctx;
                pcr_valid := pcr_valid ctx;
                measurement_log := measurement_log ctx;
                last_attestation_time := last_attestation_time ctx |},
             tape)
          else (PQC_SUCCESS, ctx, tape) in
        if negb (is_success result) then (result, set_ctx st ctx, tape)
        else
          let ctx := {| config := config ctx; device_info := device_info ctx;
                        device_keypair := device_keypair ctx;
                        device_keypair_valid := device_keypair_valid ctx;
                        ctx_pcr_values := ctx_pcr_values ctx;
                        pcr_valid := pcr_valid ctx;
                        measurement_log :=
                          {| count := 0;
                             log_capacity := MAX_MEASUREMENT_LOG_ENTRIES;
                             log_measurements :=
                               log_measurements (measurement_log ctx) |};
                        last_attestation_time := last_attestation_time ctx |} in
          (PQC_SUCCESS,
           {| g_attestation_ctx := ctx; g_attestation_initialized := true;
              tpm_state := tpm_state st |}, tape)
  end.

(** [abs((int)(current_time - report->timestamp)) > 300].  [current_time]
    is a 64-bit [time_t] and the timestamp a uint64_t, so the difference is
    taken modulo 2^64; the cast keeps its low 32 bits as a signed int, and
    [abs] of a negative int negates it in 32 bits. *)
Definition c_abs (x : Z) : Z := if x <? 0 then s32 (- x) else x.

Definition timestamp_skew_exceeded (current_time report_timestamp : Z)
  : bool :=
  300 <? c_abs (s32 (u64 (current_time - report_timestamp))).

(** "Validate PCR values and measurements": the first offending entry ends
    the loop with its error code. *)
Fixpoint check_measurements (n i : nat) (ms : list platform_measurement_t)
  : option attestation_error_t :=
  match n with
  | O => None
  | S n' =>
    let measurement := default zero_measurement (ms !! i) in
    if Z.of_nat MAX_PCR_REGISTERS <=? pcr_index measurement
    then Some ATTESTATION_ERROR_INVALID_PCR
    else if MEASUREMENT_TYPE_MAX <=? measurement_type measurement
    then Some ATTESTATION_ERROR_INVALID_MEASUREMENT
    else check_measurements n' (S i) ms
  end.

(** The engine before [attestation_init]: both globals are
    zero-initialised statics. *)
Definition zero_context : attestation_context_t :=
  {| config := {| device_type := 0;
                  device_serial := replicate SERIAL_NUMBER_LENGTH 0;
                  enable_continuous_monitoring := false;
                  attestation_interval_minutes := 0;
                  require_tpm_presence := false;
                  enable_measurement_log := false;
                  max_log_entries := 0 |};
     device_info := {| serial_number := replicate SERIAL_NUMBER_LENGTH 0;
                       di_device_type := 0; hardware_version := 0;
                       firmware_version := 0;
                       manufacturer_id := replicate 16 0;
                       model_id := replicate 16 0 |};
     device_keypair :=
       {| kp_pk := {| pk_rho := replicate 32 0;
                      pk_t1 := replicate 2560 0 |};
          kp_sk := {| sk_rho := replicate 32 0; sk_key := replicate 32 0;
                      sk_tr := replicate 64 0;
                      sk_s1 := replicate (DILITHIUM_L * DILITHIUM_N) 0;
                      sk_s2 := replicate (DILITHIUM_K * DILITHIUM_N) 0;
                      sk_t0 := replicate (DILITHIUM_K * DILITHIUM_N) 0 |} |};
     device_keypair_valid := false;
     ctx_pcr_values := replicate MAX_PCR_REGISTERS (replicate 32 0);
     pcr_valid := replicate MAX_PCR_REGISTERS false;
     measurement_log :=
       {| count := 0; log_capacity := 0;
          log_measurements :=
            replicate MAX_MEASUREMENT_LOG_ENTRIES zero_measurement |};
     last_attestation_time := 0 |}.

Definition engine_state_zero : engine_state :=
  {| g_attestation_ctx := zero_context;
     g_attestation_initialized := false;
     tpm_state := tpm_state_zero |}.

Section VerifyReport.

(** The report is hashed through [(const uint8_t * )report], over the first
    [sizeof(attestation_report_t) - sizeof(report->signature)] bytes of the
    struct.  Which bytes these are (field offsets, padding) is fixed by the
    C ABI and not by the source, so the byte image is a parameter. *)
Variable report_signed_bytes : attestation_report_t -> list Z.

Definition attestation_verify_report (report : option attestation_report_t)
  (device_public_key : option dilithium_public_key_t)
  (result_out : option attestation_verification_result_t)
  (current_time : Z)
  : pqc_result_t * option attestation_verification_result_t :=
  match report, device_public_key, result_out with
  | Some rep, Some pk, Some _ =>
    let res := zero_result in
    if negb (report_version rep =? ATTESTATION_REPORT_VERSION)
    then (PQC_SUCCESS, Some (with_error res ATTESTATION_ERROR_INVALID_FORMAT))
    else if Z.of_nat MAX_MEASUREMENTS_PER_REPORT <? measurement_count rep
    then (PQC_SUCCESS, Some (with_error res ATTESTATION_ERROR_INVALID_FORMAT))
    else
      let data := report_signed_bytes rep in
      let '(result, report_hash) :=
        calculate_sha256 (Some data) (length data)
          (Some (replicate 32 0)) in
      if negb (is_success result) then (result, Some res)
      else
        let result :=
          dilithium_verify (Some (signature rep))
            (Z.to_nat (signature_length rep)) report_hash 32
            (Some pk) in
        if negb (is_success result)
        then (PQC_SUCCESS,
              Some (with_error res ATTESTATION_ERROR_SIGNATURE_INVALID))
        else if timestamp_skew_exceeded current_time (timestamp rep)
        then (PQC_SUCCESS,
              Some (with_error res ATTESTATION_ERROR_TIMESTAMP_INVALID))
        else
          match check_measurements (Z.to_nat (measurement_count rep)) 0
                  (measurements rep) with
          | Some e => (PQC_SUCCESS, Some (with_error res e))
          | None =>
            (PQC_SUCCESS,
             Some {| is_valid := true; error_code := ATTESTATION_ERROR_NONE;
                     trust_level := TRUST_LEVEL_HIGH;
                     result_device_id :=
                       memcpy_at (result_device_id res) 0
                         (take DEVICE_ID_LENGTH (device_id rep));
                     result_timestamp := timestamp rep;
                     policies_met := policies_met res;
                     error_description := error_description res |})
          end
  | _, _, _ => (PQC_ERROR_INVALID_PARAMETER, result_out)
  end.

End VerifyReport.

Definition MEASUREMENT_TYPE_FIRMWARE : Z := 0.
Definition MEASUREMENT_TYPE_CONFIGURATION : Z := 1.
Definition MEASUREMENT_TYPE_RUNTIME : Z := 2.
Definition MEASUREMENT_TYPE_KEYS : Z := 3.
Definition MEASUREMENT_TYPE_DEVICE_IDENTITY : Z := 5.

(** "PQC-Edge-Attestor-v1.0.0" *)
Definition firmware_version_string : list Z :=
  [80; 81; 67; 45; 69; 100; 103; 101; 45; 65; 116; 116; 101; 115; 116;
   111; 114; 45; 118; 49; 46; 48; 46; 48].

(** "runtime-v1.0.0-secure-mode-enabled" *)
Definition runtime_info_string : list Z :=
  [114; 117; 110; 116; 105; 109; 101; 45; 118; 49; 46; 48; 46; 48; 45;
   115; 101; 99; 117; 114; 101; 45; 109; 111; 100; 101; 45; 101; 110;
   97; 98; 108; 101; 100].

(** "stm32l5-cortex-m33-tpm2.0" *)
Definition hw_id_string : list Z :=
  [115; 116; 109; 51; 50; 108; 53; 45; 99; 111; 114; 116; 101; 120; 45;
   109; 51; 51; 45; 116; 112; 109; 50; 46; 48].

(** The local [device_config_t] of [collect_config_measurement] seen
    through [(const uint8_t * )&config] on a little-endian machine:
    algorithm 6, security level 5, device type 1, frequency 60, reserved
    0; twelve bytes without padding. *)
Definition device_config_bytes : list Z :=
  [6; 0; 0; 0; 5; 0; 0; 0; 1; 60; 0; 0].

(** A register name where a uint8_t is expected. *)
Definition pcr_arg (name : nat) : nat := Z.to_nat (u8 (Z.of_nat name)).

(** The three fields every collector sets first; [now] is what
    [time(NULL)] returns. *)
Definition stamp_measurement (m : platform_measurement_t) (index : nat)
  (type : Z) (now : Z) : platform_measurement_t :=
  {| pcr_index := Z.of_nat (pcr_arg index); measurement_type := type;
     measurement_value := measurement_value m; m_timestamp := u64 now;
     measurement_size := measurement_size m; description := description m |}.

Definition with_value (m : platform_measurement_t) (value : list Z)
  : platform_measurement_t :=
  {| pcr_index := pcr_index m; measurement_type := measurement_type m;
     measurement_value := value; m_timestamp := m_timestamp m;
     measurement_size := measurement_size m; description := description m |}.

Section Collectors.

(** The register each collector extends.  attestation_engine.c defines
    the five names below as 0, 1, 2, 3 and 5 (lines 18 to 25); the
    collectors are written for any assignment of registers to the names,
    so that what is proved of them does not rest on the numbers. *)
Variable PCR_FIRMWARE_HASH : nat.
Variable PCR_CONFIG_HASH : nat.
Variable PCR_RUNTIME_HASH : nat.
Variable PCR_KEYS_HASH : nat.
Variable PCR_DEVICE_ID : nat.

Definition collect_firmware_measurement (measurement : platform_measurement_t)
  (now : Z) (st : engine_state)
  : pqc_result_t * platform_measurement_t * engine_state :=
  let m := stamp_measurement measurement PCR_FIRMWARE_HASH
             MEASUREMENT_TYPE_FIRMWARE now in
  let '(result, value) :=
    calculate_sha256 (Some firmware_version_string)
      (strlen firmware_version_string) (Some (measurement_value m)) in
  let m := with_value m (default (measurement_value m) value) in
  if is_success result then
    let '(result, st) :=
      extend_pcr (pcr_arg PCR_FIRMWARE_HASH) (measurement_value m) st in
    (result, m, st)
  else (result, m, st).

Definition collect_config_measurement (measurement : platform_measurement_t)
  (now : Z) (st : engine_state)
  : pqc_result_t * platform_measurement_t * engine_state :=
  let m := stamp_measurement measurement PCR_CONFIG_HASH
             MEASUREMENT_TYPE_CONFIGURATION now in
  let '(result, value) :=
    calculate_sha256 (Some device_config_bytes) (length device_config_bytes)
      (Some (measurement_value m)) in
  let m := with_value m (default (measurement_value m) value) in
  if is_success result then
    let '(result, st) :=
      extend_pcr (pcr_arg PCR_CONFIG_HASH) (measurement_value m) st in
    (result, m, st)
  else (result, m, st).

Definition collect_runtime_measurement (measurement : platform_measurement_t)
  (now : Z) (st : engine_state)
  : pqc_result_t * platform_measurement_t * engine_state :=
  let m := stamp_measurement measurement PCR_RUNTIME_HASH
             MEASUREMENT_TYPE_RUNTIME now in
  let '(result, value) :=
    calculate_sha256 (Some runtime_info_string)
      (strlen runtime_info_string) (Some (measurement_value m)) in
  let m := with_value m (default (measurement_value m) value) in
  if is_success result then
    let '(result, st) :=
      extend_pcr (pcr_arg PCR_RUNTIME_HASH) (measurement_value m) st in
    (result, m, st)
  else (result, m, st).

(** The public key is hashed through the bytes of its struct, [rho]
    followed by the packed [t1] as in dilithium.c; without a valid key
    pair the measurement is 32 zero bytes. *)
Definition collect_keys_measurement (measurement : platform_measurement_t)
  (now : Z) (st : engine_state)
  : pqc_result_t * platform_measurement_t * engine_state :=
  let m := stamp_measurement measurement PCR_KEYS_HASH
             MEASUREMENT_TYPE_KEYS now in
  let ctx := g_attestation_ctx st in
  let '(result, pubkey_hash) :=
    if device_keypair_valid ctx
    then calculate_sha256 (Some (pk_bytes (kp_pk (device_keypair ctx))))
           DILITHIUM_PUBLICKEYBYTES (Some (replicate 32 0))
    else (PQC_SUCCESS, Some (replicate 32 0)) in
  if negb (is_success result) then (result, m, st)
  else
    let m := with_value m
               (memcpy_at (measurement_value m) 0
                  (take 32 (default [] pubkey_hash))) in
    let '(result, st) :=
      extend_pcr (pcr_arg PCR_KEYS_HASH) (measurement_value m) st in
    (result, m, st).

Definition collect_device_id_measurement
  (measurement : platform_measurement_t) (now : Z) (st : engine_state)
  : pqc_result_t * platform_measurement_t * engine_state :=
  let m := stamp_measurement measurement PCR_DEVICE_ID
             MEASUREMENT_TYPE_DEVICE_IDENTITY now in
  let serial := serial_number (device_info (g_attestation_ctx st)) in
  let '(result, value) :=
    if (0 <? strlen serial)%nat
    then calculate_sha256 (Some serial) (strlen serial)
           (Some (measurement_value m))
    else calculate_sha256 (Some hw_id_string) (strlen hw_id_string)
           (Some (measurement_value m)) in
  let m := with_value m (default (measurement_value m) value) in
  if negb (is_success result) then (result, m, st)
  else
    let '(result, st) :=
      extend_pcr (pcr_arg PCR_DEVICE_ID) (measurement_value m) st in
    (result, m, st).

(** "Add to measurement log": the entry is stored only while the log has
    room. *)
Definition log_append (measurement : platform_measurement_t)
  (st : engine_state) : engine_state :=
  let ctx := g_attestation_ctx st in
  let log := measurement_log ctx in
  if (count log <? MAX_MEASUREMENT_LOG_ENTRIES)%nat then
    set_ctx st
      {| config := config ctx; device_info := device_info ctx;
         device_keypair := device_keypair ctx;
         device_keypair_valid := device_keypair_valid ctx;
         ctx_pcr_values := ctx_pcr_values ctx; pcr_valid := pcr_valid ctx;
         measurement_log :=
           {| count := S (count log); log_capacity := log_capacity log;
              log_measurements :=
                <[count log := measurement]> (log_measurements log) |};
         last_attestation_time := last_attestation_time ctx |}
  else st.

(** [attestation_collect_measurements]; [measurement] is the local the
    five collectors fill in turn (uninitialised on entry), and [clock]
    lists what the successive calls of [time(NULL)] return. *)
Definition attestation_collect_measurements
  (measurement : platform_measurement_t) (clock : list Z)
  (st : engine_state) : pqc_result_t * engine_state :=
  if negb (g_attestation_initialized st)
  then (PQC_ERROR_INVALID_PARAMETER, st)
  else
    let '(result, measurement, st) :=
      collect_firmware_measurement measurement (rd clock 0) st in
    if negb (is_success result) then (result, st)
    else
    let st := log_append measurement st in
    let '(result, measurement, st) :=
      collect_config_measurement measurement (rd clock 1) st in
    if negb (is_success result) then (result, st)
    else
    let st := log_append measurement st in
    let '(result, measurement, st) :=
      collect_runtime_measurement measurement (rd clock 2) st in
    if negb (is_success result) then (result, st)
    else
    let st := log_append measurement st in
    let '(result, measurement, st) :=
      collect_keys_measurement measurement (rd clock 3) st in
    if negb (is_success result) then (result, st)
    else
    let st := log_append measurement st in
    let '(result, measurement, st) :=
      collect_device_id_measurement measurement (rd clock 4) st in
    if negb (is_success result) then (result, st)
    else
    let st := log_append measurement st in
    (PQC_SUCCESS, st).

End Collectors.

(** [secure_memzero(&sk, sizeof(dilithium_secret_key_t))]: every field of
    the struct is cleared. *)
Definition clear_secret_key (sk : dilithium_secret_key_t)
  : dilithium_secret_key_t :=
  {| sk_rho := secure_memzero (sk_rho sk) (length (sk_rho sk));
     sk_key := secure_memzero (sk_key sk) (length (sk_key sk));
     sk_tr := secure_memzero (sk_tr sk) (length (sk_tr sk));
     sk_s1 := secure_memzero (sk_s1 sk) (length (sk_s1 sk));
     sk_s2 := secure_memzero (sk_s2 sk) (length (sk_s2 sk));
     sk_t0 := secure_memzero (sk_t0 sk) (length (sk_t0 sk)) |}.

(** [attestation_cleanup].  Its last call is spelled [tmp2_cleanup], the
    name tpm2_interface.h declares; the function tmp2_interface.c defines
    under the name [tpm2_cleanup] is the one meant. *)
Definition attestation_cleanup (st : engine_state) : engine_state :=
  if negb (g_attestation_initialized st) then st
  else
    let ctx := g_attestation_ctx st in
    let '(keypair, keypair_valid) :=
      if device_keypair_valid ctx
      then ({| kp_pk := kp_pk (device_keypair ctx);
               kp_sk := clear_secret_key (kp_sk (device_keypair ctx)) |},
            false)
      else (device_keypair ctx, device_keypair_valid ctx) in
    let '(values, valid) :=
      for_range 0 MAX_PCR_REGISTERS (fun i '(values, valid) =>
        (<[i := secure_memzero (pcr values i) 32]> values,
         <[i := false]> valid))
        (ctx_pcr_values ctx, pcr_valid ctx) in
    let log :=
      {| count := 0; log_capacity := 0;
         log_measurements :=
           replicate MAX_MEASUREMENT_LOG_ENTRIES zero_measurement |} in
    {| g_attestation_ctx :=
         {| config := config ctx; device_info := device_info ctx;
            device_keypair := keypair; device_keypair_valid := keypair_valid;
            ctx_pcr_values := values; pcr_valid := valid;
            measurement_log := log;
            last_attestation_time := last_attestation_time ctx |};
       g_attestation_initialized := false;
       tpm_state := tpm2_cleanup (tpm_state st) |}.

(** The shape the C types give the engine's state: a well-formed bank,
    eight flags each, and a cache of eight 32-byte registers. *)
Definition engine_wf (st : engine_state) : Prop :=
  tpm_wf (tpm_state st)
  /\ length (pcr_allocated (tpm_state st)) = MAX_PCR_REGISTERS
  /\ length (ctx_pcr_values (g_attestation_ctx st)) = MAX_PCR_REGISTERS
  /\ length (pcr_valid (g_attestation_ctx st)) = MAX_PCR_REGISTERS
  /\ Forall (fun v => length v = 32%nat)
       (ctx_pcr_values (g_attestation_ctx st)).

(** An engine in use: [attestation_init] has run and the bank it started
    is still up, with its eight registers allocated. *)
Definition engine_ready (st : engine_state) : Prop :=
  g_attestation_initialized st = true
  /\ initialized (tpm_state st) = true
  /\ forall i, (i < MAX_PCR_REGISTERS)%nat ->
       flag (pcr_allocated (tpm_state st)) i = true.

(** What one successful [extend_pcr] of register [i] changes between two
    states of the engine, and what it leaves alone (the measurement log
    apart). *)
Definition pcr_extended (i : nat) (st st' : engine_state) : Prop :=
  engine_ready st' /\ engine_wf st'
  /\ device_info (g_attestation_ctx st') = device_info (g_attestation_ctx st)
  /\ device_keypair (g_attestation_ctx st')
     = device_keypair (g_attestation_ctx st)
  /\ device_keypair_valid (g_attestation_ctx st')
     = device_keypair_valid (g_attestation_ctx st)
  /\ extend_count (tpm_state st')
     = <[i := u32 (rd (extend_count (tpm_state st)) i + 1)]>
         (extend_count (tpm_state st))
  /\ (forall j, j <> i ->
        pcr (pcr_values (tpm_state st')) j
        = pcr (pcr_values (tpm_state st)) j
        /\ pcr (ctx_pcr_values (g_attestation_ctx st')) j
           = pcr (ctx_pcr_values (g_attestation_ctx st)) j
        /\ flag (pcr_valid (g_attestation_ctx st')) j
           = flag (pcr_valid (g_attestation_ctx st)) j)
  /\ pcr (ctx_pcr_values (g_attestation_ctx st')) i
     = pcr (pcr_values (tpm_state st')) i
  /\ flag (pcr_valid (g_attestation_ctx st')) i = true.

(** [memset(report, 0, sizeof(attestation_report_t))]. *)
Definition zero_report : attestation_report_t :=
  {| device_id := replicate DEVICE_ID_LENGTH 0; timestamp := 0;
     report_version := 0; measurement_count := 0;
     report_pcr_values := replicate MAX_PCR_REGISTERS (replicate 32 0);
     measurements := replicate MAX_MEASUREMENTS_PER_REPORT zero_measurement;
     signature_length := 0;
     signature := replicate DILITHIUM_SIGNATUREBYTES 0 |}.

Record device_certificate_t : Type := {
  cert_public_key : dilithium_public_key_t;
  cert_device_info : device_info_t;
  certificate_version : Z;           (* uint32_t *)
  issued_timestamp : Z;              (* uint64_t *)
  expiry_timestamp : Z;              (* uint64_t *)
  algorithm_id : Z;                  (* pqc_algorithm_t *)
  ca_signature_length : Z;           (* uint32_t *)
  ca_signature : list Z              (* uint8_t [DILITHIUM_SIGNATUREBYTES] *)
}.

Section SignedStructs.

(** As for [attestation_verify_report], the bytes that are hashed are the
    image of the struct up to its signature field, which the C ABI fixes. *)
Variable report_signed_bytes : attestation_report_t -> list Z.
Variable certificate_signed_bytes : device_certificate_t -> list Z.

(** [attestation_generate_report]; [now] is what [time(NULL)] returns, and
    the result is [None] when the call has not returned after [fuel]
    turns of the signing loop.  [sig_len] is an uninitialised local. *)
Definition attestation_generate_report (fuel : nat)
  (report : option attestation_report_t) (now : Z) (st : engine_state)
  (tape : list Z)
  : option (pqc_result_t * option attestation_report_t * list Z) :=
  match report with
  | None => Some (PQC_ERROR_INVALID_PARAMETER, report, tape)
  | Some _ =>
    if negb (g_attestation_initialized st)
    then Some (PQC_ERROR_INVALID_PARAMETER, report, tape)
    else
      let ctx := g_attestation_ctx st in
      let rep := zero_report in
      let count := u32 (Z.of_nat (count (measurement_log ctx))) in
      let pcrs := for_range 0 MAX_PCR_REGISTERS (fun i pcrs =>
        if flag (pcr_valid ctx) i
        then <[i := memcpy_at (pcr pcrs i) 0 (pcr (ctx_pcr_values ctx) i)]>
               pcrs
        else pcrs) (report_pcr_values rep) in
      let measurements_to_copy :=
        if Z.of_nat MAX_MEASUREMENTS_PER_REPORT <? count
        then MAX_MEASUREMENTS_PER_REPORT else Z.to_nat count in
      let ms := for_range 0 measurements_to_copy (fun i ms =>
        <[i := default zero_measurement
                 (log_measurements (measurement_log ctx) !! i)]> ms)
        (measurements rep) in
      let rep :=
        {| device_id :=
             memcpy_at (device_id rep) 0
               (take DEVICE_ID_LENGTH (serial_number (device_info ctx)));
           timestamp := u64 now;
           report_version := ATTESTATION_REPORT_VERSION;
           measurement_count := count;
           report_pcr_values := pcrs; measurements := ms;
           signature_length := signature_length rep;
           signature := signature rep |} in
      let data := report_signed_bytes rep in
      let '(result, report_hash) :=
        calculate_sha256 (Some data) (length data) (Some (replicate 32 0)) in
      if negb (is_success result) then Some (result, Some rep, tape)
      else
        match dilithium_sign fuel (Some (signature rep)) (Some 0%nat)
                report_hash 32 (Some (kp_sk (device_keypair ctx))) tape with
        | None => None
        | Some (result, sg, sig_len, tape) =>
          let rep :=
            {| device_id := device_id rep; timestamp := timestamp rep;
               report_version := report_version rep;
               measurement_count := measurement_count rep;
               report_pcr_values := report_pcr_values rep;
               measurements := measurements rep;
               signature_length := signature_length rep;
               signature := default (signature rep) sg |} in
          if negb (is_success result) then Some (result, Some rep, tape)
          else
            Some (PQC_SUCCESS,
                  Some {| device_id := device_id rep;
                          timestamp := timestamp rep;
                          report_version := report_version rep;
                          measurement_count := measurement_count rep;
                          report_pcr_values := report_pcr_values rep;
                          measurements := measurements rep;
                          signature_length :=
                            u32 (Z.of_nat (default 0%nat sig_len));
                          signature := signature rep |},
                  tape)
        end
  end.

(** [attestation_get_device_certificate]: the certificate is signed with
    the device's own key. *)
Definition attestation_get_device_certificate (fuel : nat)
  (cert : option device_certificate_t) (now : Z) (st : engine_state)
  (tape : list Z)
  : option (pqc_result_t * option device_certificate_t * list Z) :=
  match cert with
  | None => Some (PQC_ERROR_INVALID_PARAMETER, cert, tape)
  | Some c =>
    if negb (g_attestation_initialized st)
    then Some (PQC_ERROR_INVALID_PARAMETER, cert, tape)
    else
      let ctx := g_attestation_ctx st in
      let c :=
        {| cert_public_key := kp_pk (device_keypair ctx);
           cert_device_info := device_info ctx;
           certificate_version := 1;
           issued_timestamp := u64 now;
           expiry_timestamp := u64 (u64 now + 365 * 24 * 60 * 60);
           algorithm_id := 6;
           ca_signature_length := ca_signature_length c;
           ca_signature := ca_signature c |} in
      let data := certificate_signed_bytes c in
      let '(result, cert_hash) :=
        calculate_sha256 (Some data) (length data) (Some (replicate 32 0)) in
      if negb (is_success result) then Some (result, Some c, tape)
      else
        match dilithium_sign fuel (Some (ca_signature c)) (Some 0%nat)
                cert_hash 32 (Some (kp_sk (device_keypair ctx))) tape with
        | None => None
        | Some (result, sg, sig_len, tape) =>
          let c :=
            {| cert_public_key := cert_public_key c;
               cert_device_info := cert_device_info c;
               certificate_version := certificate_version c;
               issued_timestamp := issued_timestamp c;
               expiry_timestamp := expiry_timestamp c;
               algorithm_id := algorithm_id c;
               ca_signature_length := ca_signature_length c;
               ca_signature := default (ca_signature c) sg |} in
          if negb (is_success result) then Some (result, Some c, tape)
          else
            Some (PQC_SUCCESS,
                  Some {| cert_public_key := cert_public_key c;
                          cert_device_info := cert_device_info c;
                          certificate_version := certificate_version c;
                          issued_timestamp := issued_timestamp c;
                          expiry_timestamp := expiry_timestamp c;
                          algorithm_id := algorithm_id c;
                          ca_signature_length :=
                            u32 (Z.of_nat (default 0%nat sig_len));
                          ca_signature := ca_signature c |},
                  tape)
        end
  end.

End SignedStructs.

End Attestation.

(** * Properties *)

(** ** Loops and machine arithmetic *)

Lemma for_range_inv {S : Type} (P : S -> Prop) (body : nat -> S -> S) :
  (forall i s, P s -> P (body i s)) ->
  forall count start s, P s -> P (for_range start count body s).
Proof.
  intros Hstep count. unfold for_range.
  induction count as [|n IH]; intros start s Hs; simpl; auto.
Qed.

Lemma for_range_ext {S : Type} (body body' : nat -> S -> S) :
  forall count start s,
    (forall i s', (start <= i < start + count)%nat -> body i s' = body' i s') ->
    for_range start count body s = for_range start count body' s.
Proof.
  unfold for_range.
  induction count as [|n IH]; intros start s Hext; simpl; [reflexivity|].
  rewrite Hext by lia. apply IH. intros i s' Hi. apply Hext. lia.
Qed.

Lemma u32_range (x : Z) : 0 <= u32 x < 4294967296.
Proof.
  unfold u32. change 4294967295 with (Z.ones 32).
  rewrite Z.land_ones by lia. apply Z.mod_pos_bound. reflexivity.
Qed.

Lemma u32_small (x : Z) : 0 <= x < 4294967296 -> u32 x = x.
Proof.
  intros Hx. unfold u32. change 4294967295 with (Z.ones 32).
  rewrite Z.land_ones by lia. apply Z.mod_small. exact Hx.
Qed.

Lemma u8_lor_255 (y : Z) : u8 (Z.lor 255 y) = 255.
Proof.
  unfold u8. apply Z.bits_inj'. intros n Hn.
  rewrite Z.land_spec, Z.lor_spec.
  destruct (Z.testbit 255 n) eqn:E; [reflexivity|].
  rewrite andb_false_r. reflexivity.
Qed.

Lemma memcpy_at_0_full (dst src : list Z) :
  length dst = length src -> memcpy_at dst 0 src = src.
Proof.
  intros Hlen. unfold memcpy_at. simpl.
  rewrite drop_ge by lia. apply app_nil_r.
Qed.

Lemma take_memcpy_at_0 (dst src : list Z) :
  take (length src) (memcpy_at dst 0 src) = src.
Proof.
  unfold memcpy_at. simpl. rewrite take_app_length. reflexivity.
Qed.

Lemma is_success_true (r : pqc_result_t) :
  is_success r = true -> r = PQC_SUCCESS.
Proof. destruct r; simpl; congruence. Qed.

Lemma is_success_false (r : pqc_result_t) :
  is_success r = false -> r <> PQC_SUCCESS.
Proof. destruct r; simpl; congruence. Qed.

(** ** The random source *)

Lemma pqc_randombytes_enough (buf tape : list Z) (n : nat) :
  n <> 0%nat -> length buf = n -> (n <= length tape)%nat ->
  pqc_randombytes (Some buf) n tape
  = (PQC_SUCCESS, Some (take n tape), drop n tape).
Proof.
  intros Hn Hbuf Htape. unfold pqc_randombytes.
  destruct (Nat.eqb_spec n 0); [contradiction|].
  assert (Hlen : length (take n tape) = n) by (rewrite length_take; lia).
  change (Datatypes.length (take n tape)) with (length (take n tape)).
  rewrite Hlen, Nat.eqb_refl. simpl.
  rewrite memcpy_at_0_full by congruence. reflexivity.
Qed.

(** ** The sponge of cryptoHash.c *)

Section Sponge.
Import CryptoHash.

Lemma keccak_update_loop_rate fuel :
  forall ctx input len,
    rate (keccak_update_loop fuel ctx input len) = rate ctx.
Proof.
  induction fuel as [|fuel IH]; intros ctx input len; simpl; [reflexivity|].
  destruct (0 <? len)%nat; [|reflexivity].
  rewrite IH. destruct (_ =? _)%nat; reflexivity.
Qed.

(** The fuel given to the absorbing loop is enough: one more turn changes
    nothing, so the loop has stopped by itself. *)
Lemma keccak_update_loop_fuel fuel :
  forall ctx input len,
    (pos ctx < rate ctx)%nat -> (len <= fuel)%nat ->
    keccak_update_loop (S fuel) ctx input len
    = keccak_update_loop fuel ctx input len.
Proof.
  induction fuel as [|fuel IH]; intros ctx input len Hpos Hlen.
  - assert (len = 0%nat) by lia. subst len. reflexivity.
  - change (keccak_update_loop (S (S fuel)) ctx input len)
      with (if (0 <? len)%nat then
              let chunk := if (rate ctx - pos ctx <? len)%nat
                           then (rate ctx - pos ctx)%nat else len in
              let st := for_range 0 chunk (fun i st =>
                xor_state_byte st (pos ctx + i) (rd input i)) (state ctx) in
              let pos' := (pos ctx + chunk)%nat in
              let ctx' :=
                if (pos' =? rate ctx)%nat
                then {| state := keccak_f1600 st; rate := rate ctx;
                        capacity := capacity ctx; pos := 0;
                        suffix := suffix ctx |}
                else {| state := st; rate := rate ctx;
                        capacity := capacity ctx; pos := pos';
                        suffix := suffix ctx |} in
              keccak_update_loop (S fuel) ctx' (drop chunk input)
                (len - chunk)
            else ctx).
    cbn [keccak_update_loop].
    destruct (Nat.ltb_spec 0 len) as [Hpos0|]; [|reflexivity].
    cbv zeta. apply IH.
    + destruct (Nat.ltb_spec (rate ctx - pos ctx) len);
        match goal with
        | |- context [(?a =? ?b)%nat] => destruct (Nat.eqb_spec a b)
        end; simpl; lia.
    + destruct (Nat.ltb_spec (rate ctx - pos ctx) len); lia.
Qed.

(** Absorbing reads only the first [len] bytes of its input. *)
Lemma keccak_update_loop_prefix fuel :
  forall ctx input input' len,
    take len input = take len input' ->
    keccak_update_loop fuel ctx input len
    = keccak_update_loop fuel ctx input' len.
Proof.
  induction fuel as [|fuel IH]; intros ctx input input' len Htake;
    cbn [keccak_update_loop]; [reflexivity|].
  destruct (0 <? len)%nat; [|reflexivity].
  cbv zeta.
  set (chunk := if (rate ctx - pos ctx <? len)%nat
                then (rate ctx - pos ctx)%nat else len).
  assert (Hchunk : (chunk <= len)%nat).
  { subst chunk. destruct (Nat.ltb_spec (rate ctx - pos ctx) len); lia. }
  assert (Hrd : forall i, (i < chunk)%nat -> rd input i = rd input' i).
  { intros i Hi. unfold rd.
    rewrite <- (lookup_take_lt input len i) by lia.
    rewrite <- (lookup_take_lt input' len i) by lia.
    rewrite Htake. reflexivity. }
  rewrite (for_range_ext _
    (fun i st => xor_state_byte st (pos ctx + i) (rd input' i))).
  2:{ intros i s' Hi. rewrite Hrd by lia. reflexivity. }
  apply IH.
  rewrite !take_drop_commute.
  replace (chunk + (len - chunk))%nat with len by lia.
  rewrite Htake. reflexivity.
Qed.

Lemma sha3_256_digest_prefix (input input' : list Z) (len : nat) :
  take len input = take len input' ->
  sha3_256_digest input len = sha3_256_digest input' len.
Proof.
  intros Htake. unfold sha3_256_digest, keccak_update.
  rewrite (keccak_update_loop_prefix len _ input input' len Htake).
  reflexivity.
Qed.

(** [sha3_256] always writes 32 bytes: the first 32 bytes of the state. *)
Lemma sha3_256_digest_length (input : list Z) (inlen : nat) :
  length (sha3_256_digest input inlen) = 32%nat.
Proof.
  unfold sha3_256_digest, keccak_final, keccak_update.
  rewrite keccak_update_loop_rate.
  cbn [rate keccak_init]. unfold KECCAK_RATE_SHA3_256.
  set (st := keccak_f1600 _). clearbody st.
  change (keccak_squeeze 32 st 136 (replicate 32 0) 0 32)
    with (memcpy_at (replicate 32 0) 0 (map (state_byte st) (seq 0 32))).
  rewrite memcpy_at_0_full.
  - rewrite length_map, length_seq. reflexivity.
  - rewrite length_map, length_seq, length_replicate. reflexivity.
Qed.

End Sponge.

(** ** kyber.c *)

Section KyberFacts.
Import CryptoHash Kyber.

Ltac len_side :=
  repeat first [rewrite length_replicate | rewrite length_drop
               | rewrite length_take];
  first [lia | discriminate | assumption].

Lemma insert_replicate_255 (n p : nat) (x : Z) :
  ((p < n)%nat -> x = 255) ->
  <[p := x]> (replicate n 255) = replicate n 255.
Proof.
  intros Hx. destruct (Nat.lt_ge_cases p n) as [Hlt|Hge].
  - rewrite Hx by exact Hlt. apply insert_replicate.
  - apply list_insert_ge. rewrite length_replicate. exact Hge.
Qed.

Lemma rd_replicate_255 (n p : nat) :
  (p < n)%nat -> rd (replicate n 255) p = 255.
Proof.
  intros Hlt. unfold rd. rewrite lookup_replicate_2 by exact Hlt.
  reflexivity.
Qed.

(** OR-ing a packed coefficient into bytes that are already 0xFF leaves
    them 0xFF. *)
Lemma pack_bits_ff (d idx : nat) (c : Z) (n : nat) :
  pack_bits d idx c (replicate n 255) = replicate n 255.
Proof.
  unfold pack_bits.
  rewrite insert_replicate_255.
  2:{ intros Hlt. rewrite rd_replicate_255 by exact Hlt. apply u8_lor_255. }
  destruct (8 <? idx * d mod 8 + d)%nat; [|reflexivity].
  apply insert_replicate_255.
  intros Hlt. rewrite rd_replicate_255 by exact Hlt. apply u8_lor_255.
Qed.

Lemma pack_ciphertext_ff (u : list (list Z)) (v : list Z) :
  pack_ciphertext ct_ff u v = ct_ff.
Proof.
  unfold pack_ciphertext, ct_ff. cbn [ct_u ct_v].
  match goal with
  | |- {| ct_u := ?a; ct_v := ?b |} = _ =>
    assert (Hu : a = replicate 1408 255);
      [|assert (Hv : b = replicate 160 255); [|rewrite Hu, Hv; reflexivity]]
  end.
  - apply (for_range_inv (fun b => b = replicate 1408 255)); [|reflexivity].
    intros i b Hb.
    apply (for_range_inv (fun b => b = replicate 1408 255)); [|exact Hb].
    intros j b' ->. apply pack_bits_ff.
  - apply (for_range_inv (fun b => b = replicate 160 255)); [|reflexivity].
    intros i b ->. apply pack_bits_ff.
Qed.

Lemma encaps_ct_ff (pk : kyber_public_key_t) (m : list Z) :
  encaps_ct ct_ff pk m = ct_ff.
Proof. unfold encaps_ct. apply pack_ciphertext_ff. Qed.

(** What [kyber_encapsulate] returns when the random source delivers the
    32 bytes of the message. *)
Lemma kyber_encapsulate_success (ct0 : kyber_ciphertext_t) (ss0 : list Z)
  (pk : kyber_public_key_t) (tape : list Z) :
  (32 <= length tape)%nat ->
  kyber_encapsulate (Some ct0) (Some ss0) (Some pk) tape
  = (PQC_SUCCESS, Some (encaps_ct ct0 pk (take 32 tape)),
     Some (memcpy_at ss0 0 (sha3_256_digest (take 32 tape) 32)),
     drop 32 tape).
Proof.
  intros Htape. unfold kyber_encapsulate.
  rewrite pqc_randombytes_enough
    by len_side.
  cbn [is_success negb default from_option id].
  unfold encaps_ct, encaps_uv.
  destruct (encrypt_uv pk (take 32 tape) _) as [u v].
  cbn [fst snd].
  rewrite (sha3_256_digest_prefix _ (take 32 tape) 32); [reflexivity|].
  assert (Hm : length (take 32 tape) = 32%nat) by (rewrite length_take; lia).
  match goal with
  | |- take 32 (memcpy_at ?X 0 ?m) = _ =>
    pose proof (take_memcpy_at_0 X m) as H; rewrite Hm in H; rewrite H
  end.
  rewrite take_take. reflexivity.
Qed.

Lemma kyber_encapsulate_rng_failure (ct0 : kyber_ciphertext_t)
  (ss0 : list Z) (pk : kyber_public_key_t) (tape : list Z) :
  (length tape < 32)%nat ->
  kyber_encapsulate (Some ct0) (Some ss0) (Some pk) tape
  = (PQC_ERROR_RANDOM_GENERATION, Some ct0, Some ss0, []).
Proof.
  intros Htape. unfold kyber_encapsulate, pqc_randombytes.
  change (32 =? 0)%nat with false. cbv iota.
  change (Datatypes.length (take 32 tape)) with (length (take 32 tape)).
  rewrite length_take.
  destruct (Nat.eqb_spec (32 `min` length tape) 32) as [Heq|Hne]; [lia|].
  cbn [negb is_success]. rewrite drop_ge by lia. reflexivity.
Qed.

(** What [kyber_keypair] returns when the random source delivers its 96
    bytes: the secret key embeds the public key, and [z] is the third
    draw. *)
Lemma kyber_keypair_success (pk0 : kyber_public_key_t)
  (sk0 : kyber_secret_key_t) (tape : list Z) :
  (96 <= length tape)%nat -> length (sk_z sk0) = 32%nat ->
  exists pk sk,
    kyber_keypair (Some pk0) (Some sk0) tape
    = (PQC_SUCCESS, Some pk, Some sk, drop 96 tape)
    /\ sk_pk sk = pk /\ sk_z sk = take 32 (drop 64 tape).
Proof.
  intros Htape Hz.
  assert (E1 : pqc_randombytes (Some (replicate 32 0)) 32 tape
               = (PQC_SUCCESS, Some (take 32 tape), drop 32 tape))
    by (apply pqc_randombytes_enough; len_side).
  assert (E2 : pqc_randombytes (Some (replicate 32 0)) 32 (drop 32 tape)
               = (PQC_SUCCESS, Some (take 32 (drop 32 tape)), drop 64 tape))
    by (rewrite pqc_randombytes_enough by len_side;
        rewrite drop_drop; reflexivity).
  assert (E3 : pqc_randombytes (Some (sk_z sk0)) 32 (drop 64 tape)
               = (PQC_SUCCESS, Some (take 32 (drop 64 tape)), drop 96 tape))
    by (rewrite pqc_randombytes_enough by len_side;
        rewrite drop_drop; reflexivity).
  unfold kyber_keypair.
  rewrite E1. cbn [is_success negb].
  rewrite E2. cbn [is_success negb default from_option id].
  rewrite E3.
  eexists _, _. split; [reflexivity|]. cbn [sk_pk sk_z default from_option id].
  split; reflexivity.
Qed.

(** What [kyber_decapsulate] returns: the key of the fresh encapsulation
    it runs when that reproduces [ct], and the rejection key otherwise.
    The message decoded from [ct] enters neither. *)
Lemma kyber_decapsulate_success (ss0 : list Z) (ct : kyber_ciphertext_t)
  (sk : kyber_secret_key_t) (ct_prime0 : kyber_ciphertext_t)
  (K0 tape : list Z) :
  (32 <= length tape)%nat -> length K0 = 32%nat ->
  kyber_decapsulate (Some ss0) (Some ct) (Some sk) ct_prime0 K0 tape
  = (PQC_SUCCESS,
     Some (memcpy_at ss0 0
       (if negb (secure_memcmp (Some (ct_bytes ct))
                   (Some (ct_bytes (encaps_ct ct_prime0 (sk_pk sk)
                                      (take 32 tape))))
                   KYBER_CIPHERTEXTBYTES =? 0)
        then reject_key ct sk
        else sha3_256_digest (take 32 tape) 32)),
     drop 32 tape).
Proof.
  intros Htape HK0. unfold kyber_decapsulate.
  rewrite kyber_encapsulate_success by exact Htape.
  cbn [option_map default from_option id].
  rewrite (memcpy_at_0_full K0 (sha3_256_digest (take 32 tape) 32))
    by (rewrite sha3_256_digest_length; exact HK0).
  unfold reject_key. cbv zeta. reflexivity.
Qed.

Lemma reject_key_eq (ct : kyber_ciphertext_t) (sk : kyber_secret_key_t) :
  length (sk_z sk) = 32%nat ->
  length (ct_bytes ct) = KYBER_CIPHERTEXTBYTES ->
  reject_key ct sk
  = sha3_256_digest (sk_z sk ++ ct_bytes ct) (32 + KYBER_CIPHERTEXTBYTES).
Proof.
  intros Hz Hct. unfold reject_key.
  apply sha3_256_digest_prefix.
  set (X := memcpy_at (memcpy_at (replicate 64 0) 0 _) 32 _).
  unfold memcpy_at at 1.
  assert (H32 : take 32 (memcpy_at X 0 (sk_z sk)) = sk_z sk).
  { rewrite <- Hz at 1. apply take_memcpy_at_0. }
  assert (Hlen : length (sk_z sk ++ ct_bytes ct)
                 = (32 + KYBER_CIPHERTEXTBYTES)%nat)
    by (rewrite length_app, Hz, Hct; reflexivity).
  rewrite H32, app_assoc.
  rewrite take_app_length' by (symmetry; exact Hlen).
  rewrite take_ge by (rewrite Hlen; apply Nat.le_refl).
  reflexivity.
Qed.

Lemma secure_memcmp_refl (a : list Z) (n : nat) :
  secure_memcmp (Some a) (Some a) n = 0.
Proof.
  unfold secure_memcmp.
  rewrite (for_range_inv (fun r => r = 0)
             (fun i result => u8 (Z.lor result (Z.lxor (rd a i) (rd a i)))));
    [reflexivity| |reflexivity].
  intros i s ->. rewrite Z.lxor_nilpotent. reflexivity.
Qed.

End KyberFacts.

Section KyberClaims.
Import CryptoHash Kyber.

(** The shared secret of a successful [kyber_encapsulate] into a 32-byte
    buffer. *)
Lemma kyber_encapsulate_returns (ct0 : kyber_ciphertext_t)
  (ss0 : list Z) (pk : kyber_public_key_t) (tape : list Z) :
  (32 <= length tape)%nat -> length ss0 = 32%nat ->
  kyber_encapsulate (Some ct0) (Some ss0) (Some pk) tape
  = (PQC_SUCCESS, Some (encaps_ct ct0 pk (take 32 tape)),
     Some (sha3_256_digest (take 32 tape) 32), drop 32 tape).
Proof.
  intros Htape Hss. rewrite kyber_encapsulate_success by exact Htape.
  rewrite memcpy_at_0_full by (rewrite sha3_256_digest_length; exact Hss).
  reflexivity.
Qed.

(** C5 (amended): when the random source delivers the 32-byte message [m],
    [kyber_encapsulate] succeeds and the shared secret it writes is what
    the library's [sha3_256] writes for [m] alone: neither the public key
    nor the ciphertext enters it.  Which hash function [sha3_256] computes
    is left open here (that is C3).  The 64 bytes [sha3_512] writes into
    the 32-byte [coins] are taken not to disturb [m]. *)
Theorem kyber_encapsulate_shared_secret (ct0 : kyber_ciphertext_t)
  (ss0 : list Z) (pk : kyber_public_key_t) (tape : list Z) :
  (32 <= length tape)%nat -> length ss0 = 32%nat ->
  exists ss,
    CryptoHash.sha3_256 (Some ss0) (Some (take 32 tape)) 32
    = (PQC_SUCCESS, Some ss)
    /\ kyber_encapsulate (Some ct0) (Some ss0) (Some pk) tape
       = (PQC_SUCCESS, Some (encaps_ct ct0 pk (take 32 tape)), Some ss,
          drop 32 tape).
Proof.
  intros Htape Hss.
  exists (sha3_256_digest (take 32 tape) 32). split.
  - unfold CryptoHash.sha3_256, sha3_256_enhanced.
    rewrite memcpy_at_0_full by (rewrite sha3_256_digest_length; exact Hss).
    reflexivity.
  - exact (kyber_encapsulate_returns ct0 ss0 pk tape Htape Hss).
Qed.

Lemma kyber_encapsulate_shared_secret_witness :
  exists ss,
    CryptoHash.sha3_256 (Some (replicate 32 0))
      (Some (take 32 (replicate 32 7))) 32
    = (PQC_SUCCESS, Some ss)
    /\ kyber_encapsulate (Some ct_zero) (Some (replicate 32 0))
         (Some pk_zero) (replicate 32 7)
       = (PQC_SUCCESS,
          Some (encaps_ct ct_zero pk_zero (take 32 (replicate 32 7))),
          Some ss, drop 32 (replicate 32 7)).
Proof.
  apply kyber_encapsulate_shared_secret.
  - rewrite length_replicate. apply le_n.
  - apply length_replicate.
Defined.

(** C5 (counterexample): for the all-zero public key, the message of 32
    zero bytes and a ciphertext buffer holding 0xFF bytes, the shared
    secret is not SHA3-256(Kbar || SHA3-256(ct)) with Kbar the first half
    of SHA3-512(m || SHA3-256(pk)), the hashes being those of FIPS 202.
    Nor is it that value computed with the [sha3_256] and [sha3_512] of
    the code: the derivation is absent, whatever the hash. *)
Lemma kyber_encapsulate_secret_is_not_kdf_of_ct :
  exists ct ss tape',
    kyber_encapsulate (Some ct_ff) (Some (replicate 32 0)) (Some pk_zero)
      (replicate 32 0)
    = (PQC_SUCCESS, Some ct, Some ss, tape')
    /\ ss <> sha3_256_fips202
               (take 32 (sha3_512_fips202
                           (replicate 32 0
                            ++ sha3_256_fips202 (pk_bytes pk_zero)))
                ++ sha3_256_fips202 (ct_bytes ct))
    /\ ss <> sha3_256_digest
               (take 32 (sha3_512_digest
                           (replicate 32 0
                            ++ sha3_256_digest (pk_bytes pk_zero)
                                 KYBER_PUBLICKEYBYTES) 64)
                ++ sha3_256_digest (ct_bytes ct) KYBER_CIPHERTEXTBYTES) 64.
Proof.
  eexists _, _, _. split.
  - apply kyber_encapsulate_returns.
    + rewrite length_replicate. lia.
    + apply length_replicate.
  - rewrite encaps_ct_ff. split; vm_compute; discriminate.
Qed.


(** C2: a run that violates the round trip.  The key pair is generated
    from the tape bytes 0..95, the encapsulation draws bytes 96..127 and
    writes its ciphertext into a buffer holding 0xFF bytes, and the
    decapsulation draws bytes 128..159.  All three calls succeed, and the
    shared secret of [kyber_decapsulate] differs from the one of
    [kyber_encapsulate]. *)
Theorem kyber_roundtrip_mismatch :
  exists pk sk ct ss t1 t2 ss' t3,
    kyber_keypair (Some pk_zero) (Some sk_zero) (map Z.of_nat (seq 0 160))
    = (PQC_SUCCESS, Some pk, Some sk, t1)
    /\ kyber_encapsulate (Some ct_ff) (Some (replicate 32 0)) (Some pk) t1
       = (PQC_SUCCESS, Some ct, Some ss, t2)
    /\ kyber_decapsulate (Some (replicate 32 0)) (Some ct) (Some sk)
         ct_zero (replicate 32 0) t2
       = (PQC_SUCCESS, Some ss', t3)
    /\ ss' <> ss.
Proof.
  set (tape := map Z.of_nat (seq 0 160)).
  assert (Hlen : length tape = 160%nat)
    by (unfold tape; rewrite length_map, length_seq; reflexivity).
  destruct (kyber_keypair_success pk_zero sk_zero tape)
    as (pk & sk & Ekp & Hpk & Hz);
    [rewrite Hlen; lia | apply length_replicate |].
  exists pk, sk. eexists _, _, _, _, _, _.
  split; [exact Ekp|].
  split; [apply kyber_encapsulate_returns;
          [rewrite length_drop, Hlen; lia | apply length_replicate]|].
  split; [apply kyber_decapsulate_success;
          [rewrite !length_drop, Hlen; lia | apply length_replicate]|].
  rewrite encaps_ct_ff.
  assert (Hzlen : length (sk_z sk) = 32%nat)
    by (rewrite Hz, length_take, length_drop, Hlen; reflexivity).
  rewrite reject_key_eq by (exact Hzlen || reflexivity).
  rewrite memcpy_at_0_full
    by (destruct (negb _); rewrite sha3_256_digest_length, length_replicate;
        reflexivity).
  rewrite Hz.
  destruct (negb _).
  - vm_compute. discriminate.
  - vm_compute. discriminate.
Qed.

(** C6: for every secret key, decapsulating the ciphertext whose bytes are
    all 0xFF gives different shared secrets on two runs that differ only
    in what the random source delivers (the local [ct_prime] holding 0xFF
    bytes on entry in both). *)
Theorem kyber_decapsulate_depends_on_random_source
  (sk : kyber_secret_key_t) :
  exists ss_a ss_b,
    kyber_decapsulate (Some (replicate 32 0)) (Some ct_ff) (Some sk)
      ct_ff (replicate 32 0) (replicate 32 0)
    = (PQC_SUCCESS, Some ss_a, [])
    /\ kyber_decapsulate (Some (replicate 32 0)) (Some ct_ff) (Some sk)
         ct_ff (replicate 32 0) (replicate 32 1)
       = (PQC_SUCCESS, Some ss_b, [])
    /\ ss_a <> ss_b.
Proof.
  eexists _, _.
  split; [apply kyber_decapsulate_success;
          [rewrite length_replicate; lia | apply length_replicate]|].
  split; [apply kyber_decapsulate_success;
          [rewrite length_replicate; lia | apply length_replicate]|].
  rewrite !encaps_ct_ff, secure_memcmp_refl.
  change (negb (0 =? 0)) with false. cbv iota.
  rewrite !memcpy_at_0_full
    by (rewrite sha3_256_digest_length, length_replicate; reflexivity).
  vm_compute. discriminate.
Qed.

(** In the luckiest run the random source of the decapsulation replays the
    message of the encapsulation and [ct_prime] starts like the sender's
    buffer: the fresh ciphertext then equals [ct] and the fresh secret
    SHA3-256(m) is returned. *)
Lemma kyber_decapsulate_replay (ss0 : list Z) (sk : kyber_secret_key_t)
  (ct0 : kyber_ciphertext_t) (K0 m rest : list Z) :
  length m = 32%nat -> length K0 = 32%nat -> length ss0 = 32%nat ->
  kyber_decapsulate (Some ss0) (Some (encaps_ct ct0 (sk_pk sk) m)) (Some sk)
    ct0 K0 (m ++ rest)
  = (PQC_SUCCESS, Some (sha3_256_digest m 32), rest).
Proof.
  intros Hm HK0 Hss.
  rewrite kyber_decapsulate_success
    by (try rewrite length_app; first [lia | assumption]).
  rewrite take_app_length' by (symmetry; exact Hm).
  rewrite drop_app_length' by (symmetry; exact Hm).
  rewrite secure_memcmp_refl.
  change (negb (0 =? 0)) with false. cbv iota.
  rewrite memcpy_at_0_full by (rewrite sha3_256_digest_length; exact Hss).
  reflexivity.
Qed.

End KyberClaims.

(** ** cryptoHash.c and pqc_common.c: the SHA3-256 test vector *)

(** C3: on the input "abc" neither definition of [sha3_256] writes the
    digest 3a985da7...; the sponge of cryptoHash.c writes 35466680...,
    the placeholder of pqc_common.c writes the input padded with zeros,
    and the self-test of cryptoHash.c reports an internal error. *)
Theorem sha3_256_abc_digest :
  CryptoHash.sha3_256 (Some (replicate 32 0)) (Some [97; 98; 99]) 3
  = (PQC_SUCCESS,
     Some [0x35; 0x46; 0x66; 0x80; 0x32; 0xae; 0x0f; 0xda;
           0xc6; 0xf4; 0x9f; 0xd5; 0x71; 0x15; 0x26; 0xb7;
           0xc4; 0xf5; 0xb4; 0x4c; 0x36; 0xfd; 0xde; 0x16;
           0x76; 0xa6; 0x46; 0xa1; 0xe7; 0x2d; 0x63; 0x42])
  /\ PqcCommon.sha3_256 (Some (replicate 32 0)) (Some [97; 98; 99]) 3
     = (PQC_SUCCESS, Some ([97; 98; 99] ++ replicate 29 0))
  /\ CryptoHash.sha3_256 (Some (replicate 32 0)) (Some [97; 98; 99]) 3
     <> (PQC_SUCCESS, Some CryptoHash.expected_sha3_256)
  /\ PqcCommon.sha3_256 (Some (replicate 32 0)) (Some [97; 98; 99]) 3
     <> (PQC_SUCCESS, Some CryptoHash.expected_sha3_256)
  /\ CryptoHash.hash_self_test_sha3 = PQC_ERROR_INTERNAL.
Proof.
  assert (E : CryptoHash.sha3_256 (Some (replicate 32 0))
                (Some [97; 98; 99]) 3
              = (PQC_SUCCESS,
                 Some [0x35; 0x46; 0x66; 0x80; 0x32; 0xae; 0x0f; 0xda;
                       0xc6; 0xf4; 0x9f; 0xd5; 0x71; 0x15; 0x26; 0xb7;
                       0xc4; 0xf5; 0xb4; 0x4c; 0x36; 0xfd; 0xde; 0x16;
                       0x76; 0xa6; 0x46; 0xa1; 0xe7; 0x2d; 0x63; 0x42]))
    by (vm_compute; reflexivity).
  split; [exact E|].
  split; [reflexivity|].
  split; [rewrite E; discriminate|].
  split; [discriminate|].
  unfold CryptoHash.hash_self_test_sha3. rewrite E. reflexivity.
Qed.

(** The digest of cryptoHash.c for "abc" is the first 32 bytes of the
    permuted padded block, and the same bytes taken after the permutation
    of FIPS 202 are the expected vector: the sponge around
    [keccak_f1600] is the standard one, the permutation is not. *)
Lemma sha3_256_abc_with_fips202_round :
  CryptoHash.sha3_256_digest [97; 98; 99] 3
  = map (CryptoHash.state_byte
           (CryptoHash.keccak_f1600
              (CryptoHash.padded_block [97; 98; 99] 3 136 0x06))) (seq 0 32)
  /\ map (CryptoHash.state_byte
            (CryptoHash.keccak_f1600_fips202
               (CryptoHash.padded_block [97; 98; 99] 3 136 0x06))) (seq 0 32)
     = CryptoHash.expected_sha3_256.
Proof. split; vm_compute; reflexivity. Qed.

(** ** dilithium.c: the signing loop *)

Section DilithiumClaims.
Import CryptoHash Dilithium.

(** Every uint32_t passes one of the two range tests of the signing loop:
    below [GAMMA1 - BETA] it is at most the unsigned value of
    [-(GAMMA1 - BETA)]. *)
Lemma z_range_test (zj : Z) :
  0 <= zj < 4294967296 ->
  (DILITHIUM_GAMMA1 - DILITHIUM_BETA <=? zj)
  || (zj <=? u32 (- (DILITHIUM_GAMMA1 - DILITHIUM_BETA))) = true.
Proof.
  intros Hz.
  change (DILITHIUM_GAMMA1 - DILITHIUM_BETA) with 524092.
  change (u32 (Z.opp 524092)) with 4294443204.
  apply orb_true_iff.
  destruct (Z.leb_spec 524092 zj); [left; reflexivity | right].
  apply Z.leb_le. lia.
Qed.

Lemma z_row_loop_rejects (n j : nat) (y_i cs1 z_i : list Z) :
  (0 < n)%nat -> snd (z_row_loop n j y_i cs1 z_i) = false.
Proof.
  destruct n as [|n]; [lia|]. intros _.
  cbn [z_row_loop]. rewrite z_range_test by apply u32_range. reflexivity.
Qed.

Lemma z_loop_rejects (n i : nat) (c : list Z) (s1 y z : list (list Z)) :
  (0 < n)%nat -> snd (z_loop n i c s1 y z) = false.
Proof.
  destruct n as [|n]; [lia|]. intros _.
  cbn [z_loop].
  match goal with
  | |- context [z_row_loop DILITHIUM_N ?j ?a ?b ?d] =>
    pose proof (z_row_loop_rejects DILITHIUM_N j a b d) as H;
    destruct (z_row_loop DILITHIUM_N j a b d) as [z_i valid]
  end.
  simpl in H. rewrite H by (unfold DILITHIUM_N; lia). reflexivity.
Qed.

(** Every turn of the signing loop ends in [nonce++; continue]. *)
Lemma sign_attempt_restarts (signature : list Z)
  (A : list (list (list Z))) (s1 s2 t0 : list (list Z))
  (mu rhoprime : list Z) (nonce : Z) :
  sign_attempt signature A s1 s2 t0 mu rhoprime nonce = None.
Proof.
  unfold sign_attempt.
  destruct (for_range 0 DILITHIUM_K _ _) as [w1 w0].
  match goal with
  | |- context [z_loop DILITHIUM_L ?i ?c ?s ?y ?z] =>
    pose proof (z_loop_rejects DILITHIUM_L i c s y z) as H;
    destruct (z_loop DILITHIUM_L i c s y z) as [zz valid]
  end.
  simpl in H. rewrite H by (unfold DILITHIUM_L; lia). reflexivity.
Qed.

Lemma sign_loop_diverges (fuel : nat) (signature : list Z)
  (A : list (list (list Z))) (s1 s2 t0 : list (list Z))
  (mu rhoprime : list Z) :
  forall nonce, sign_loop fuel signature A s1 s2 t0 mu rhoprime nonce = None.
Proof.
  induction fuel as [|fuel IH]; intros nonce; cbn [sign_loop]; [reflexivity|].
  rewrite sign_attempt_restarts. apply IH.
Qed.

(** [make_hint] has the same comparison against a negative bound: it
    returns 1 for every uint32_t. *)
Lemma make_hint_always_one (a0 a1 : Z) :
  0 <= a0 < 4294967296 -> make_hint a0 a1 = 1.
Proof.
  intros Ha. unfold make_hint.
  change DILITHIUM_GAMMA2 with 261888.
  change (u32 (Z.opp 261888)) with 4294705408.
  destruct (Z.ltb_spec 261888 a0); [reflexivity|].
  destruct (Z.ltb_spec a0 4294705408); [reflexivity|lia].
Qed.

(** C1: with valid pointers and a random source that delivers the 64
    bytes of [rhoprime], [dilithium_sign] does not return, whatever the
    secret key and the message: after any number of turns its signing
    loop is still running.  No signature is produced for
    [dilithium_verify] to accept. *)
Theorem dilithium_sign_never_returns (fuel : nat) (sig0 : list Z)
  (siglen0 : nat) (msg : list Z) (msglen : nat)
  (sk : dilithium_secret_key_t) (tape : list Z) :
  (64 <= length tape)%nat ->
  dilithium_sign fuel (Some sig0) (Some siglen0) (Some msg) msglen (Some sk)
    tape = None.
Proof.
  intros Htape. unfold dilithium_sign.
  rewrite pqc_randombytes_enough
    by (rewrite ?length_replicate; first [lia | discriminate]).
  cbn [is_success negb].
  rewrite sign_loop_diverges. reflexivity.
Qed.

Lemma dilithium_sign_never_returns_witness :
  dilithium_sign 1000 (Some (replicate DILITHIUM_SIGNATUREBYTES 0)) (Some 0%nat)
    (Some [116; 101; 115; 116]) 4
    (Some {| sk_rho := replicate 32 0; sk_key := replicate 32 0;
             sk_tr := replicate 64 0;
             sk_s1 := replicate (DILITHIUM_L * DILITHIUM_N) 0;
             sk_s2 := replicate (DILITHIUM_K * DILITHIUM_N) 0;
             sk_t0 := replicate (DILITHIUM_K * DILITHIUM_N) 0 |})
    (replicate 64 0) = None.
Proof.
  apply dilithium_sign_never_returns.
  rewrite length_replicate. apply le_n.
Defined.

End DilithiumClaims.

(** ** tmp2_interface.c and the engine's extend_pcr *)

Section PcrClaims.
Import CryptoHash Tpm2 Attestation.

Lemma pcr_insert_eq (values : list (list Z)) (i : nat) (v : list Z) :
  (i < length values)%nat -> pcr (<[i := v]> values) i = v.
Proof.
  intros Hi. unfold pcr. rewrite list_lookup_insert_eq by exact Hi.
  reflexivity.
Qed.

Lemma pcr_insert_ne (values : list (list Z)) (i j : nat) (v : list Z) :
  i <> j -> pcr (<[i := v]> values) j = pcr values j.
Proof.
  intros Hne. unfold pcr. rewrite list_lookup_insert_ne by exact Hne.
  reflexivity.
Qed.

Lemma rd_insert_eq (l : list Z) (i : nat) (v : Z) :
  (i < length l)%nat -> rd (<[i := v]> l) i = v.
Proof.
  intros Hi. unfold rd. rewrite list_lookup_insert_eq by exact Hi.
  reflexivity.
Qed.

Lemma rd_insert_ne (l : list Z) (i j : nat) (v : Z) :
  i <> j -> rd (<[i := v]> l) j = rd l j.
Proof.
  intros Hne. unfold rd. rewrite list_lookup_insert_ne by exact Hne.
  reflexivity.
Qed.

Lemma pcr_length (st : tpm_state_t) (i : nat) :
  tpm_wf st -> (i < MAX_PCR_REGISTERS)%nat ->
  length (pcr (pcr_values st) i) = 32%nat.
Proof.
  intros (Hlen & _ & Hall) Hi. unfold pcr.
  destruct (lookup_lt_is_Some_2 (pcr_values st) i) as [v Hv]; [lia|].
  rewrite Hv. simpl.
  rewrite Forall_lookup in Hall. exact (Hall i v Hv).
Qed.

(** The 64 bytes [tmp2_extend_pcr] hashes are the register followed by
    the measurement. *)
Lemma extend_data_eq (cur m : list Z) :
  length cur = 32%nat -> length m = 32%nat ->
  memcpy_at (memcpy_at (replicate 64 0) 0 cur) 32 (take 32 m) = cur ++ m.
Proof.
  intros Hcur Hm.
  assert (Hin : memcpy_at (replicate 64 0) 0 cur = cur ++ replicate 32 0).
  { unfold memcpy_at. rewrite Hcur. reflexivity. }
  rewrite Hin. unfold memcpy_at.
  rewrite (take_ge m) by lia.
  rewrite take_app_length' by (symmetry; exact Hcur).
  rewrite drop_ge by (rewrite Hm, length_app, Hcur, length_replicate; lia).
  rewrite app_nil_r. reflexivity.
Qed.

(** What a call with valid arguments does on an initialised bank. *)
Lemma tmp2_extend_pcr_initialized (i : nat) (m : list Z) (st : tpm_state_t) :
  initialized st = true -> (i < MAX_PCR_REGISTERS)%nat ->
  flag (pcr_allocated st) i = true ->
  tmp2_extend_pcr i (Some m) st
  = (PQC_SUCCESS,
     {| initialized := true;
        pcr_values :=
          <[i := memcpy_at (pcr (pcr_values st) i) 0
                   (sha3_256_digest
                      (memcpy_at
                         (memcpy_at (replicate 64 0) 0 (pcr (pcr_values st) i))
                         32 (take 32 m)) 64)]> (pcr_values st);
        pcr_allocated := pcr_allocated st;
        extend_count :=
          <[i := u32 (rd (extend_count st) i + 1)]> (extend_count st) |}).
Proof.
  intros Hinit Hi Halloc. unfold tmp2_extend_pcr.
  rewrite Hinit, Halloc. cbn [negb].
  destruct (Nat.leb_spec MAX_PCR_REGISTERS i) as [Hge|_]; [lia|].
  reflexivity.
Qed.

Lemma tmp2_extend_pcr_success_inv (i : nat) (m : option (list Z))
  (st st' : tpm_state_t) :
  tmp2_extend_pcr i m st = (PQC_SUCCESS, st') ->
  initialized st = true /\ (i < MAX_PCR_REGISTERS)%nat
  /\ flag (pcr_allocated st) i = true /\ exists m0, m = Some m0.
Proof.
  unfold tmp2_extend_pcr.
  destruct (initialized st); cbn [negb]; [|discriminate].
  destruct (Nat.leb_spec MAX_PCR_REGISTERS i); [discriminate|].
  destruct (flag (pcr_allocated st) i); cbn [negb]; [|discriminate].
  destruct m as [m0|]; [|discriminate].
  intros _. repeat split; [assumption | exists m0; reflexivity].
Qed.

(** C4 (amended): on a bank of eight 32-byte registers, a successful
    [tmp2_extend_pcr i m] with [i < 8] and a 32-byte [m] leaves in
    register [i] what the library's [sha3_256] writes there for the 64
    bytes (previous value || m), adds 1 to counter [i] as a uint32_t (so
    2^32 - 1 wraps to 0), and changes no other register, counter or flag.
    Which hash function [sha3_256] computes is left open here (that is
    C3).  With [i >= 8] the call fails and changes nothing; the error is
    invalid-parameter when the bank is initialised and hardware-failure
    when it is not.  The engine's [extend_pcr] rejects [i >= 8] with
    invalid-parameter before it touches the bank. *)
Theorem pcr_extend_semantics :
  (forall (i : nat) (m : list Z) (st st' : tpm_state_t),
      tpm_wf st -> (i < MAX_PCR_REGISTERS)%nat -> length m = 32%nat ->
      tmp2_extend_pcr i (Some m) st = (PQC_SUCCESS, st') ->
      CryptoHash.sha3_256 (Some (pcr (pcr_values st) i))
        (Some (pcr (pcr_values st) i ++ m)) 64
      = (PQC_SUCCESS, Some (pcr (pcr_values st') i))
      /\ rd (extend_count st') i = u32 (rd (extend_count st) i + 1)
      /\ (0 <= rd (extend_count st) i < 4294967295 ->
          rd (extend_count st') i = rd (extend_count st) i + 1)
      /\ (forall j, j <> i ->
            pcr (pcr_values st') j = pcr (pcr_values st) j
            /\ rd (extend_count st') j = rd (extend_count st) j)
      /\ initialized st' = initialized st
      /\ pcr_allocated st' = pcr_allocated st)
  /\ (forall (i : nat) (m : option (list Z)) (st : tpm_state_t),
        (MAX_PCR_REGISTERS <= i)%nat ->
        tmp2_extend_pcr i m st
        = (if initialized st then PQC_ERROR_INVALID_PARAMETER
           else PQC_ERROR_HARDWARE_FAILURE, st))
  /\ (forall (i : nat) (m : list Z) (st : engine_state),
        (MAX_PCR_REGISTERS <= i)%nat ->
        extend_pcr i m st = (PQC_ERROR_INVALID_PARAMETER, st)).
Proof.
  split; [|split].
  - intros i m st st' Hwf Hi Hm Hext.
    destruct (tmp2_extend_pcr_success_inv _ _ _ _ Hext)
      as (Hinit & _ & Halloc & _).
    rewrite tmp2_extend_pcr_initialized in Hext by assumption.
    injection Hext as <-. cbn [pcr_values extend_count initialized
                                pcr_allocated].
    pose proof Hwf as (Hlen & Hcnt & _).
    pose proof (pcr_length st i Hwf Hi) as Hcur.
    split; [|split; [|split; [|split; [|split]]]].
    + rewrite pcr_insert_eq by lia.
      rewrite extend_data_eq by assumption. reflexivity.
    + apply rd_insert_eq. lia.
    + intros Hc. rewrite rd_insert_eq by lia. apply u32_small. lia.
    + intros j Hj. split.
      * apply pcr_insert_ne. congruence.
      * apply rd_insert_ne. congruence.
    + symmetry. exact Hinit.
    + reflexivity.
  - intros i m st Hi. unfold tmp2_extend_pcr.
    destruct (initialized st); cbn [negb]; [|reflexivity].
    destruct (Nat.leb_spec MAX_PCR_REGISTERS i) as [_|Hlt]; [reflexivity|lia].
  - intros i m st Hi. unfold extend_pcr.
    destruct (Nat.leb_spec MAX_PCR_REGISTERS i) as [_|Hlt]; [reflexivity|lia].
Qed.

(** A bank in use: initialised, all registers allocated and zero. *)
Lemma tpm_ready_wf (counts : list Z) :
  length counts = MAX_PCR_REGISTERS ->
  tpm_wf {| initialized := true;
            pcr_values := replicate MAX_PCR_REGISTERS (replicate 32 0);
            pcr_allocated := replicate MAX_PCR_REGISTERS true;
            extend_count := counts |}.
Proof.
  intros Hc. repeat split; try assumption.
  apply Forall_replicate. reflexivity.
Qed.

Lemma pcr_extend_semantics_witness :
  let st := {| initialized := true;
               pcr_values := replicate MAX_PCR_REGISTERS (replicate 32 0);
               pcr_allocated := replicate MAX_PCR_REGISTERS true;
               extend_count := replicate MAX_PCR_REGISTERS 0 |} in
  let st' := snd (tmp2_extend_pcr 3 (Some (replicate 32 170)) st) in
  (CryptoHash.sha3_256 (Some (pcr (pcr_values st) 3))
     (Some (pcr (pcr_values st) 3 ++ replicate 32 170)) 64
   = (PQC_SUCCESS, Some (pcr (pcr_values st') 3))
   /\ rd (extend_count st') 3 = 1)
  /\ tmp2_extend_pcr 8 (Some (replicate 32 170)) st
     = (PQC_ERROR_INVALID_PARAMETER, st)
  /\ extend_pcr 8 (replicate 32 170) engine_state_zero
     = (PQC_ERROR_INVALID_PARAMETER, engine_state_zero).
Proof.
  intros st st'.
  destruct pcr_extend_semantics as (Hext & Hbad & Heng).
  split; [|split].
  - destruct (Hext 3%nat (replicate 32 170) st st') as (Hv & _ & Hc & _).
    + apply tpm_ready_wf. reflexivity.
    + unfold MAX_PCR_REGISTERS. lia.
    + apply length_replicate.
    + subst st'.
      rewrite tmp2_extend_pcr_initialized
        by first [reflexivity | unfold MAX_PCR_REGISTERS; lia].
      reflexivity.
    + split; [exact Hv|]. rewrite Hc; [reflexivity|]. cbn. lia.
  - apply (Hbad 8%nat). apply le_n.
  - apply (Heng 8%nat). apply le_n.
Defined.

(** C4 (counterexample): before [tpm2_init], [tmp2_extend_pcr] with index
    8 fails with hardware-failure, not with invalid-parameter. *)
Lemma tmp2_extend_pcr_uninitialized_error :
  tmp2_extend_pcr 8 (Some (replicate 32 0)) tpm_state_zero
  = (PQC_ERROR_HARDWARE_FAILURE, tpm_state_zero)
  /\ PQC_ERROR_HARDWARE_FAILURE <> PQC_ERROR_INVALID_PARAMETER.
Proof. split; [reflexivity | discriminate]. Qed.

(** The register after one extend of the zero register with 32 bytes 0xAA
    is 959b216a..., where SHA3-256 of FIPS 202 gives b21255bc... for the
    same 64 bytes: the difference is the one of C3. *)
Lemma tmp2_extend_pcr_digest_is_not_fips202 :
  let st := {| initialized := true;
               pcr_values := replicate MAX_PCR_REGISTERS (replicate 32 0);
               pcr_allocated := replicate MAX_PCR_REGISTERS true;
               extend_count := replicate MAX_PCR_REGISTERS 0 |} in
  pcr (pcr_values (snd (tmp2_extend_pcr 3 (Some (replicate 32 170)) st))) 3
  = [0x95; 0x9b; 0x21; 0x6a; 0xa1; 0xe1; 0xf4; 0x2d;
     0x59; 0xd7; 0xd9; 0x7a; 0x42; 0x8c; 0xc3; 0x5b;
     0x7e; 0x09; 0xc9; 0x60; 0x9d; 0x53; 0xa7; 0x85;
     0xa8; 0xc9; 0xf6; 0x68; 0x8c; 0x1a; 0x0c; 0x7b]
  /\ sha3_256_fips202 (replicate 32 0 ++ replicate 32 170)
     = [0xb2; 0x12; 0x55; 0xbc; 0x6a; 0x33; 0x92; 0x26;
        0x21; 0x5b; 0xf2; 0x2f; 0x23; 0x80; 0xc5; 0x01;
        0x93; 0x7f; 0xfa; 0x61; 0x0e; 0x6b; 0x98; 0xf0;
        0x0f; 0x28; 0xdf; 0xe8; 0x4e; 0x85; 0xc3; 0x0c].
Proof. intros st. split; vm_compute; reflexivity. Qed.

(** A counter at 2^32 - 1 wraps to 0 on the next successful extend. *)
Lemma tmp2_extend_pcr_counter_wraps :
  let st := {| initialized := true;
               pcr_values := replicate MAX_PCR_REGISTERS (replicate 32 0);
               pcr_allocated := replicate MAX_PCR_REGISTERS true;
               extend_count := replicate MAX_PCR_REGISTERS 4294967295 |} in
  fst (tmp2_extend_pcr 0 (Some (replicate 32 0)) st) = PQC_SUCCESS
  /\ rd (extend_count (snd (tmp2_extend_pcr 0 (Some (replicate 32 0)) st))) 0
     = 0.
Proof.
  intros st. subst st.
  rewrite tmp2_extend_pcr_initialized
    by first [reflexivity | unfold MAX_PCR_REGISTERS; lia].
  split; reflexivity.
Qed.

End PcrClaims.

(** ** attestation_engine.c *)

Section AttestationClaims.
Import CryptoHash Dilithium Tpm2 Attestation.

(** The engine's [extend_pcr] succeeds only by one successful extend of
    the bank. *)
Lemma extend_pcr_success_inv (i : nat) (m : list Z) (st st' : engine_state) :
  extend_pcr i m st = (PQC_SUCCESS, st') ->
  tmp2_extend_pcr i (Some m) (tpm_state st) = (PQC_SUCCESS, tpm_state st').
Proof.
  unfold extend_pcr.
  destruct (MAX_PCR_REGISTERS <=? i)%nat; [discriminate|].
  destruct (tpm2_read_pcr i _ (tpm_state st)) as [r cur].
  destruct (is_success r) eqn:Er; cbn [negb].
  2:{ intros H. injection H as Hr _. subst r. discriminate. }
  cbn [calculate_sha256 CryptoHash.sha3_256 sha3_256_enhanced is_success negb].
  destruct (tmp2_extend_pcr i (Some m) (tpm_state st)) as [r2 tpm].
  destruct (is_success r2) eqn:Er2; cbn [negb].
  2:{ intros H. injection H as Hr _. subst r2. discriminate. }
  intros H. injection H as <-. cbn [set_ctx set_tpm tpm_state].
  rewrite (is_success_true r2 Er2). reflexivity.
Qed.

(** C9: once the engine is initialised, [attestation_init] with any
    configuration returns success and changes nothing: the context (with
    its configuration and device key pair), the TPM state and the random
    source are left as they were. *)
Theorem attestation_init_idempotent (cfg : attestation_config_t)
  (st : engine_state) (tape : list Z) :
  g_attestation_initialized st = true ->
  attestation_init (Some cfg) st tape = (PQC_SUCCESS, st, tape).
Proof.
  intros Hinit. unfold attestation_init. rewrite Hinit. reflexivity.
Qed.

Lemma attestation_init_idempotent_witness :
  let st := {| g_attestation_ctx := zero_context;
               g_attestation_initialized := true;
               tpm_state := tpm_state_zero |} in
  attestation_init (Some (config zero_context)) st [1; 2; 3]
  = (PQC_SUCCESS, st, [1; 2; 3]).
Proof.
  intros st. apply attestation_init_idempotent. reflexivity.
Defined.

(** A successful [attestation_init] leaves the engine initialised, so the
    call after it is one of those of [attestation_init_idempotent]. *)
Lemma attestation_init_sets_initialized (cfg : option attestation_config_t)
  (st st' : engine_state) (tape tape' : list Z) :
  attestation_init cfg st tape = (PQC_SUCCESS, st', tape') ->
  g_attestation_initialized st' = true.
Proof.
  unfold attestation_init.
  destruct cfg as [cfg|]; [|discriminate].
  destruct (g_attestation_initialized st) eqn:Hinit.
  { intros H. injection H as <- _. exact Hinit. }
  destruct (tpm2_init (tpm_state st)) as [r tpm].
  destruct (is_success r) eqn:Er; cbn [negb].
  2:{ intros H. injection H as Hr _ _. subst r. discriminate. }
  destruct (for_range 0 MAX_PCR_REGISTERS _ _) as [values valid].
  cbn [device_keypair_valid].
  destruct (negb (device_keypair_valid (g_attestation_ctx (set_tpm st tpm)))).
  - destruct (dilithium_keypair _ _ tape) as [[[r2 pk] sk] tape2].
    destruct (is_success r2) eqn:Er2; cbn [negb].
    2:{ intros H. injection H as Hr _ _. subst r2. discriminate. }
    intros H. injection H as <- _. reflexivity.
  - cbn [is_success negb]. intros H. injection H as <- _. reflexivity.
Qed.

(** C7: the timestamp test at a clock 2^32 seconds after the report's
    timestamp.  The difference is far above 300, yet the test of the code
    does not fire, because the cast to int keeps the low 32 bits of the
    difference only. *)
Theorem timestamp_check_truncates :
  timestamp_skew_exceeded (1700000000 + 4294967296) 1700000000 = false
  /\ 300 < Z.abs ((1700000000 + 4294967296) - 1700000000)
  /\ timestamp_skew_exceeded 1700000000 (1700000000 + 4294967296) = false.
Proof. repeat split. Qed.

Lemma s32_small (d : Z) : -2147483648 <= d < 2147483648 -> s32 d = d.
Proof.
  intros Hd. unfold s32, u32. change 4294967295 with (Z.ones 32).
  rewrite Z.land_ones by lia. change (2 ^ 32) with 4294967296.
  destruct (Z.lt_ge_cases d 0) as [Hneg|Hnn].
  - assert (Hm : d mod 4294967296 = d + 4294967296).
    { rewrite <- (Z.mod_add d 1 4294967296) by lia.
      apply Z.mod_small. lia. }
    rewrite Hm. destruct (Z.ltb_spec (d + 4294967296) 2147483648); lia.
  - rewrite Z.mod_small by lia.
    destruct (Z.ltb_spec d 2147483648); lia.
Qed.

Lemma s32_u64 (d : Z) : s32 (u64 d) = s32 d.
Proof.
  unfold s32.
  assert (Hu : u32 (u64 d) = u32 d).
  { unfold u32, u64. change 18446744073709551615 with (Z.ones 64).
    change 4294967295 with (Z.ones 32).
    rewrite !Z.land_ones by lia.
    apply Z.mod_mod_divide. exists 4294967296. reflexivity. }
  rewrite Hu. reflexivity.
Qed.

(** Within 2^31 seconds the test of the code is the one of the claim. *)
Lemma timestamp_check_near (now ts : Z) :
  Z.abs (now - ts) < 2147483648 ->
  timestamp_skew_exceeded now ts = (300 <? Z.abs (now - ts)).
Proof.
  intros Hd. unfold timestamp_skew_exceeded, c_abs.
  rewrite s32_u64, s32_small by lia.
  destruct (Z.ltb_spec (now - ts) 0) as [Hneg|Hnn].
  - rewrite s32_small by lia. rewrite Z.abs_neq by lia. reflexivity.
  - rewrite Z.abs_eq by lia. reflexivity.
Qed.

Section Verify.
Variable report_signed_bytes : attestation_report_t -> list Z.

(** The digest [attestation_verify_report] passes to
    [dilithium_verify]. *)
Lemma report_hash_eq (rep : attestation_report_t) :
  calculate_sha256 (Some (report_signed_bytes rep))
    (length (report_signed_bytes rep)) (Some (replicate 32 0))
  = (PQC_SUCCESS,
     Some (sha3_256_digest (report_signed_bytes rep)
             (length (report_signed_bytes rep)))).
Proof.
  unfold calculate_sha256, CryptoHash.sha3_256, sha3_256_enhanced.
  rewrite memcpy_at_0_full
    by (rewrite sha3_256_digest_length, length_replicate; reflexivity).
  reflexivity.
Qed.

(** C8: with non-NULL arguments, a report whose version is not 1 or whose
    measurement count exceeds 32 makes [attestation_verify_report] return
    success and write a result with [is_valid = false] and the error code
    invalid-format, whatever its signature; a report that passes the
    format check and whose signature [dilithium_verify] does not accept
    makes it return success and write a result with [is_valid = false]
    and the error code signature-invalid.  In both cases every other
    field of the result is zero, whatever the result buffer held. *)
Theorem attestation_verify_report_rejections (rep : attestation_report_t)
  (pk : dilithium_public_key_t) (res0 : attestation_verification_result_t)
  (now : Z) :
  (report_version rep <> ATTESTATION_REPORT_VERSION
   \/ Z.of_nat MAX_MEASUREMENTS_PER_REPORT < measurement_count rep ->
   attestation_verify_report report_signed_bytes (Some rep) (Some pk)
     (Some res0) now
   = (PQC_SUCCESS,
      Some {| is_valid := false;
              error_code := ATTESTATION_ERROR_INVALID_FORMAT;
              trust_level := TRUST_LEVEL_UNKNOWN;
              result_device_id := replicate DEVICE_ID_LENGTH 0;
              result_timestamp := 0; policies_met := 0;
              error_description := replicate 128 0 |}))
  /\ (report_version rep = ATTESTATION_REPORT_VERSION ->
      measurement_count rep <= Z.of_nat MAX_MEASUREMENTS_PER_REPORT ->
      dilithium_verify (Some (signature rep))
        (Z.to_nat (signature_length rep))
        (Some (sha3_256_digest (report_signed_bytes rep)
                 (length (report_signed_bytes rep)))) 32 (Some pk)
      <> PQC_SUCCESS ->
      attestation_verify_report report_signed_bytes (Some rep) (Some pk)
        (Some res0) now
      = (PQC_SUCCESS,
         Some {| is_valid := false;
                 error_code := ATTESTATION_ERROR_SIGNATURE_INVALID;
                 trust_level := TRUST_LEVEL_UNKNOWN;
                 result_device_id := replicate DEVICE_ID_LENGTH 0;
                 result_timestamp := 0; policies_met := 0;
                 error_description := replicate 128 0 |})).
Proof.
  split.
  - intros Hbad. unfold attestation_verify_report.
    destruct (Z.eqb_spec (report_version rep) ATTESTATION_REPORT_VERSION)
      as [Hv|Hv]; cbn [negb]; [|reflexivity].
    destruct Hbad as [Hbad|Hbad]; [contradiction|].
    destruct (Z.ltb_spec (Z.of_nat MAX_MEASUREMENTS_PER_REPORT)
                (measurement_count rep)); [reflexivity|lia].
  - intros Hv Hc Hsig. unfold attestation_verify_report.
    destruct (Z.eqb_spec (report_version rep) ATTESTATION_REPORT_VERSION)
      as [_|Hne]; cbn [negb]; [|contradiction].
    destruct (Z.ltb_spec (Z.of_nat MAX_MEASUREMENTS_PER_REPORT)
                (measurement_count rep)); [lia|].
    rewrite report_hash_eq. cbn [is_success negb].
    destruct (dilithium_verify _ _ _ _ _) eqn:Ever;
      cbn [is_success negb]; try reflexivity.
    contradiction.
Qed.

(** Past the format and signature checks, the result is the
    timestamp-invalid one exactly when the test of the code fires. *)
Lemma attestation_verify_report_timestamp (rep : attestation_report_t)
  (pk : dilithium_public_key_t) (res0 : attestation_verification_result_t)
  (now : Z) :
  report_version rep = ATTESTATION_REPORT_VERSION ->
  measurement_count rep <= Z.of_nat MAX_MEASUREMENTS_PER_REPORT ->
  dilithium_verify (Some (signature rep)) (Z.to_nat (signature_length rep))
    (Some (sha3_256_digest (report_signed_bytes rep)
             (length (report_signed_bytes rep)))) 32 (Some pk)
  = PQC_SUCCESS ->
  (timestamp_skew_exceeded now (timestamp rep) = true ->
   attestation_verify_report report_signed_bytes (Some rep) (Some pk)
     (Some res0) now
   = (PQC_SUCCESS,
      Some (with_error zero_result ATTESTATION_ERROR_TIMESTAMP_INVALID)))
  /\ (timestamp_skew_exceeded now (timestamp rep) = false ->
      exists res,
        attestation_verify_report report_signed_bytes (Some rep) (Some pk)
          (Some res0) now = (PQC_SUCCESS, Some res)
        /\ error_code res <> ATTESTATION_ERROR_TIMESTAMP_INVALID).
Proof.
  intros Hv Hc Hsig.
  unfold attestation_verify_report.
  destruct (Z.eqb_spec (report_version rep) ATTESTATION_REPORT_VERSION)
    as [_|Hne]; cbn [negb]; [|contradiction].
  destruct (Z.ltb_spec (Z.of_nat MAX_MEASUREMENTS_PER_REPORT)
              (measurement_count rep)); [lia|].
  rewrite report_hash_eq. cbn [is_success negb].
  rewrite Hsig. cbn [is_success negb].
  split; intros Hts; rewrite Hts; [reflexivity|].
  destruct (check_measurements _ _ _) as [e|] eqn:Echk.
  - eexists. split; [reflexivity|]. cbn [with_error error_code].
    clear -Echk. revert Echk.
    generalize 0%nat as i. generalize (Z.to_nat (measurement_count rep)) as n.
    induction n as [|n IH]; intros i; cbn [check_measurements];
      [discriminate|].
    destruct (_ <=? pcr_index _); [intros H; injection H as <-; discriminate|].
    destruct (_ <=? measurement_type _);
      [intros H; injection H as <-; discriminate|].
    apply IH.
  - eexists. split; [reflexivity|]. cbn [error_code]. discriminate.
Qed.

End Verify.

Lemma attestation_verify_report_rejections_witness :
  let img := fun rep : attestation_report_t => device_id rep in
  let rep2 := {| device_id := replicate 32 0; timestamp := 0;
                 report_version := 2; measurement_count := 0;
                 report_pcr_values := replicate 8 (replicate 32 0);
                 measurements := replicate 32 zero_measurement;
                 signature_length := 0;
                 signature := replicate DILITHIUM_SIGNATUREBYTES 0 |} in
  let rep1 := {| device_id := replicate 32 0; timestamp := 0;
                 report_version := 1; measurement_count := 0;
                 report_pcr_values := replicate 8 (replicate 32 0);
                 measurements := replicate 32 zero_measurement;
                 signature_length := 0;
                 signature := replicate DILITHIUM_SIGNATUREBYTES 0 |} in
  let pk := kp_pk (device_keypair zero_context) in
  attestation_verify_report img (Some rep2) (Some pk) (Some zero_result) 0
  = (PQC_SUCCESS,
     Some {| is_valid := false;
             error_code := ATTESTATION_ERROR_INVALID_FORMAT;
             trust_level := TRUST_LEVEL_UNKNOWN;
             result_device_id := replicate DEVICE_ID_LENGTH 0;
             result_timestamp := 0; policies_met := 0;
             error_description := replicate 128 0 |})
  /\ attestation_verify_report img (Some rep1) (Some pk) (Some zero_result) 0
     = (PQC_SUCCESS,
        Some {| is_valid := false;
                error_code := ATTESTATION_ERROR_SIGNATURE_INVALID;
                trust_level := TRUST_LEVEL_UNKNOWN;
                result_device_id := replicate DEVICE_ID_LENGTH 0;
                result_timestamp := 0; policies_met := 0;
                error_description := replicate 128 0 |}).
Proof.
  intros img rep2 rep1 pk. split.
  - apply (proj1 (attestation_verify_report_rejections img rep2 pk
                    zero_result 0)).
    left. discriminate.
  - apply (proj2 (attestation_verify_report_rejections img rep1 pk
                    zero_result 0)).
    + reflexivity.
    + discriminate.
    + discriminate.
Defined.

End AttestationClaims.

(** ** NULL arguments *)

Section NullArguments.
Import Kyber Dilithium.

(** C10: [kyber_keypair], [kyber_decapsulate], [dilithium_sign] and both
    definitions of [sha3_256] return the invalid-parameter code when a
    pointer argument is NULL, and leave their output buffers and the
    random source as they were. *)
Theorem null_arguments_rejected :
  (forall pk sk tape,
      pk = None \/ sk = None ->
      kyber_keypair pk sk tape = (PQC_ERROR_INVALID_PARAMETER, pk, sk, tape))
  /\ (forall ss ct sk ct_prime0 K0 tape,
        ss = None \/ ct = None \/ sk = None ->
        kyber_decapsulate ss ct sk ct_prime0 K0 tape
        = (PQC_ERROR_INVALID_PARAMETER, ss, tape))
  /\ (forall fuel sig siglen msg msglen sk tape,
        sig = None \/ siglen = None \/ msg = None \/ sk = None ->
        dilithium_sign fuel sig siglen msg msglen sk tape
        = Some (PQC_ERROR_INVALID_PARAMETER, sig, siglen, tape))
  /\ (forall hash input inlen,
        hash = None \/ input = None ->
        CryptoHash.sha3_256 hash input inlen
        = (PQC_ERROR_INVALID_PARAMETER, hash)
        /\ PqcCommon.sha3_256 hash input inlen
           = (PQC_ERROR_INVALID_PARAMETER, hash)).
Proof.
  split; [|split; [|split]].
  - intros pk sk tape [-> | ->]; [reflexivity|].
    destruct pk; reflexivity.
  - intros ss ct sk ct_prime0 K0 tape [-> | [-> | ->]]; [reflexivity| |].
    + destruct ss; reflexivity.
    + destruct ss, ct; reflexivity.
  - intros fuel sig siglen msg msglen sk tape [-> | [-> | [-> | ->]]];
      [reflexivity| | |].
    + destruct sig; reflexivity.
    + destruct sig, siglen; reflexivity.
    + destruct sig, siglen, msg; reflexivity.
  - intros hash input inlen [-> | ->]; [split; reflexivity|].
    destruct hash; split; reflexivity.
Qed.

Lemma null_arguments_rejected_witness :
  kyber_keypair None (Some sk_zero) [1; 2; 3]
  = (PQC_ERROR_INVALID_PARAMETER, None, Some sk_zero, [1; 2; 3])
  /\ kyber_decapsulate (Some (replicate 32 9)) None (Some sk_zero)
       ct_zero (replicate 32 0) [1; 2; 3]
     = (PQC_ERROR_INVALID_PARAMETER, Some (replicate 32 9), [1; 2; 3])
  /\ dilithium_sign 5 (Some (replicate 8 9)) (Some 0%nat) None 0
       None [1; 2; 3]
     = Some (PQC_ERROR_INVALID_PARAMETER, Some (replicate 8 9), Some 0%nat,
             [1; 2; 3])
  /\ CryptoHash.sha3_256 (Some (replicate 32 9)) None 3
     = (PQC_ERROR_INVALID_PARAMETER, Some (replicate 32 9)).
Proof.
  destruct null_arguments_rejected as (Hk & Hd & Hs & Hh).
  split; [|split; [|split]].
  - apply Hk. left. reflexivity.
  - apply Hd. right. left. reflexivity.
  - apply Hs. right. right. left. reflexivity.
  - apply (Hh (Some (replicate 32 9)) None 3%nat). right. reflexivity.
Defined.

End NullArguments.

(** * Further properties of the code *)

(** ** cryptoHash.c: the sponge and the hash utilities built on it *)

Section SpongeComposition.
Import CryptoHash.

Lemma for_range_app {T : Type} (body : nat -> T -> T) (n m start : nat)
  (s : T) :
  for_range start (n + m) body s
  = for_range (start + n) m body (for_range start n body s).
Proof.
  unfold for_range. rewrite seq_app, fold_left_app. reflexivity.
Qed.

Lemma fold_left_fmap {A B T : Type} (f : T -> B -> T) (g : A -> B)
  (l : list A) :
  forall s, fold_left f (map g l) s = fold_left (fun acc x => f acc (g x)) l s.
Proof. induction l as [|x l IH]; intros s; simpl; [reflexivity|apply IH]. Qed.

Lemma for_range_shift {T : Type} (body : nat -> T -> T) (count start : nat)
  (s : T) :
  for_range start count body s
  = for_range 0 count (fun i => body (start + i)%nat) s.
Proof.
  unfold for_range.
  replace (seq start count) with (map (Nat.add start) (seq 0 count)).
  - apply fold_left_fmap.
  - rewrite <- (Nat.add_0_r start) at 2. apply fmap_add_seq.
Qed.

Lemma rd_app_l (a b : list Z) (i : nat) :
  (i < length a)%nat -> rd (a ++ b) i = rd a i.
Proof. intros Hi. unfold rd. rewrite lookup_app_l by exact Hi. reflexivity. Qed.

Lemma rd_app_r (a b : list Z) (i : nat) :
  rd (a ++ b) (length a + i) = rd b i.
Proof.
  unfold rd. rewrite lookup_app_r by lia.
  replace (length a + i - length a)%nat with i by lia. reflexivity.
Qed.

Lemma keccak_update_loop_zero fuel ctx input :
  keccak_update_loop fuel ctx input 0 = ctx.
Proof. destruct fuel; reflexivity. Qed.

Lemma keccak_update_loop_enough (extra : nat) :
  forall ctx input len,
    (pos ctx < rate ctx)%nat ->
    keccak_update_loop (len + extra) ctx input len
    = keccak_update_loop len ctx input len.
Proof.
  induction extra as [|k IH]; intros ctx input len Hpos.
  - rewrite Nat.add_0_r. reflexivity.
  - replace (len + S k)%nat with (S (len + k)) by lia.
    rewrite keccak_update_loop_fuel by (first [exact Hpos | lia]).
    apply IH. exact Hpos.
Qed.

Lemma keccak_update_loop_fuel_ge (fuel : nat) ctx input len :
  (pos ctx < rate ctx)%nat -> (len <= fuel)%nat ->
  keccak_update_loop fuel ctx input len
  = keccak_update_loop len ctx input len.
Proof.
  intros Hpos Hle.
  replace fuel with (len + (fuel - len))%nat by lia.
  apply keccak_update_loop_enough. exact Hpos.
Qed.

(** One turn of the absorbing loop, as an equation. *)
Lemma keccak_update_loop_step fuel ctx input len :
  (0 < len)%nat ->
  keccak_update_loop (S fuel) ctx input len
  = let chunk := Nat.min (rate ctx - pos ctx) len in
    let st := for_range 0 chunk (fun i st =>
      xor_state_byte st (pos ctx + i) (rd input i)) (state ctx) in
    let ctx' :=
      if (pos ctx + chunk =? rate ctx)%nat
      then {| state := keccak_f1600 st; rate := rate ctx;
              capacity := capacity ctx; pos := 0; suffix := suffix ctx |}
      else {| state := st; rate := rate ctx; capacity := capacity ctx;
              pos := (pos ctx + chunk)%nat; suffix := suffix ctx |} in
    keccak_update_loop fuel ctx' (drop chunk input) (len - chunk).
Proof.
  intros Hlen. cbn [keccak_update_loop].
  destruct (Nat.ltb_spec 0 len) as [_|]; [|lia].
  cbv zeta.
  assert (E : (if (rate ctx - pos ctx <? len)%nat
               then (rate ctx - pos ctx)%nat else len)
              = Nat.min (rate ctx - pos ctx) len).
  { destruct (Nat.ltb_spec (rate ctx - pos ctx) len); lia. }
  rewrite E. reflexivity.
Qed.

Lemma keccak_update_loop_app (n : nat) :
  forall ctx a b lb,
    length a = n -> (pos ctx < rate ctx)%nat ->
    keccak_update_loop (n + lb) ctx (a ++ b) (n + lb)
    = keccak_update_loop lb (keccak_update_loop n ctx a n) b lb.
Proof.
  induction n as [n IH] using lt_wf_ind.
  intros ctx a b lb Ha Hpos.
  destruct n as [|n'].
  { destruct a; [|discriminate]. reflexivity. }
  change (S n' + lb)%nat with (S (n' + lb)).
  rewrite !keccak_update_loop_step by lia.
  cbv zeta.
  change (S (n' + lb)) with (S n' + lb)%nat.
  remember (S n') as n eqn:En.
  assert (Hn : (0 < n)%nat) by lia.
  destruct (Nat.lt_ge_cases (rate ctx - pos ctx) n) as [Hov|Hfit].
  - (* the first block is filled by bytes of [a] alone *)
    set (r := (rate ctx - pos ctx)%nat) in *.
    replace (Nat.min r (n + lb)) with r by lia.
    replace (Nat.min r n) with r by lia.
    replace (pos ctx + r =? rate ctx)%nat with true
      by (symmetry; apply Nat.eqb_eq; subst r; lia).
    rewrite (for_range_ext _
      (fun i st => xor_state_byte st (pos ctx + i) (rd a i)) r 0).
    2:{ intros i s' Hi. rewrite rd_app_l by lia. reflexivity. }
    set (ctx' := {| state := _ |}).
    rewrite drop_app_le by lia.
    replace (n + lb - r)%nat with ((n - r) + lb)%nat by lia.
    rewrite (keccak_update_loop_fuel_ge (n' + lb)) by (simpl; lia).
    rewrite (keccak_update_loop_fuel_ge n' ctx' (drop r a) (n - r))
      by (simpl; lia).
    apply IH; [lia| rewrite length_drop; lia | simpl; lia].
  - (* [a] fits into the current block *)
    replace (Nat.min (rate ctx - pos ctx) n) with n by lia.
    replace (n - n)%nat with 0%nat by lia.
    rewrite keccak_update_loop_zero.
    destruct lb as [|lb'].
    + rewrite !Nat.add_0_r.
      replace (Nat.min (rate ctx - pos ctx) n) with n by lia.
      replace (n - n)%nat with 0%nat by lia.
      rewrite keccak_update_loop_zero.
      rewrite (for_range_ext _
        (fun i st => xor_state_byte st (pos ctx + i) (rd a i)) n 0).
      2:{ intros i s' Hi. rewrite rd_app_l by lia. reflexivity. }
      reflexivity.
    + remember (S lb') as lb eqn:Elb.
      destruct (Nat.eqb_spec (pos ctx + n) (rate ctx)) as [Hfull|Hpart].
      * replace (Nat.min (rate ctx - pos ctx) (n + lb)) with n by lia.
        replace (pos ctx + n =? rate ctx)%nat with true
          by (symmetry; apply Nat.eqb_eq; exact Hfull).
        rewrite (for_range_ext _
          (fun i st => xor_state_byte st (pos ctx + i) (rd a i)) n 0).
        2:{ intros i s' Hi. rewrite rd_app_l by lia. reflexivity. }
        rewrite <- Ha at 2. rewrite drop_app_length.
        replace (n + lb - n)%nat with lb by lia.
        apply keccak_update_loop_fuel_ge; simpl; lia.
      * set (cb := Nat.min (rate ctx - (pos ctx + n)) lb).
        replace (Nat.min (rate ctx - pos ctx) (n + lb)) with (n + cb)%nat
          by (subst cb; lia).
        rewrite Elb at 3. rewrite keccak_update_loop_step by lia.
        cbv zeta. cbn [rate pos state capacity suffix].
        fold cb.
        rewrite for_range_app. simpl (0 + n)%nat.
        rewrite (for_range_ext _
          (fun i st => xor_state_byte st (pos ctx + i) (rd a i)) n 0).
        2:{ intros i s' Hi. rewrite rd_app_l by lia. reflexivity. }
        rewrite (for_range_shift _ cb n).
        rewrite (for_range_ext
          (fun i st => xor_state_byte st (pos ctx + (n + i))
                         (rd (a ++ b) (n + i)))
          (fun i st => xor_state_byte st (pos ctx + n + i) (rd b i)) cb 0).
        2:{ intros i s' Hi. rewrite <- Ha at 2. rewrite rd_app_r.
            rewrite Nat.add_assoc. reflexivity. }
        rewrite Nat.add_assoc.
        replace (drop (n + cb) (a ++ b)) with (drop cb b).
        2:{ rewrite <- Ha. rewrite drop_app_add'; [reflexivity|reflexivity]. }
        replace (n + lb - (n + cb))%nat with (lb - cb)%nat by lia.
        set (ctx'' := if (pos ctx + n + cb =? rate ctx)%nat then _ else _).
        assert (Hpos'' : (pos ctx'' < rate ctx'')%nat).
        { subst ctx''.
          destruct (Nat.eqb_spec (pos ctx + n + cb) (rate ctx)); simpl;
            subst cb; lia. }
        rewrite (keccak_update_loop_fuel_ge (n' + lb)) by (subst cb; lia).
        rewrite (keccak_update_loop_fuel_ge lb') by (subst cb; lia).
        reflexivity.
Qed.

Lemma keccak_update_app (ctx : keccak_state_t) (a b : list Z) (lb : nat) :
  (pos ctx < rate ctx)%nat ->
  keccak_update (keccak_update ctx a (length a)) b lb
  = keccak_update ctx (a ++ b) (length a + lb).
Proof.
  intros Hpos. unfold keccak_update. symmetry.
  apply keccak_update_loop_app; [reflexivity|exact Hpos].
Qed.

End SpongeComposition.

Section HashUtilities.
Import CryptoHash.

Lemma keccak_init_pos (r : nat) (sfx : Z) :
  (0 < r)%nat -> (pos (keccak_init r sfx) < rate (keccak_init r sfx))%nat.
Proof. intros Hr. exact Hr. Qed.

(** secure_hash_with_salt: with a salt of at least 16 bytes the call
    returns and writes what [sha3_256] of the same file returns and writes
    for the salt followed by the input; nothing separates the two. *)
Theorem secure_hash_with_salt_concatenates (h inp salt : list Z)
  (inlen : nat) :
  (16 <= length salt)%nat ->
  secure_hash_with_salt (Some h) (Some inp) inlen (Some salt) (length salt)
  = sha3_256 (Some h) (Some (salt ++ inp)) (length salt + inlen).
Proof.
  intros Hsalt. unfold secure_hash_with_salt, sha3_256, sha3_256_enhanced.
  destruct (Nat.ltb_spec (length salt) 16) as [Hlt|_]; [lia|].
  unfold salted_digest, sha3_256_digest.
  rewrite keccak_update_app
    by (apply keccak_init_pos; unfold KECCAK_RATE_SHA3_256; lia).
  reflexivity.
Qed.

Lemma secure_hash_with_salt_concatenates_witness :
  (16 <= length (replicate 16 7))%nat
  /\ secure_hash_with_salt (Some (replicate 32 0)) (Some [1; 2; 3]) 3
       (Some (replicate 16 7)) (length (replicate 16 7))
     = sha3_256 (Some (replicate 32 0)) (Some (replicate 16 7 ++ [1; 2; 3]))
         (length (replicate 16 7) + 3).
Proof.
  split; [simpl; lia|].
  apply (secure_hash_with_salt_concatenates (replicate 32 0) [1; 2; 3]
           (replicate 16 7) 3).
  simpl; lia.
Defined.

(** shake256_enhanced: the customisation string is absorbed right after the
    input, so the output is the SHAKE256 of their concatenation. *)
Theorem shake256_customisation_is_appended (out inp custom : list Z)
  (outlen : nat) :
  shake256 (Some out) outlen (Some inp) (length inp)
    (Some custom) (length custom)
  = shake256 (Some out) outlen (Some (inp ++ custom))
      (length inp + length custom) None 0.
Proof.
  unfold shake256, shake256_enhanced.
  destruct ((outlen =? 0) || (65536 <? outlen))%nat; [reflexivity|].
  unfold shake256_output.
  destruct custom as [|c custom].
  - simpl. rewrite app_nil_r, Nat.add_0_r. reflexivity.
  - change (0 <? length (c :: custom))%nat with true. cbv iota.
    rewrite keccak_update_app
      by (apply keccak_init_pos; unfold KECCAK_RATE_SHAKE256; lia).
    reflexivity.
Qed.

Lemma keccak_update_optional (ctx : keccak_state_t) (a : list Z) :
  (if (0 <? length a)%nat then keccak_update ctx a (length a) else ctx)
  = keccak_update ctx a (length a).
Proof. destruct a; reflexivity. Qed.

(** key_derivation_function: salt, key and info are absorbed back to back,
    so the derived bytes are SHAKE256 of [salt ++ key ++ info]; only the
    concatenation matters, not where one field ends and the next begins. *)
Theorem key_derivation_function_concatenates (out key info salt : list Z)
  (outlen : nat) :
  (outlen <= 8192)%nat ->
  key_derivation_function (Some out) outlen (Some key) (length key)
    (Some info) (length info) (Some salt) (length salt)
  = shake256 (Some out) outlen (Some (salt ++ key ++ info))
      (length (salt ++ key ++ info)) None 0.
Proof.
  intros Hout.
  unfold key_derivation_function, shake256, shake256_enhanced.
  destruct (Nat.eqb_spec outlen 0) as [H0|H0]; [reflexivity|].
  destruct (Nat.ltb_spec 8192 outlen) as [Hbig|_];
    [apply Nat.lt_nge in Hbig; contradiction|].
  destruct (Nat.ltb_spec 65536 outlen) as [Hbig|_].
  { exfalso. apply Nat.lt_nge in Hbig. apply Hbig.
    apply (Nat.le_trans _ 8192); [exact Hout|]. apply Nat.leb_le. vm_compute. reflexivity. }
  cbn [orb].
  unfold kdf_output, shake256_output.
  rewrite !keccak_update_optional.
  assert (H0pos : (pos (keccak_init KECCAK_RATE_SHAKE256 31)
                   < rate (keccak_init KECCAK_RATE_SHAKE256 31))%nat)
    by (apply keccak_init_pos; unfold KECCAK_RATE_SHAKE256; lia).
  rewrite (keccak_update_app _ salt key) by exact H0pos.
  rewrite <- length_app.
  rewrite (keccak_update_app _ (salt ++ key) info) by exact H0pos.
  rewrite <- length_app, <- app_assoc. reflexivity.
Qed.

Lemma key_derivation_function_concatenates_witness :
  (32 <= 8192)%nat
  /\ key_derivation_function (Some (replicate 32 0)) 32 (Some [1; 2])
       (length [1; 2]) (Some [3]) (length [3]) (Some [4; 5]) (length [4; 5])
     = shake256 (Some (replicate 32 0)) 32 (Some ([4; 5] ++ [1; 2] ++ [3]))
         (length ([4; 5] ++ [1; 2] ++ [3])) None 0.
Proof.
  split; [apply Nat.leb_le; reflexivity|].
  apply (key_derivation_function_concatenates (replicate 32 0) [1; 2] [3]
           [4; 5] 32).
  apply Nat.leb_le; reflexivity.
Defined.

End HashUtilities.

(** ** secure_memory.c: copies, comparison and the allocator *)

Section SecureMemoryFacts.

Lemma u8_byte (b : Z) : 0 <= b < 256 -> u8 b = b.
Proof.
  intros Hb. unfold u8. change 255 with (Z.ones 8).
  rewrite Z.land_ones by lia. apply Z.mod_small. exact Hb.
Qed.

Lemma u8_range (x : Z) : 0 <= u8 x < 256.
Proof.
  unfold u8. change 255 with (Z.ones 8).
  rewrite Z.land_ones by lia. apply Z.mod_pos_bound. reflexivity.
Qed.

Lemma for_range_S {T : Type} (body : nat -> T -> T) (n : nat) (s : T) :
  for_range 0 (S n) body s = body n (for_range 0 n body s).
Proof.
  unfold for_range. rewrite seq_S, fold_left_app. reflexivity.
Qed.

(** A loop that overwrites element [i] in turn [i] with a value computed
    from [i] and the old element. *)
Lemma for_range_pointwise (g : nat -> Z -> Z) (d : list Z) (n : nat) :
  (n <= length d)%nat ->
  for_range 0 n (fun i d => <[i := g i (rd d i)]> d) d
  = map (fun i => g i (rd d i)) (seq 0 n) ++ drop n d.
Proof.
  induction n as [|n IH]; intros Hn.
  - simpl. rewrite drop_0. reflexivity.
  - rewrite for_range_S, IH by lia.
    assert (Hlen : length (map (fun i => g i (rd d i)) (seq 0 n)) = n)
      by (rewrite length_map, length_seq; reflexivity).
    destruct (lookup_lt_is_Some_2 d n) as [x Hx]; [lia|].
    assert (Hrd : rd (map (fun i => g i (rd d i)) (seq 0 n) ++ drop n d) n
                  = rd d n).
    { set (M := map _ _) in *. unfold rd.
      rewrite lookup_app_r by (rewrite Hlen; apply Nat.le_refl).
      rewrite Hlen, Nat.sub_diag, lookup_drop, Nat.add_0_r. reflexivity. }
    rewrite Hrd.
    rewrite insert_app_r_alt by lia.
    rewrite Hlen, Nat.sub_diag.
    rewrite (drop_S d x n Hx). cbn [list_insert insert].
    rewrite seq_S, map_app. cbn [map]. rewrite <- app_assoc. reflexivity.
Qed.

Lemma map_rd_seq (l : list Z) (n : nat) :
  (n <= length l)%nat -> map (rd l) (seq 0 n) = take n l.
Proof.
  revert l. induction n as [|n IH]; intros l Hn; [reflexivity|].
  destruct l as [|x l]; [simpl in Hn; lia|].
  rewrite <- cons_seq. cbn [map take]. f_equal.
  rewrite <- seq_shift, map_map. simpl in Hn.
  rewrite <- (IH l) by lia. apply map_ext. intros i. reflexivity.
Qed.

Lemma map_const_seq (v : Z) (n : nat) :
  map (fun _ : nat => v) (seq 0 n) = replicate n v.
Proof.
  generalize 0%nat. induction n as [|n IH]; intros s; [reflexivity|].
  simpl. rewrite IH. reflexivity.
Qed.

(** secure_memzero: the first [length] bytes become zero and the rest of
    the buffer is left as it was. *)
Theorem secure_memzero_clears_prefix (p : list Z) (n : nat) :
  (n <= length p)%nat ->
  secure_memzero p n = replicate n 0 ++ drop n p.
Proof.
  intros Hn. unfold secure_memzero.
  rewrite (for_range_pointwise (fun _ _ => 0)) by exact Hn.
  rewrite map_const_seq. reflexivity.
Qed.

Lemma secure_memzero_clears_prefix_witness :
  (2 <= length [7; 8; 9])%nat
  /\ secure_memzero [7; 8; 9] 2 = replicate 2 0 ++ drop 2 [7; 8; 9].
Proof.
  split; [simpl; lia|].
  apply (secure_memzero_clears_prefix [7; 8; 9] 2). simpl; lia.
Defined.

Lemma secure_memcpy_spec (d s : list Z) (n : nat) :
  (n <= length d)%nat -> (n <= length s)%nat ->
  secure_memcpy (Some d) (Some s) n = Some (take n s ++ drop n d).
Proof.
  intros Hd Hs. unfold secure_memcpy.
  destruct (Nat.eqb_spec n 0) as [->|Hn].
  - rewrite take_0, drop_0. reflexivity.
  - rewrite (for_range_pointwise (fun i _ => rd s i)) by exact Hd.
    rewrite map_rd_seq by exact Hs. reflexivity.
Qed.

Lemma select_byte_255 (x y : Z) :
  0 <= y < 256 ->
  u8 (Z.lor (Z.land x (Z.lnot 255)) (Z.land y 255)) = y.
Proof.
  intros Hy. rewrite <- (u8_byte y Hy) at 2. unfold u8.
  apply Z.bits_inj'. intros k Hk.
  rewrite !Z.land_spec, Z.lor_spec, Z.land_spec, Z.land_spec.
  rewrite Z.lnot_spec by exact Hk.
  destruct (Z.testbit 255 k); simpl.
  - rewrite andb_false_r, andb_true_r. reflexivity.
  - rewrite !andb_false_r. reflexivity.
Qed.

Lemma select_byte_0 (x y : Z) :
  0 <= x < 256 ->
  u8 (Z.lor (Z.land x (Z.lnot 0)) (Z.land y 0)) = x.
Proof.
  intros Hx. change (Z.lnot 0) with (-1).
  rewrite Z.land_m1_r, Z.land_0_r, Z.lor_0_r. apply u8_byte. exact Hx.
Qed.

Lemma map_ext_seq {A : Type} (f g : nat -> A) (n : nat) :
  (forall i, (i < n)%nat -> f i = g i) ->
  map f (seq 0 n) = map g (seq 0 n).
Proof.
  intros H. apply map_ext_in. intros i Hi. apply in_seq in Hi.
  apply H. lia.
Qed.

Lemma rd_byte (l : list Z) (i : nat) :
  Forall is_byte l -> 0 <= rd l i < 256.
Proof.
  intros Hl. unfold rd. destruct (l !! i) as [x|] eqn:E; simpl; [|lia].
  exact (proj1 (Forall_lookup _ _) Hl i x E).
Qed.

(** secure_memcpy_conditional: on byte buffers the copy is made when the
    low bit of [condition] is set, and the destination keeps its bytes
    when it is clear. *)
Theorem secure_memcpy_conditional_selects (d s : list Z) (n : nat)
  (condition : Z) :
  Forall is_byte d -> Forall is_byte s ->
  (n <= length d)%nat -> (n <= length s)%nat ->
  secure_memcpy_conditional (Some d) (Some s) n condition
  = if Z.odd condition then secure_memcpy (Some d) (Some s) n else Some d.
Proof.
  intros Hbd Hbs Hd Hs.
  rewrite secure_memcpy_spec by assumption.
  unfold secure_memcpy_conditional.
  assert (Hodd : Z.land condition 1 = if Z.odd condition then 1 else 0).
  { change 1 with (Z.ones 1) at 1. rewrite Z.land_ones by lia.
    change (2 ^ 1) with 2. rewrite Zmod_odd. reflexivity. }
  rewrite Hodd.
  destruct (Nat.eqb_spec n 0) as [->|Hn].
  - rewrite take_0, drop_0. destruct (Z.odd condition); reflexivity.
  - destruct (Z.odd condition); cbn [Z.eqb negb].
    + rewrite (for_range_pointwise
                 (fun i x => u8 (Z.lor (Z.land x (Z.lnot 255))
                                       (Z.land (rd s i) 255)))) by exact Hd.
      rewrite <- (map_rd_seq s n) by exact Hs.
      f_equal. f_equal. apply map_ext_seq. intros i Hi.
      apply select_byte_255. apply rd_byte. exact Hbs.
    + rewrite (for_range_pointwise
                 (fun i x => u8 (Z.lor (Z.land x (Z.lnot 0))
                                       (Z.land (rd s i) 0)))) by exact Hd.
      transitivity (Some (take n d ++ drop n d));
        [|rewrite take_drop; reflexivity].
      rewrite <- (map_rd_seq d n) by exact Hd.
      f_equal. f_equal. apply map_ext_seq. intros i Hi.
      apply select_byte_0. apply rd_byte. exact Hbd.
Qed.


Lemma secure_memcpy_conditional_selects_witness :
  Forall is_byte [1; 2; 3] /\ Forall is_byte [7; 8; 9]
  /\ (2 <= length [1; 2; 3])%nat /\ (2 <= length [7; 8; 9])%nat
  /\ secure_memcpy_conditional (Some [1; 2; 3]) (Some [7; 8; 9]) 2 5
     = (if Z.odd 5 then secure_memcpy (Some [1; 2; 3]) (Some [7; 8; 9]) 2
        else Some [1; 2; 3]).
Proof.
  assert (H1 : Forall is_byte [1; 2; 3])
    by (repeat constructor; unfold is_byte; lia).
  assert (H2 : Forall is_byte [7; 8; 9])
    by (repeat constructor; unfold is_byte; lia).
  split; [exact H1|]. split; [exact H2|].
  split; [simpl; lia|]. split; [simpl; lia|].
  apply (secure_memcpy_conditional_selects [1; 2; 3] [7; 8; 9] 2 5 H1 H2);
    simpl; lia.
Defined.

Lemma u8_lor (x y : Z) : u8 (Z.lor x y) = Z.lor (u8 x) (u8 y).
Proof. unfold u8. apply Z.land_lor_distr_l. Qed.

Lemma u8_lxor (x y : Z) : u8 (Z.lxor x y) = Z.lxor (u8 x) (u8 y).
Proof.
  unfold u8. apply Z.bits_inj'. intros k Hk.
  rewrite Z.land_spec, !Z.lxor_spec, !Z.land_spec.
  destruct (Z.testbit x k), (Z.testbit y k), (Z.testbit 255 k); reflexivity.
Qed.

(** The accumulator of [secure_memcmp] after [k] turns is zero exactly when
    the first [k] bytes agree. *)
Lemma secure_memcmp_acc (a b : list Z) (k : nat) :
  Forall is_byte a -> Forall is_byte b ->
  let acc := for_range 0 k (fun i result =>
               u8 (Z.lor result (Z.lxor (rd a i) (rd b i)))) 0 in
  0 <= acc < 256
  /\ (acc = 0 <-> forall i, (i < k)%nat -> rd a i = rd b i).
Proof.
  intros Ha Hb. cbv zeta. induction k as [|k [IHr IHz]].
  - change (for_range 0 0 _ 0) with 0.
    split; [lia|]. split; [intros _ i Hi; lia|reflexivity].
  - rewrite for_range_S.
    set (acc := for_range 0 k _ 0) in *.
    split; [apply u8_range|].
    rewrite u8_lor, u8_lxor, (u8_byte acc IHr).
    rewrite (u8_byte (rd a k)) by (apply rd_byte; exact Ha).
    rewrite (u8_byte (rd b k)) by (apply rd_byte; exact Hb).
    rewrite Z.lor_eq_0_iff, Z.lxor_eq_0_iff, IHz.
    split.
    + intros [Hlt Heq] i Hi.
      destruct (Nat.eq_dec i k) as [->|Hne]; [exact Heq|apply Hlt; lia].
    + intros H. split; [intros i Hi; apply H; lia|apply H; lia].
Qed.

Lemma take_eq_pointwise (a b : list Z) (n : nat) :
  (n <= length a)%nat -> (n <= length b)%nat ->
  (take n a = take n b <-> forall i, (i < n)%nat -> rd a i = rd b i).
Proof.
  intros Ha Hb. split.
  - intros Heq i Hi. unfold rd.
    rewrite <- (lookup_take_lt a n i), <- (lookup_take_lt b n i) by exact Hi.
    rewrite Heq. reflexivity.
  - intros H. rewrite <- (map_rd_seq a n), <- (map_rd_seq b n) by assumption.
    apply map_ext_seq. exact H.
Qed.

(** secure_memcmp: on byte buffers the result is 0 exactly when the first
    [length] bytes are equal, and 1 otherwise. *)
Theorem secure_memcmp_zero_iff_equal (a b : list Z) (n : nat) :
  Forall is_byte a -> Forall is_byte b ->
  (n <= length a)%nat -> (n <= length b)%nat ->
  (secure_memcmp (Some a) (Some b) n = 0 <-> take n a = take n b)
  /\ (secure_memcmp (Some a) (Some b) n = 0
      \/ secure_memcmp (Some a) (Some b) n = 1).
Proof.
  intros Hba Hbb Ha Hb.
  destruct (secure_memcmp_acc a b n Hba Hbb) as [_ Hz]. cbv zeta in Hz.
  unfold secure_memcmp.
  set (acc := for_range 0 n _ 0) in *.
  rewrite take_eq_pointwise by assumption.
  destruct (Z.eqb_spec acc 0) as [E|E].
  - split; [|left; reflexivity].
    split; [intros _; apply Hz; exact E|reflexivity].
  - split; [|right; reflexivity].
    split; [discriminate|]. intros H. exfalso. apply E, Hz, H.
Qed.

Lemma secure_memcmp_zero_iff_equal_witness :
  Forall is_byte [1; 2; 3] /\ Forall is_byte [1; 2; 4]
  /\ (2 <= length [1; 2; 3])%nat /\ (2 <= length [1; 2; 4])%nat
  /\ (secure_memcmp (Some [1; 2; 3]) (Some [1; 2; 4]) 2 = 0
      <-> take 2 [1; 2; 3] = take 2 [1; 2; 4])
  /\ (secure_memcmp (Some [1; 2; 3]) (Some [1; 2; 4]) 2 = 0
      \/ secure_memcmp (Some [1; 2; 3]) (Some [1; 2; 4]) 2 = 1).
Proof.
  assert (H1 : Forall is_byte [1; 2; 3])
    by (repeat constructor; unfold is_byte; lia).
  assert (H2 : Forall is_byte [1; 2; 4])
    by (repeat constructor; unfold is_byte; lia).
  split; [exact H1|]. split; [exact H2|].
  split; [simpl; lia|]. split; [simpl; lia|].
  apply (secure_memcmp_zero_iff_equal [1; 2; 3] [1; 2; 4] 2 H1 H2);
    simpl; lia.
Defined.

Lemma u64_range (x : Z) : 0 <= u64 x < 18446744073709551616.
Proof.
  unfold u64. change 18446744073709551615 with (Z.ones 64).
  rewrite Z.land_ones by lia. apply Z.mod_pos_bound. reflexivity.
Qed.

Lemma u64_small (x : Z) : 0 <= x < 18446744073709551616 -> u64 x = x.
Proof.
  intros Hx. unfold u64. change 18446744073709551615 with (Z.ones 64).
  rewrite Z.land_ones by lia. apply Z.mod_small. exact Hx.
Qed.

Lemma run_call_keeps_peak (st : alloc_stats_t) (c : alloc_call) :
  0 <= call_size c ->
  0 <= g_allocated_bytes st <= g_peak_allocated_bytes st ->
  g_allocated_bytes st < 18446744073709551616 ->
  0 <= g_allocated_bytes (run_call st c)
       <= g_peak_allocated_bytes (run_call st c)
  /\ g_allocated_bytes (run_call st c) < 18446744073709551616.
Proof.
  intros Hsize Hinv Hlt.
  assert (Hmalloc : forall size,
    let allocated := u64 (g_allocated_bytes st + size) in
    0 <= allocated
         <= (if g_peak_allocated_bytes st <? allocated
             then allocated else g_peak_allocated_bytes st)
    /\ allocated < 18446744073709551616).
  { intros size allocated. pose proof (u64_range (g_allocated_bytes st + size)).
    fold allocated in H.
    destruct (Z.ltb_spec (g_peak_allocated_bytes st) allocated); lia. }
  assert (Hfree : forall size, 0 <= size -> size <= g_allocated_bytes st ->
    0 <= u64 (g_allocated_bytes st - size) <= g_peak_allocated_bytes st
    /\ u64 (g_allocated_bytes st - size) < 18446744073709551616).
  { intros size H0 Hle. rewrite u64_small by lia. lia. }
  destruct c as [size ok|ptr size|size alignment ok|ptr size|];
    cbn [run_call call_size] in *.
  - unfold secure_malloc.
    destruct (size =? 0); [simpl; lia|].
    destruct ok; [|simpl; lia]. cbn [snd g_allocated_bytes
      g_peak_allocated_bytes]. apply Hmalloc.
  - unfold secure_free.
    destruct ptr; cbn [negb]; [|lia].
    destruct (Z.leb_spec size (g_allocated_bytes st)); [|lia].
    cbn [g_allocated_bytes g_peak_allocated_bytes]. apply Hfree; lia.
  - unfold secure_aligned_malloc.
    destruct (_ || _); [simpl; lia|].
    destruct ok; cbn [negb]; [|simpl; lia].
    cbn [snd g_allocated_bytes g_peak_allocated_bytes]. apply Hmalloc.
  - unfold secure_aligned_free.
    destruct ptr; cbn [negb]; [|lia].
    destruct (Z.leb_spec size (g_allocated_bytes st)); [|lia].
    cbn [g_allocated_bytes g_peak_allocated_bytes]. apply Hfree; lia.
  - simpl. lia.
Qed.

(** The allocator's counters: after [secure_memory_init], whatever calls
    follow, the number of allocated bytes never becomes negative (a free
    larger than the count is not subtracted) and never exceeds the recorded
    peak, also when the 64-bit sum wraps. *)
Theorem allocator_peak_bounds_allocated (calls : list alloc_call)
  (st0 : alloc_stats_t) :
  Forall (fun c => 0 <= call_size c) calls ->
  let st := fold_left run_call calls (snd (secure_memory_init st0)) in
  0 <= g_allocated_bytes st <= g_peak_allocated_bytes st.
Proof.
  intros Hcalls. cbv zeta.
  assert (Hgen : forall st,
    0 <= g_allocated_bytes st <= g_peak_allocated_bytes st ->
    g_allocated_bytes st < 18446744073709551616 ->
    0 <= g_allocated_bytes (fold_left run_call calls st)
         <= g_peak_allocated_bytes (fold_left run_call calls st)).
  { induction Hcalls as [|c calls Hc _ IH]; intros st Hinv Hlt;
      [exact Hinv|].
    cbn [fold_left].
    destruct (run_call_keeps_peak st c Hc Hinv Hlt) as [Hinv' Hlt'].
    apply IH; assumption. }
  apply Hgen; simpl; lia.
Qed.

Lemma allocator_peak_bounds_allocated_witness :
  Forall (fun c => 0 <= call_size c)
    [CallMalloc 100 true; CallFree true 300; CallAlignedMalloc 64 16 true;
     CallFree true 100]
  /\ (let st := fold_left run_call
        [CallMalloc 100 true; CallFree true 300;
         CallAlignedMalloc 64 16 true; CallFree true 100]
        (snd (secure_memory_init
                {| g_allocated_bytes := 5; g_peak_allocated_bytes := 1;
                   g_allocation_count := 0 |})) in
      0 <= g_allocated_bytes st <= g_peak_allocated_bytes st).
Proof.
  assert (H : Forall (fun c => 0 <= call_size c)
    [CallMalloc 100 true; CallFree true 300; CallAlignedMalloc 64 16 true;
     CallFree true 100]) by (repeat constructor; simpl; lia).
  split; [exact H|].
  exact (allocator_peak_bounds_allocated _ _ H).
Defined.

(** secure_aligned_malloc: with a working [malloc], a block is returned
    exactly for a non-zero size and an alignment that is a power of two. *)
Theorem secure_aligned_malloc_power_of_two (size alignment : Z)
  (st : alloc_stats_t) :
  0 <= alignment < 18446744073709551616 ->
  (fst (secure_aligned_malloc size alignment true st) = true
   <-> size <> 0 /\ exists k, 0 <= k /\ alignment = 2 ^ k).
Proof.
  intros Hrange. unfold secure_aligned_malloc. cbn [negb].
  destruct (Z.eqb_spec size 0) as [Hs|Hs]; cbn [orb].
  { split; [discriminate|]. intros [H _]. contradiction. }
  destruct (Z.eqb_spec alignment 0) as [Ha|Ha]; cbn [orb].
  { split; [discriminate|]. intros [_ [k [Hk E]]]. exfalso.
    assert (0 < 2 ^ k) by (apply Z.pow_pos_nonneg; lia). lia. }
  rewrite (u64_small (alignment - 1)) by lia.
  destruct (Z.eqb_spec (Z.land alignment (alignment - 1)) 0) as [Hl|Hl];
    cbn [negb fst].
  - split; [intros _|reflexivity]. split; [exact Hs|].
    exists (Z.log2 alignment). split; [apply Z.log2_nonneg|].
    assert (Hpos : 0 < alignment) by lia.
    destruct (Z.log2_spec alignment Hpos) as [Hlo Hhi].
    destruct (Z.eq_dec alignment (2 ^ Z.log2 alignment)) as [E|E];
      [exact E|exfalso].
    assert (Hlog : Z.log2 (alignment - 1) = Z.log2 alignment).
    { apply Z.log2_unique; [apply Z.log2_nonneg|].
      rewrite <- Z.add_1_r in Hhi. lia. }
    assert (Hbit1 : Z.testbit alignment (Z.log2 alignment) = true)
      by (apply Z.bit_log2; exact Hpos).
    assert (Hbit2 : Z.testbit (alignment - 1) (Z.log2 alignment) = true).
    { rewrite <- Hlog. apply Z.bit_log2.
      assert (0 < 2 ^ Z.log2 alignment)
        by (apply Z.pow_pos_nonneg; [lia|apply Z.log2_nonneg]).
      lia. }
    assert (Hbit : Z.testbit (Z.land alignment (alignment - 1))
                     (Z.log2 alignment) = true)
      by (rewrite Z.land_spec, Hbit1, Hbit2; reflexivity).
    rewrite Hl, Z.bits_0 in Hbit. discriminate.
  - split; [discriminate|]. intros [_ [k [Hk E]]]. exfalso. apply Hl.
    subst alignment. change (2 ^ k - 1) with (Z.pred (2 ^ k)).
    rewrite <- Z.ones_equiv, Z.land_ones by exact Hk.
    apply Z.mod_same. apply Z.pow_nonzero; lia.
Qed.

Lemma secure_aligned_malloc_power_of_two_witness :
  0 <= 16 < 18446744073709551616
  /\ (fst (secure_aligned_malloc 64 16 true
             {| g_allocated_bytes := 0; g_peak_allocated_bytes := 0;
                g_allocation_count := 0 |}) = true
      <-> 64 <> 0 /\ exists k, 0 <= k /\ 16 = 2 ^ k).
Proof.
  split; [lia|].
  apply (secure_aligned_malloc_power_of_two 64 16). lia.
Defined.

End SecureMemoryFacts.

(** ** dilithium.c: verification and coefficient arithmetic *)

Section DilithiumFacts.
Import CryptoHash Dilithium.

Lemma for_range_inv_idx {T : Type} (P : nat -> T -> Prop)
  (body : nat -> T -> T) (count : nat) :
  forall start s,
    P start s ->
    (forall i s', (start <= i < start + count)%nat ->
                  P i s' -> P (S i) (body i s')) ->
    P (start + count)%nat (for_range start count body s).
Proof.
  unfold for_range.
  induction count as [|n IH]; intros start s Hs Hstep; simpl.
  - rewrite Nat.add_0_r. exact Hs.
  - rewrite Nat.add_succ_r. apply (IH (S start)).
    + apply Hstep; [lia|exact Hs].
    + intros i s' Hi. apply Hstep. lia.
Qed.

Lemma rd_zero_tail (c : list Z) (n p : nat) :
  (length c <= p)%nat -> rd (c ++ replicate n 0) p = 0.
Proof.
  intros Hp. unfold rd. rewrite lookup_app_r by exact Hp.
  destruct (replicate n 0 !! (p - length c)%nat) as [x|] eqn:E;
    [|reflexivity].
  apply lookup_replicate in E. destruct E as [-> _]. reflexivity.
Qed.

Lemma insert_zero_row (rows n i j : nat) :
  <[i := <[j := 0]> (row (replicate rows (replicate n 0)) i)]>
    (replicate rows (replicate n 0))
  = replicate rows (replicate n 0).
Proof.
  destruct (Nat.lt_ge_cases i rows) as [Hi|Hi].
  - unfold row. rewrite lookup_replicate_2 by exact Hi.
    cbn [default from_option id].
    destruct (Nat.lt_ge_cases j n) as [Hj|Hj].
    + rewrite insert_replicate. apply insert_replicate.
    + rewrite (list_insert_ge (replicate n 0) j 0)
        by (rewrite length_replicate; exact Hj).
      apply insert_replicate.
  - apply list_insert_ge. rewrite length_replicate. exact Hi.
Qed.

(** "Unpack z" on a signature whose bytes after the challenge are zero:
    every coefficient is read, all are zero and in range. *)
Lemma unpack_z_zero_tail (sg : list Z) (siglen : nat) :
  (forall p, (32 <= p)%nat -> rd sg p = 0) ->
  (32 + 3 * (DILITHIUM_L * DILITHIUM_N) <= siglen)%nat ->
  unpack_z sg siglen
  = Some (replicate DILITHIUM_L (replicate DILITHIUM_N 0),
          (32 + 3 * (DILITHIUM_L * DILITHIUM_N))%nat).
Proof.
  intros Htail Hlen. unfold unpack_z.
  assert (E : unpack_z_loop sg siglen
              = Some (replicate DILITHIUM_L (replicate DILITHIUM_N 0),
                      (32 + 3 * (DILITHIUM_L * DILITHIUM_N))%nat, true));
    [|rewrite E; reflexivity].
  unfold unpack_z_loop.
  set (zero := replicate DILITHIUM_L (replicate DILITHIUM_N 0)).
  pose (P := fun (i : nat) (st : option (list (list Z) * nat * bool)) =>
               st = Some (zero, (32 + 3 * (i * DILITHIUM_N))%nat, true)).
  change (P (0 + DILITHIUM_L)%nat
            (for_range 0 DILITHIUM_L
               (fun i st =>
                  for_range 0 DILITHIUM_N
                    (fun j st =>
                       match st with
                       | None => None
                       | Some (z, sig_pos, running) =>
                         if running && (sig_pos + 2 <? siglen)%nat then
                           let zij :=
                             u32 (Z.lor (Z.lor (rd sg sig_pos)
                                    (u32 (Z.shiftl (rd sg (sig_pos + 1)) 8)))
                                    (u32 (Z.shiftl (rd sg (sig_pos + 2)) 16)))
                           in
                           if DILITHIUM_GAMMA1 - DILITHIUM_BETA <=? zij
                           then None
                           else Some (<[i := <[j := zij]> (row z i)]> z,
                                      (sig_pos + 3)%nat, true)
                         else Some (z, sig_pos, false)
                       end)
                    (match st with
                     | Some (z, sig_pos, _) => Some (z, sig_pos, true)
                     | None => None
                     end))
               (Some (zero, 32%nat, true)))).
  apply for_range_inv_idx.
  { unfold P. reflexivity. }
  intros i st Hi HP. unfold P in HP. subst st.
  pose (Q := fun (j : nat) (st : option (list (list Z) * nat * bool)) =>
               st = Some (zero, (32 + 3 * (i * DILITHIUM_N + j))%nat, true)).
  assert (HQ : Q (0 + DILITHIUM_N)%nat
                 (for_range 0 DILITHIUM_N
                    (fun j st =>
                       match st with
                       | None => None
                       | Some (z, sig_pos, running) =>
                         if running && (sig_pos + 2 <? siglen)%nat then
                           let zij :=
                             u32 (Z.lor (Z.lor (rd sg sig_pos)
                                    (u32 (Z.shiftl (rd sg (sig_pos + 1)) 8)))
                                    (u32 (Z.shiftl (rd sg (sig_pos + 2)) 16)))
                           in
                           if DILITHIUM_GAMMA1 - DILITHIUM_BETA <=? zij
                           then None
                           else Some (<[i := <[j := zij]> (row z i)]> z,
                                      (sig_pos + 3)%nat, true)
                         else Some (z, sig_pos, false)
                       end)
                    (Some (zero, (32 + 3 * (i * DILITHIUM_N))%nat, true)))).
  { apply for_range_inv_idx.
    { unfold Q. rewrite Nat.add_0_r. reflexivity. }
    intros j st Hj HQ. unfold Q in HQ. subst st. unfold Q.
    unfold DILITHIUM_L, DILITHIUM_N in *.
    destruct (Nat.ltb_spec (32 + 3 * (i * 256 + j) + 2) siglen) as [_|Hge];
      [|lia].
    cbn [andb]. rewrite !Htail by lia.
    change (u32 (Z.lor (Z.lor 0 (u32 (Z.shiftl 0 8))) (u32 (Z.shiftl 0 16))))
      with 0.
    change (DILITHIUM_GAMMA1 - DILITHIUM_BETA <=? 0) with false.
    cbv zeta iota. unfold zero. rewrite insert_zero_row.
    f_equal. f_equal. f_equal. lia. }
  unfold Q in HQ. unfold P. rewrite HQ. f_equal. f_equal. f_equal.
  unfold DILITHIUM_N. lia.
Qed.

Lemma shake256_output_length_32 (input : list Z) (inlen : nat)
  (custom : option (list Z)) (customlen : nat) :
  length (shake256_output 32 input inlen custom customlen) = 32%nat.
Proof.
  unfold shake256_output, keccak_final.
  set (ctx := match custom with Some _ => _ | None => _ end).
  assert (Hrate : rate ctx = 136%nat).
  { subst ctx. destruct custom as [c|].
    - destruct (0 <? customlen)%nat; unfold keccak_update;
        rewrite ?keccak_update_loop_rate; reflexivity.
    - unfold keccak_update. rewrite keccak_update_loop_rate. reflexivity. }
  rewrite Hrate.
  set (st := keccak_f1600 _). clearbody st.
  change (keccak_squeeze 32 st 136 (replicate 32 0) 0 32)
    with (memcpy_at (replicate 32 0) 0 (map (state_byte st) (seq 0 32))).
  rewrite memcpy_at_0_full.
  - rewrite length_map, length_seq. reflexivity.
  - rewrite length_map, length_seq, length_replicate. reflexivity.
Qed.

(** What [dilithium_verify] answers for a signature of full length whose
    [z] and hint bytes are zero: the 32 bytes it compares the challenge
    with are the same for every challenge. *)
Lemma dilithium_verify_zero_tail (pk : dilithium_public_key_t)
  (msg : list Z) (msglen : nat) :
  exists F, length F = 32%nat /\
    forall c, length c = 32%nat ->
      dilithium_verify
        (Some (c ++ replicate (3 * (DILITHIUM_L * DILITHIUM_N)) 0))
        (32 + 3 * (DILITHIUM_L * DILITHIUM_N)) (Some msg) msglen (Some pk)
      = if negb (secure_memcmp (Some c) (Some F) 32 =? 0)
        then PQC_ERROR_INVALID_SIGNATURE else PQC_SUCCESS.
Proof.
  eexists. split; cycle 1.
  - intros c Hc. unfold dilithium_verify.
    change (32 + 3 * (DILITHIUM_L * DILITHIUM_N) <? 32)%nat with false.
    cbv iota.
    rewrite unpack_z_zero_tail; [| |apply Nat.le_refl].
    2:{ intros p Hp. apply rd_zero_tail. lia. }
    rewrite Nat.sub_diag.
    rewrite take_app_length' by (symmetry; exact Hc).
    cbv zeta.
    match goal with
    | |- context [for_range ?a 0 ?f ?x] =>
      change (for_range a 0 f x) with x
    end.
    reflexivity.
  - apply shake256_output_length_32.
Qed.

(** dilithium_verify: for every public key and every message some
    signature is accepted although no secret key took part in making it.
    The signature has all [z] coefficients zero and no hints; its
    challenge is the hash the verifier computes from the public key, the
    message and [z], which does not depend on the challenge. *)
Theorem dilithium_verify_accepts_forgery (pk : dilithium_public_key_t)
  (msg : list Z) (msglen : nat) :
  exists c,
    length c = 32%nat
    /\ dilithium_verify
         (Some (c ++ replicate (3 * (DILITHIUM_L * DILITHIUM_N)) 0))
         (32 + 3 * (DILITHIUM_L * DILITHIUM_N)) (Some msg) msglen (Some pk)
       = PQC_SUCCESS.
Proof.
  destruct (dilithium_verify_zero_tail pk msg msglen) as [F [HF HV]].
  exists F. split; [exact HF|].
  rewrite HV by exact HF. rewrite secure_memcmp_refl. reflexivity.
Qed.

Lemma s32_u32 (x : Z) : s32 (u32 x) = s32 x.
Proof.
  unfold s32. assert (E : u32 (u32 x) = u32 x);
    [|rewrite E; reflexivity].
  apply u32_small. apply u32_range.
Qed.

(** power2round: for every coefficient that does not overflow the
    rounding addition, the two parts give back the input as
    [a1 * 2^13 + a0], with the low part, read as a signed number, in
    (-2^12, 2^12]. *)
Theorem power2round_reconstructs (a : Z) :
  0 <= a < 4294967296 - 4095 ->
  fst (power2round a) * 2 ^ DILITHIUM_D + s32 (snd (power2round a)) = a
  /\ - 2 ^ 12 < s32 (snd (power2round a)) <= 2 ^ 12.
Proof.
  intros Ha. unfold power2round. cbn [fst snd].
  unfold DILITHIUM_D.
  change (Z.shiftl 1 (13 - 1)) with 4096.
  rewrite (u32_small (a + 4096 - 1)) by lia.
  rewrite Z.shiftr_div_pow2, Z.shiftl_mul_pow2 by lia.
  change (2 ^ 13) with 8192. change (2 ^ 12) with 4096.
  set (q := (a + 4096 - 1) / 8192).
  assert (Hq : 8192 * q <= a + 4096 - 1 < 8192 * q + 8192).
  { subst q. pose proof (Z.mul_div_le (a + 4096 - 1) 8192).
    pose proof (Z.mul_succ_div_gt (a + 4096 - 1) 8192). lia. }
  rewrite (u32_small (q * 8192)) by lia.
  rewrite s32_u32, s32_small by lia. lia.
Qed.

Lemma power2round_reconstructs_witness :
  0 <= 8380416 < 4294967296 - 4095
  /\ fst (power2round 8380416) * 2 ^ DILITHIUM_D
     + s32 (snd (power2round 8380416)) = 8380416
  /\ - 2 ^ 12 < s32 (snd (power2round 8380416)) <= 2 ^ 12.
Proof.
  split; [lia|]. apply (power2round_reconstructs 8380416). lia.
Defined.

(** reduce32: for every input below 2^32 - 2^22 the result, read as a
    signed number, is congruent to the input modulo q and lies in
    [-2^22, q). *)
Theorem reduce32_congruent (a : Z) :
  0 <= a < 4294967296 - 4194304 ->
  s32 (reduce32 a) mod DILITHIUM_Q = a mod DILITHIUM_Q
  /\ - 4194304 <= s32 (reduce32 a) < DILITHIUM_Q.
Proof.
  intros Ha. unfold reduce32, DILITHIUM_Q.
  change (Z.shiftl 1 22) with 4194304.
  rewrite (u32_small (a + 4194304)) by lia.
  rewrite Z.shiftr_div_pow2 by lia. change (2 ^ 23) with 8388608.
  set (t := (a + 4194304) / 8388608).
  assert (Ht : 8388608 * t <= a + 4194304 < 8388608 * t + 8388608).
  { subst t. pose proof (Z.mul_div_le (a + 4194304) 8388608).
    pose proof (Z.mul_succ_div_gt (a + 4194304) 8388608). lia. }
  assert (Ht0 : 0 <= t <= 511) by lia.
  rewrite (u32_small (t * 8380417)) by lia.
  rewrite s32_u32, s32_small by lia.
  split; [|lia].
  replace (a - t * 8380417) with (a + (- t) * 8380417) by lia.
  apply Z.mod_add. lia.
Qed.

Lemma reduce32_congruent_witness :
  0 <= 4000000000 < 4294967296 - 4194304
  /\ s32 (reduce32 4000000000) mod DILITHIUM_Q = 4000000000 mod DILITHIUM_Q
  /\ - 4194304 <= s32 (reduce32 4000000000) < DILITHIUM_Q.
Proof.
  split; [lia|]. apply (reduce32_congruent 4000000000). lia.
Defined.

(** montgomery_reduce of dilithium.c: for every input below 2^63 the
    result, read as a signed number [r], satisfies r * 2^32 = a modulo q,
    with -q < r < 2^31. *)
Theorem dilithium_montgomery_reduce_congruent (a : Z) :
  0 <= a < 9223372036854775808 ->
  (s32 (montgomery_reduce a) * 4294967296) mod DILITHIUM_Q
  = a mod DILITHIUM_Q
  /\ - DILITHIUM_Q < s32 (montgomery_reduce a) < 2147483648.
Proof.
  intros Ha. unfold montgomery_reduce, DILITHIUM_Q, DILITHIUM_QINV.
  assert (Ht : Z.land (u64 (a * 58728449)) 4294967295
               = (a * 58728449) mod 4294967296).
  { unfold u64. change 18446744073709551615 with (Z.ones 64).
    change 4294967295 with (Z.ones 32). rewrite !Z.land_ones by lia.
    apply Z.mod_mod_divide. exists 4294967296. reflexivity. }
  rewrite Ht. set (t := (a * 58728449) mod 4294967296).
  assert (Htr : 0 <= t < 4294967296) by (apply Z.mod_pos_bound; lia).
  rewrite (u64_small (t * 8380417)) by nia.
  (* a - t * q is a multiple of 2^32 *)
  assert (Hdiv : exists c, a - t * 8380417 = c * 4294967296).
  { exists (a * 58728449 / 4294967296 * 8380417 - a * 114592).
    pose proof (Z.div_mod (a * 58728449) 4294967296 ltac:(lia)) as Hdm.
    fold t in Hdm. lia. }
  destruct Hdiv as [c Hc]. rewrite Hc.
  assert (Hcr : - 8380417 < c < 2147483648) by nia.
  assert (Hsh : Z.shiftr (u64 (c * 4294967296)) 32 = c mod 4294967296).
  { unfold u64. change 18446744073709551615 with (Z.ones 64).
    rewrite Z.land_ones, Z.shiftr_div_pow2 by lia.
    change (2 ^ 64) with (4294967296 * 4294967296).
    change (2 ^ 32) with 4294967296.
    rewrite Z.mul_mod_distr_r by lia.
    apply Z.div_mul. lia. }
  rewrite Hsh.
  assert (Hu : u32 (c mod 4294967296) = u32 c).
  { unfold u32. change 4294967295 with (Z.ones 32).
    rewrite !Z.land_ones by lia. apply Z.mod_mod. lia. }
  rewrite Hu, s32_u32, s32_small by lia.
  split; [|lia].
  rewrite <- Hc.
  replace (a - t * 8380417) with (a + (- t) * 8380417) by lia.
  apply Z.mod_add. lia.
Qed.

Lemma dilithium_montgomery_reduce_congruent_witness :
  0 <= 123456789012 < 9223372036854775808
  /\ (s32 (montgomery_reduce 123456789012) * 4294967296) mod DILITHIUM_Q
     = 123456789012 mod DILITHIUM_Q
  /\ - DILITHIUM_Q < s32 (montgomery_reduce 123456789012) < 2147483648.
Proof.
  split; [lia|]. apply (dilithium_montgomery_reduce_congruent 123456789012).
  lia.
Defined.

End DilithiumFacts.

(** ** kyber.c: reductions, ciphertext packing, key generation *)

Section KyberArithmetic.
Import CryptoHash Kyber.

(** barrett_reduce: below q the function is the identity only up to 1664;
    from 1665 on it subtracts q once too often and the 16-bit result wraps
    to [a + 62207], which is not below q. *)
Theorem barrett_reduce_below_q (a : Z) :
  0 <= a < KYBER_Q ->
  barrett_reduce a = if a <? 1665 then a else a + 62207.
Proof.
  intros Ha. unfold barrett_reduce, KYBER_Q in *.
  rewrite (u32_small (a * 5039)) by lia.
  rewrite Z.shiftr_div_pow2 by lia. change (2 ^ 23) with 8388608.
  destruct (Z.ltb_spec a 1665) as [Hlo|Hhi].
  - rewrite (Z.div_small (a * 5039)) by lia.
    change (u16 (0 * 3329)) with 0. rewrite Z.sub_0_r.
    unfold u16. change 65535 with (Z.ones 16).
    rewrite Z.land_ones by lia. apply Z.mod_small. lia.
  - assert (Ht : a * 5039 / 8388608 = 1).
    { symmetry. apply (Z.div_unique _ _ 1 (a * 5039 - 8388608)); lia. }
    rewrite Ht. change (u16 (1 * 3329)) with 3329.
    unfold u16. change 65535 with (Z.ones 16).
    rewrite Z.land_ones by lia. change (2 ^ 16) with 65536.
    rewrite <- (Z.mod_add (a - 3329) 1 65536) by lia.
    rewrite Z.mod_small by lia. lia.
Qed.

Lemma barrett_reduce_below_q_witness :
  0 <= 2000 < KYBER_Q
  /\ barrett_reduce 2000 = (if 2000 <? 1665 then 2000 else 2000 + 62207).
Proof.
  split; [unfold KYBER_Q; lia|].
  apply (barrett_reduce_below_q 2000). unfold KYBER_Q; lia.
Defined.

Lemma u16_mod (x : Z) : u16 x = x mod 65536.
Proof.
  unfold u16. change 65535 with (Z.ones 16).
  rewrite Z.land_ones by lia. reflexivity.
Qed.

Lemma u32_mod (x : Z) : u32 x = x mod 4294967296.
Proof.
  unfold u32. change 4294967295 with (Z.ones 32).
  rewrite Z.land_ones by lia. reflexivity.
Qed.

Lemma s16_small (d : Z) : -32768 <= d < 32768 -> s16 d = d.
Proof.
  intros Hd. unfold s16. rewrite u16_mod.
  destruct (Z.lt_ge_cases d 0) as [Hneg|Hnn].
  - assert (Hm : d mod 65536 = d + 65536).
    { rewrite <- (Z.mod_add d 1 65536) by lia. apply Z.mod_small. lia. }
    rewrite Hm. destruct (Z.ltb_spec (d + 65536) 32768); lia.
  - rewrite Z.mod_small by lia. destruct (Z.ltb_spec d 32768); lia.
Qed.

Lemma s16_mod (x : Z) : s16 x mod 65536 = x mod 65536.
Proof.
  unfold s16. rewrite u16_mod.
  destruct (x mod 65536 <? 32768).
  - apply Z.mod_mod. lia.
  - rewrite <- (Z.mod_add _ 1 65536) by lia.
    replace (x mod 65536 - 65536 + 1 * 65536) with (x mod 65536) by lia.
    apply Z.mod_mod. lia.
Qed.

Lemma s16_u16 (x : Z) : s16 (u16 x) = s16 x.
Proof.
  unfold s16. rewrite !u16_mod, Z.mod_mod by lia. reflexivity.
Qed.

(** montgomery_reduce of kyber.c: for every input below 2^31 the result,
    read as a signed 16-bit number [r], satisfies r * 2^16 = a modulo q,
    with -q < r < 2^15. *)
Theorem kyber_montgomery_reduce_congruent (a : Z) :
  0 <= a < 2147483648 ->
  (s16 (montgomery_reduce a) * 65536) mod KYBER_Q = a mod KYBER_Q
  /\ - KYBER_Q < s16 (montgomery_reduce a) < 32768.
Proof.
  intros Ha. unfold montgomery_reduce, KYBER_Q, KYBER_QINV.
  assert (Ht : Z.land (u32 (u32 (s16 a) * 62209)) 65535
               = (a * 62209) mod 65536).
  { change 65535 with (Z.ones 16). rewrite Z.land_ones by lia.
    change (2 ^ 16) with 65536. rewrite !u32_mod.
    rewrite (Z.mod_mod_divide _ 4294967296 65536)
      by (exists 65536; reflexivity).
    rewrite <- Z.mul_mod_idemp_l by lia.
    rewrite (Z.mod_mod_divide _ 4294967296 65536)
      by (exists 65536; reflexivity).
    rewrite s16_mod. rewrite Z.mul_mod_idemp_l by lia. reflexivity. }
  rewrite Ht. set (t := (a * 62209) mod 65536).
  assert (Htr : 0 <= t < 65536) by (apply Z.mod_pos_bound; lia).
  rewrite (u32_small (t * 3329)) by lia.
  assert (Hdiv : exists c, a - t * 3329 = c * 65536).
  { exists (a * 62209 / 65536 * 3329 - a * 3160).
    pose proof (Z.div_mod (a * 62209) 65536 ltac:(lia)) as Hdm.
    fold t in Hdm. lia. }
  destruct Hdiv as [c Hc]. rewrite Hc.
  assert (Hcr : - 3329 < c < 32768) by lia.
  assert (Hsh : Z.shiftr (u32 (c * 65536)) 16 = c mod 65536).
  { rewrite u32_mod, Z.shiftr_div_pow2 by lia.
    change 4294967296 with (65536 * 65536). change (2 ^ 16) with 65536.
    rewrite Z.mul_mod_distr_r by lia. apply Z.div_mul. lia. }
  rewrite Hsh. rewrite <- u16_mod, !s16_u16, s16_small by lia.
  split; [|lia].
  rewrite <- Hc.
  replace (a - t * 3329) with (a + (- t) * 3329) by lia.
  apply Z.mod_add. lia.
Qed.

Lemma kyber_montgomery_reduce_congruent_witness :
  0 <= 123456789 < 2147483648
  /\ (s16 (montgomery_reduce 123456789) * 65536) mod KYBER_Q
     = 123456789 mod KYBER_Q
  /\ - KYBER_Q < s16 (montgomery_reduce 123456789) < 32768.
Proof.
  split; [lia|]. apply (kyber_montgomery_reduce_congruent 123456789). lia.
Defined.

End KyberArithmetic.

Section KyberPacking.
Import CryptoHash Kyber.

Lemma u8_mod (x : Z) : u8 x = x mod 2 ^ 8.
Proof.
  unfold u8. change 255 with (Z.ones 8).
  rewrite Z.land_ones by lia. reflexivity.
Qed.

Lemma u8_eq_low_bits (x y : Z) :
  (forall n, 0 <= n < 8 -> Z.testbit x n = Z.testbit y n) -> u8 x = u8 y.
Proof.
  intros H. rewrite !u8_mod. apply Z.bits_inj'. intros n Hn.
  destruct (Z.lt_ge_cases n 8) as [Hlo|Hhi].
  - rewrite !Z.mod_pow2_bits_low by lia. apply H. lia.
  - rewrite !Z.mod_pow2_bits_high by lia. reflexivity.
Qed.

Lemma u8_lor_r (x y y' : Z) :
  u8 y = u8 y' -> u8 (Z.lor x y) = u8 (Z.lor x y').
Proof.
  intros H. unfold u8 in *. rewrite !Z.land_lor_distr_l, H. reflexivity.
Qed.

(** pack_bits: a coefficient is written into the byte at its bit offset
    and the byte after it only, so with bit offset [sh] within the byte
    the bits of the coefficient from position [16 - sh] on are never
    stored.  For [KYBER_DU = 11] and [sh] = 6 or 7 (every coefficient with
    index 2 or 5 modulo 8) these are the top one or two bits of the
    compressed value. *)
Theorem pack_bits_drops_high_bits (d idx : nat) (c : Z) (buf : list Z) :
  pack_bits d idx c buf
  = pack_bits d idx (c mod 2 ^ (16 - Z.of_nat (idx * d mod 8))) buf.
Proof.
  unfold pack_bits.
  set (sh := (idx * d mod 8)%nat).
  assert (Hsh : (sh < 8)%nat) by (subst sh; apply Nat.mod_upper_bound; lia).
  set (c' := c mod 2 ^ (16 - Z.of_nat sh)).
  assert (E1 : u8 (Z.shiftl c (Z.of_nat sh)) = u8 (Z.shiftl c' (Z.of_nat sh))).
  { apply u8_eq_low_bits. intros n Hn.
    rewrite !Z.shiftl_spec by lia. subst c'.
    destruct (Z.lt_ge_cases (n - Z.of_nat sh) 0) as [Hneg|Hnn].
    - rewrite !Z.testbit_neg_r by lia. reflexivity.
    - rewrite Z.mod_pow2_bits_low by lia. reflexivity. }
  assert (E2 : u8 (Z.shiftr c (8 - Z.of_nat sh))
               = u8 (Z.shiftr c' (8 - Z.of_nat sh))).
  { apply u8_eq_low_bits. intros n Hn.
    rewrite !Z.shiftr_spec by lia. subst c'.
    rewrite Z.mod_pow2_bits_low by lia. reflexivity. }
  rewrite (u8_lor_r _ _ _ E1).
  destruct (8 <? sh + d)%nat; [|reflexivity].
  rewrite (u8_lor_r _ _ _ E2). reflexivity.
Qed.

Lemma land_lor_keep (old x : Z) :
  0 <= old < 256 -> Z.land old (u8 (Z.lor old x)) = old.
Proof.
  intros Hold. rewrite u8_mod.
  assert (Hb : old = old mod 2 ^ 8) by (symmetry; apply Z.mod_small; lia).
  apply Z.bits_inj'. intros n Hn. rewrite Z.land_spec.
  destruct (Z.lt_ge_cases n 8) as [Hlo|Hhi].
  - rewrite Z.mod_pow2_bits_low by lia. rewrite Z.lor_spec.
    destruct (Z.testbit old n); reflexivity.
  - rewrite Hb at 1 3. rewrite !Z.mod_pow2_bits_high by lia. reflexivity.
Qed.

Lemma u8_is_byte (x : Z) : is_byte (u8 x).
Proof.
  unfold is_byte. rewrite u8_mod. apply Z.mod_pos_bound. reflexivity.
Qed.

(** OR-ing into one byte keeps every bit that was set anywhere in the
    buffer. *)
Lemma or_into_byte_keeps (buf0 buf : list Z) (p : nat) (x : Z) :
  Forall is_byte buf ->
  (forall i, Z.land (rd buf0 i) (rd buf i) = rd buf0 i) ->
  Forall is_byte (<[p := u8 (Z.lor (rd buf p) x)]> buf)
  /\ (forall i, Z.land (rd buf0 i)
                  (rd (<[p := u8 (Z.lor (rd buf p) x)]> buf) i)
                = rd buf0 i).
Proof.
  intros Hb Hk. split.
  - apply Forall_insert; [exact Hb|apply u8_is_byte].
  - intros i. destruct (Nat.eq_dec i p) as [->|Hne].
    + destruct (Nat.lt_ge_cases p (length buf)) as [Hp|Hp].
      * unfold rd at 2. rewrite list_lookup_insert_eq by exact Hp.
        cbn [default from_option id].
        rewrite <- (Hk p) at 1.
        rewrite <- Z.land_assoc.
        rewrite land_lor_keep by (apply rd_byte; exact Hb).
        apply Hk.
      * rewrite list_insert_ge by exact Hp. apply Hk.
    + unfold rd at 2. rewrite list_lookup_insert_ne by congruence.
      apply Hk.
Qed.

Lemma pack_bits_keeps (buf0 buf : list Z) (d idx : nat) (c : Z) :
  Forall is_byte buf
  /\ (forall i, Z.land (rd buf0 i) (rd buf i) = rd buf0 i) ->
  Forall is_byte (pack_bits d idx c buf)
  /\ (forall i, Z.land (rd buf0 i) (rd (pack_bits d idx c buf) i)
                = rd buf0 i).
Proof.
  intros [Hb Hk]. unfold pack_bits.
  destruct (or_into_byte_keeps buf0 buf (idx * d / 8)
              (Z.shiftl c (Z.of_nat (idx * d mod 8))) Hb Hk) as [Hb1 Hk1].
  destruct (8 <? idx * d mod 8 + d)%nat; [|split; assumption].
  apply or_into_byte_keeps; assumption.
Qed.

Lemma land_byte_diag (l : list Z) (i : nat) :
  Z.land (rd l i) (rd l i) = rd l i.
Proof. apply Z.land_diag. Qed.

Lemma pack_ciphertext_keeps (ct0 : kyber_ciphertext_t) (u : list (list Z))
  (v : list Z) :
  Forall is_byte (ct_u ct0) -> Forall is_byte (ct_v ct0) ->
  (forall i, Z.land (rd (ct_u ct0) i)
               (rd (ct_u (pack_ciphertext ct0 u v)) i) = rd (ct_u ct0) i)
  /\ (forall i, Z.land (rd (ct_v ct0) i)
                  (rd (ct_v (pack_ciphertext ct0 u v)) i) = rd (ct_v ct0) i).
Proof.
  intros Hu Hv. unfold pack_ciphertext. cbn [ct_u ct_v]. split.
  - apply (for_range_inv (fun buf =>
      Forall is_byte buf
      /\ forall i, Z.land (rd (ct_u ct0) i) (rd buf i) = rd (ct_u ct0) i)).
    + intros i buf Hinv.
      apply (for_range_inv (fun buf =>
        Forall is_byte buf
        /\ forall i, Z.land (rd (ct_u ct0) i) (rd buf i) = rd (ct_u ct0) i));
        [|exact Hinv].
      intros j buf' Hinv'. apply pack_bits_keeps. exact Hinv'.
    + split; [exact Hu|intros i; apply Z.land_diag].
  - apply (for_range_inv (fun buf =>
      Forall is_byte buf
      /\ forall i, Z.land (rd (ct_v ct0) i) (rd buf i) = rd (ct_v ct0) i)).
    + intros i buf Hinv. apply pack_bits_keeps. exact Hinv.
    + split; [exact Hv|intros i; apply Z.land_diag].
Qed.

(** kyber_encapsulate ORs the packed ciphertext into the caller's buffer
    without clearing it first: every bit that is set in the buffer on
    entry is still set in the ciphertext that is returned. *)
Theorem kyber_encapsulate_ors_into_buffer (ct0 : kyber_ciphertext_t)
  (ss0 : list Z) (pk : kyber_public_key_t) (tape : list Z) :
  (32 <= length tape)%nat ->
  Forall is_byte (ct_u ct0) -> Forall is_byte (ct_v ct0) ->
  exists ct1 ss1,
    kyber_encapsulate (Some ct0) (Some ss0) (Some pk) tape
    = (PQC_SUCCESS, Some ct1, Some ss1, drop 32 tape)
    /\ (forall i, Z.land (rd (ct_u ct0) i) (rd (ct_u ct1) i)
                  = rd (ct_u ct0) i)
    /\ (forall i, Z.land (rd (ct_v ct0) i) (rd (ct_v ct1) i)
                  = rd (ct_v ct0) i).
Proof.
  intros Htape Hu Hv.
  rewrite kyber_encapsulate_success by exact Htape.
  eexists _, _. split; [reflexivity|].
  unfold encaps_ct. apply pack_ciphertext_keeps; assumption.
Qed.

Lemma kyber_encapsulate_ors_into_buffer_witness :
  (32 <= length (replicate 32 0))%nat
  /\ Forall is_byte (ct_u ct_ff) /\ Forall is_byte (ct_v ct_ff)
  /\ exists ct1 ss1,
       kyber_encapsulate (Some ct_ff) (Some (replicate 32 0)) (Some pk_zero)
         (replicate 32 0)
       = (PQC_SUCCESS, Some ct1, Some ss1, drop 32 (replicate 32 0))
       /\ (forall i, Z.land (rd (ct_u ct_ff) i) (rd (ct_u ct1) i)
                     = rd (ct_u ct_ff) i)
       /\ (forall i, Z.land (rd (ct_v ct_ff) i) (rd (ct_v ct1) i)
                     = rd (ct_v ct_ff) i).
Proof.
  assert (H1 : (32 <= length (replicate 32 0))%nat) by (simpl; lia).
  assert (H2 : Forall is_byte (ct_u ct_ff))
    by (apply Forall_replicate; unfold is_byte; lia).
  assert (H3 : Forall is_byte (ct_v ct_ff))
    by (apply Forall_replicate; unfold is_byte; lia).
  split; [exact H1|]. split; [exact H2|]. split; [exact H3|].
  exact (kyber_encapsulate_ors_into_buffer ct_ff (replicate 32 0) pk_zero
           (replicate 32 0) H1 H2 H3).
Defined.

(** kyber_keypair checks the first two draws from the random source but
    not the third: when the source delivers 64 bytes and then runs short,
    the call still reports success, and the tail of [z] is whatever the
    secret-key buffer held before. *)
Theorem kyber_keypair_ignores_short_z_draw (pk0 : kyber_public_key_t)
  (sk0 : kyber_secret_key_t) (tape : list Z) :
  (64 <= length tape < 96)%nat -> length (sk_z sk0) = 32%nat ->
  exists pk sk,
    kyber_keypair (Some pk0) (Some sk0) tape
    = (PQC_SUCCESS, Some pk, Some sk, [])
    /\ sk_z sk = drop 64 tape ++ drop (length tape - 64) (sk_z sk0).
Proof.
  intros Htape Hz.
  assert (E1 : pqc_randombytes (Some (replicate 32 0)) 32 tape
               = (PQC_SUCCESS, Some (take 32 tape), drop 32 tape)).
  { apply pqc_randombytes_enough;
      [discriminate|apply length_replicate|lia]. }
  assert (E2 : pqc_randombytes (Some (replicate 32 0)) 32 (drop 32 tape)
               = (PQC_SUCCESS, Some (take 32 (drop 32 tape)), drop 64 tape)).
  { rewrite pqc_randombytes_enough;
      [|discriminate|apply length_replicate|rewrite length_drop; lia].
    rewrite drop_drop. reflexivity. }
  assert (E3 : pqc_randombytes (Some (sk_z sk0)) 32 (drop 64 tape)
               = (PQC_ERROR_RANDOM_GENERATION,
                  Some (drop 64 tape ++ drop (length tape - 64) (sk_z sk0)),
                  [])).
  { unfold pqc_randombytes. change (32 =? 0)%nat with false. cbv iota.
    assert (Hshort : take 32 (drop 64 tape) = drop 64 tape)
      by (apply take_ge; rewrite length_drop; lia).
    rewrite Hshort.
    change (Datatypes.length (drop 64 tape)) with (length (drop 64 tape)).
    rewrite length_drop.
    destruct (Nat.eqb_spec (length tape - 64) 32) as [Heq|_]; [lia|].
    cbn [negb]. rewrite drop_drop.
    rewrite (drop_ge tape (64 + 32)) by lia.
    unfold memcpy_at. rewrite take_0, length_drop. reflexivity. }
  unfold kyber_keypair.
  rewrite E1. cbn [is_success negb].
  rewrite E2. cbn [is_success negb default from_option id].
  rewrite E3.
  eexists _, _. split; [reflexivity|]. reflexivity.
Qed.

Lemma kyber_keypair_ignores_short_z_draw_witness :
  (64 <= length (replicate 70 1) < 96)%nat
  /\ length (sk_z sk_zero) = 32%nat
  /\ exists pk sk,
       kyber_keypair (Some pk_zero) (Some sk_zero) (replicate 70 1)
       = (PQC_SUCCESS, Some pk, Some sk, [])
       /\ sk_z sk = drop 64 (replicate 70 1)
                    ++ drop (length (replicate 70 1) - 64) (sk_z sk_zero).
Proof.
  assert (H1 : (64 <= length (replicate 70 1) < 96)%nat) by (simpl; lia).
  assert (H2 : length (sk_z sk_zero) = 32%nat) by reflexivity.
  split; [exact H1|]. split; [exact H2|].
  exact (kyber_keypair_ignores_short_z_draw pk_zero sk_zero (replicate 70 1)
           H1 H2).
Defined.

End KyberPacking.

(** ** tmp2_interface.c: quotes, keys and the self test *)

Section TpmFacts.
Import CryptoHash Tpm2.

Lemma quote_header (data : list Z) (m : Z) :
  (5 <= length data)%nat ->
  <[4%nat := m]> (<[3%nat := 0x32]> (<[2%nat := 0x4D]>
    (<[1%nat := 0x50]> (<[0%nat := 0x54]> data))))
  = [0x54; 0x50; 0x4D; 0x32; m] ++ drop 5 data.
Proof.
  intros Hlen.
  destruct data as [|a data]; [simpl in Hlen; lia|].
  destruct data as [|b data]; [simpl in Hlen; lia|].
  destruct data as [|c data]; [simpl in Hlen; lia|].
  destruct data as [|d data]; [simpl in Hlen; lia|].
  destruct data as [|e data]; [simpl in Hlen; lia|].
  reflexivity.
Qed.

Lemma filter_seq_S (f : nat -> bool) (k : nat) :
  List.filter f (seq 0 (S k))
  = List.filter f (seq 0 k) ++ (if f k then [k] else []).
Proof. rewrite seq_S, List.filter_app. reflexivity. Qed.

Lemma memcpy_at_end (pre data src : list Z) :
  (length pre + length src <= length data)%nat ->
  memcpy_at (pre ++ drop (length pre) data) (length pre) src
  = (pre ++ src) ++ drop (length (pre ++ src)) data.
Proof.
  intros Hlen. unfold memcpy_at.
  rewrite take_app_length.
  rewrite drop_app_ge by lia.
  rewrite drop_drop, length_app, <- app_assoc.
  f_equal. f_equal. f_equal. lia.
Qed.

(** tpm2_quote: on an initialised TPM and with a buffer that is large
    enough, the quote is the four bytes "TPM2", the mask byte and the
    selected 32-byte registers in increasing order; it carries no nonce
    and no signature, and its length is 5 + 32 * (number of selected
    registers).  The rest of the buffer is not touched. *)
Theorem tpm2_quote_layout (pcr_mask : Z) (data : list Z) (max : nat)
  (st : tpm_state_t) :
  initialized st = true -> tpm_wf st ->
  (length (quote_bytes pcr_mask st) <= max)%nat ->
  (length (quote_bytes pcr_mask st) <= length data)%nat ->
  tpm2_quote pcr_mask (Some data) (Some max) st
  = (PQC_SUCCESS,
     Some (quote_bytes pcr_mask st
           ++ drop (length (quote_bytes pcr_mask st)) data),
     Some (length (quote_bytes pcr_mask st)))
  /\ length (quote_bytes pcr_mask st)
     = (5 + 32 * length (quote_selected pcr_mask))%nat.
Proof.
  intros Hinit Hwf Hmax Hdata.
  set (quote := quote_bytes pcr_mask st) in *.
  set (sel := fun i : nat =>
                negb (Z.land pcr_mask (Z.shiftl 1 (Z.of_nat i)) =? 0)).
  set (pre := fun k : nat =>
                [0x54; 0x50; 0x4D; 0x32; pcr_mask]
                ++ concat (map (pcr (pcr_values st))
                                (List.filter sel (seq 0 k)))).
  assert (Hquote : quote = pre MAX_PCR_REGISTERS) by reflexivity.
  assert (Hstep : forall k, (k < MAX_PCR_REGISTERS)%nat ->
            pre (S k) = pre k ++ (if sel k then pcr (pcr_values st) k
                                  else [])).
  { intros k Hk. unfold pre. rewrite filter_seq_S, map_app, concat_app.
    rewrite <- app_assoc. destruct (sel k); simpl;
      rewrite ?app_nil_r; reflexivity. }
  assert (Hlen : forall k, (k < MAX_PCR_REGISTERS)%nat ->
            length (pre (S k))
            = (length (pre k) + (if sel k then 32 else 0))%nat).
  { intros k Hk. rewrite Hstep, length_app by exact Hk.
    destruct (sel k); [|reflexivity].
    rewrite pcr_length by assumption. reflexivity. }
  assert (Hmono : forall k, (k <= MAX_PCR_REGISTERS)%nat ->
            (length (pre k) <= length (pre MAX_PCR_REGISTERS))%nat
            /\ length (pre k)
               = (5 + 32 * length (List.filter sel (seq 0 k)))%nat).
  { assert (Hexact : forall k, (k <= MAX_PCR_REGISTERS)%nat ->
              length (pre k)
              = (5 + 32 * length (List.filter sel (seq 0 k)))%nat).
    { induction k as [|k IH]; intros Hk; [reflexivity|].
      rewrite Hlen, IH, filter_seq_S, length_app by lia.
      destruct (sel k); simpl; lia. }
    intros k Hk. split; [|apply Hexact; exact Hk].
    rewrite !Hexact by lia.
    replace MAX_PCR_REGISTERS with (k + (MAX_PCR_REGISTERS - k))%nat at 1
      by lia.
    rewrite seq_app, List.filter_app, length_app. lia. }
  split; [|rewrite Hquote; apply (Hmono MAX_PCR_REGISTERS); lia].
  assert (H5 : (5 <= length quote)%nat)
    by (rewrite Hquote, (proj2 (Hmono MAX_PCR_REGISTERS (Nat.le_refl _)));
        lia).
  unfold tpm2_quote. rewrite Hinit. cbn [negb].
  destruct (Nat.ltb_spec max (0 + 4)) as [Hlt|_]; [lia|].
  destruct (Nat.ltb_spec max (4 + 1)) as [Hlt|_]; [lia|].
  rewrite quote_header by lia.
  pose (P := fun (k : nat) (s : list Z * nat * bool) =>
               s = (pre k ++ drop (length (pre k)) data, length (pre k),
                    true)).
  assert (HP : P (0 + MAX_PCR_REGISTERS)%nat
    (@for_range (list Z * nat * bool) 0 MAX_PCR_REGISTERS
       (fun i '(data, offset, ok) =>
          if ok then
            if negb (Z.land pcr_mask (Z.shiftl 1 (Z.of_nat i)) =? 0) then
              if (max <? offset + 32)%nat
              then (data, offset, false)
              else (memcpy_at data offset (pcr (pcr_values st) i),
                    (offset + 32)%nat, true)
            else (data, offset, true)
          else (data, offset, false))
       ([0x54; 0x50; 0x4D; 0x32; pcr_mask] ++ drop 5 data, 5%nat, true))).
  { apply for_range_inv_idx; [reflexivity|].
    intros k s Hk HPk. unfold P in HPk. subst s. unfold P.
    fold (sel k). rewrite (Hstep k) by lia.
    pose proof (Hlen k ltac:(lia)) as Hl.
    pose proof (proj1 (Hmono (S k) ltac:(lia))) as Hm.
    rewrite <- Hquote in Hm.
    destruct (sel k).
    - assert (Hp : length (pcr (pcr_values st) k) = 32%nat)
        by (apply pcr_length; [exact Hwf|lia]).
      destruct (Nat.ltb_spec max (length (pre k) + 32)) as [Hlt|_]; [lia|].
      rewrite memcpy_at_end by (rewrite Hp; lia).
      rewrite length_app, Hp. reflexivity.
    - rewrite app_nil_r. reflexivity. }
  unfold P in HP. rewrite HP. reflexivity.
Qed.


Lemma tpm2_quote_layout_witness :
  let st := {| initialized := true;
               pcr_values := replicate MAX_PCR_REGISTERS (replicate 32 7);
               pcr_allocated := replicate MAX_PCR_REGISTERS true;
               extend_count := replicate MAX_PCR_REGISTERS 0 |} in
  initialized st = true /\ tpm_wf st
  /\ (length (quote_bytes 5 st) <= 100)%nat
  /\ (length (quote_bytes 5 st) <= length (replicate 100 0))%nat
  /\ tpm2_quote 5 (Some (replicate 100 0)) (Some 100%nat) st
     = (PQC_SUCCESS,
        Some (quote_bytes 5 st
              ++ drop (length (quote_bytes 5 st)) (replicate 100 0)),
        Some (length (quote_bytes 5 st)))
  /\ length (quote_bytes 5 st) = (5 + 32 * length (quote_selected 5))%nat.
Proof.
  intros st.
  assert (H1 : initialized st = true) by reflexivity.
  assert (H2 : tpm_wf st).
  { repeat split; try reflexivity. apply Forall_replicate. reflexivity. }
  assert (H3 : (length (quote_bytes 5 st) <= 100)%nat)
    by (vm_compute; lia).
  assert (H4 : (length (quote_bytes 5 st) <= length (replicate 100 0))%nat)
    by (vm_compute; lia).
  split; [exact H1|]. split; [exact H2|]. split; [exact H3|].
  split; [exact H4|].
  exact (tpm2_quote_layout 5 (replicate 100 0) 100 st H1 H2 H3 H4).
Defined.

Lemma rd_map_seq (f : nat -> Z) (n i : nat) :
  (i < n)%nat -> rd (map f (seq 0 n)) i = f i.
Proof.
  intros Hi. unfold rd.
  rewrite list_lookup_fmap, lookup_seq_lt by exact Hi. reflexivity.
Qed.

Lemma secure_memcmp_same_prefix (a b : list Z) (n : nat) :
  (forall i, (i < n)%nat -> rd a i = rd b i) ->
  secure_memcmp (Some a) (Some b) n = 0.
Proof.
  intros H. unfold secure_memcmp.
  rewrite (for_range_ext _ (fun _ result => u8 (Z.lor result 0)) n 0).
  2:{ intros i r Hi. rewrite H by lia. rewrite Z.lxor_nilpotent.
      reflexivity. }
  rewrite (for_range_inv (fun r => r = 0)
             (fun _ result => u8 (Z.lor result 0)));
    [reflexivity| |reflexivity].
  intros i r ->. reflexivity.
Qed.

(** What a call of [tpm2_sign] with valid arguments writes. *)
Lemma tpm2_sign_success (key_handle : Z) (d : list Z) (n : nat)
  (sg : list Z) (cap : nat) (st : tpm_state_t) :
  initialized st = true -> n <> 0%nat -> (256 <= cap)%nat ->
  (256 <= length sg)%nat ->
  tpm2_sign key_handle (Some d) n (Some sg) (Some cap) st
  = (PQC_SUCCESS,
     Some (map (fun i =>
                  u8 (Z.lxor
                        (rd (map (rd d) (seq 0 n)
                             ++ key_handle_bytes key_handle)
                            (i mod (n + 4)))
                        (Z.land (Z.of_nat i) 0xFF)))
               (seq 0 256)
           ++ drop 256 sg),
     Some 256%nat).
Proof.
  intros Hinit Hn Hcap Hsg. unfold tpm2_sign.
  rewrite Hinit. cbn [negb].
  destruct (Nat.eqb_spec n 0) as [|_]; [contradiction|].
  destruct (Nat.ltb_spec cap 256) as [|_]; [lia|].
  cbv zeta.
  rewrite (for_range_pointwise
             (fun i _ =>
                u8 (Z.lxor
                      (rd (map (rd d) (seq 0 n)
                           ++ key_handle_bytes key_handle)
                          (i mod (n + 4)))
                      (Z.land (Z.of_nat i) 0xFF)))) by exact Hsg.
  reflexivity.
Qed.

(** [tpm2_verify] recomputes the mock signature and compares. *)
Lemma tpm2_verify_of_signed (key_handle : Z) (d : list Z) (n : nat)
  (tail : list Z) (st : tpm_state_t) :
  initialized st = true -> n <> 0%nat ->
  tpm2_verify key_handle (Some d) n
    (Some (map (fun i =>
                  u8 (Z.lxor
                        (rd (map (rd d) (seq 0 n)
                             ++ key_handle_bytes key_handle)
                            (i mod (n + 4)))
                        (Z.land (Z.of_nat i) 0xFF)))
               (seq 0 256)
           ++ tail)) 256 st
  = PQC_SUCCESS.
Proof.
  intros Hinit Hn.
  unfold tpm2_verify. rewrite Hinit. cbn [negb].
  destruct (Nat.eqb_spec n 0) as [|_]; [contradiction|].
  cbn [orb Nat.eqb].
  rewrite tpm2_sign_success
    by (first [assumption | rewrite length_replicate; lia | lia]).
  cbn [is_success negb default from_option id].
  rewrite secure_memcmp_same_prefix; [reflexivity|].
  intros i Hi.
  rewrite !rd_app_l by (rewrite length_map, length_seq; exact Hi).
  reflexivity.
Qed.

(** tpm2_sign and tpm2_verify agree: a signature made by [tpm2_sign] for
    some data and key handle is accepted by [tpm2_verify] for the same
    data and handle. *)
Theorem tpm2_verify_accepts_tpm2_sign (key_handle : Z) (d : list Z)
  (n : nat) (sg : list Z) (cap : nat) (st : tpm_state_t) :
  initialized st = true -> n <> 0%nat -> (256 <= cap)%nat ->
  (256 <= length sg)%nat ->
  exists sg',
    tpm2_sign key_handle (Some d) n (Some sg) (Some cap) st
    = (PQC_SUCCESS, Some sg', Some 256%nat)
    /\ tpm2_verify key_handle (Some d) n (Some sg') 256 st = PQC_SUCCESS.
Proof.
  intros Hinit Hn Hcap Hsg.
  rewrite tpm2_sign_success by assumption.
  eexists. split; [reflexivity|].
  apply tpm2_verify_of_signed; assumption.
Qed.

Lemma tpm2_verify_accepts_tpm2_sign_witness :
  let st := {| initialized := true;
               pcr_values := replicate MAX_PCR_REGISTERS (replicate 32 0);
               pcr_allocated := replicate MAX_PCR_REGISTERS true;
               extend_count := replicate MAX_PCR_REGISTERS 0 |} in
  initialized st = true /\ 3%nat <> 0%nat /\ (256 <= 256)%nat
  /\ (256 <= length (replicate 256 0))%nat
  /\ exists sg',
       tpm2_sign 2147483649 (Some [1; 2; 3]) 3 (Some (replicate 256 0))
         (Some 256%nat) st
       = (PQC_SUCCESS, Some sg', Some 256%nat)
       /\ tpm2_verify 2147483649 (Some [1; 2; 3]) 3 (Some sg') 256 st
          = PQC_SUCCESS.
Proof.
  intros st.
  assert (H1 : initialized st = true) by reflexivity.
  assert (H2 : 3%nat <> 0%nat) by discriminate.
  assert (H3 : (256 <= 256)%nat) by lia.
  assert (H4 : (256 <= length (replicate 256 0))%nat)
    by (rewrite length_replicate; lia).
  split; [exact H1|]. split; [exact H2|]. split; [exact H3|].
  split; [exact H4|].
  exact (tpm2_verify_accepts_tpm2_sign 2147483649 [1; 2; 3] 3
           (replicate 256 0) 256 st H1 H2 H3 H4).
Defined.

(** The mock signature covers only the first 256 bytes of the data
    followed by the key handle.  For data of 256 bytes or more the key
    handle is never reached: a signature made with one handle is accepted
    under every other handle, and for every other data that starts with
    the same 256 bytes. *)
Theorem tpm2_verify_long_data_any_key (key_handle key_handle' : Z)
  (d d' : list Z) (n n' : nat) (sg : list Z) (cap : nat)
  (st : tpm_state_t) :
  initialized st = true -> (256 <= n)%nat -> (256 <= n')%nat ->
  take 256 d = take 256 d' ->
  (256 <= cap)%nat -> (256 <= length sg)%nat ->
  exists sg',
    tpm2_sign key_handle (Some d) n (Some sg) (Some cap) st
    = (PQC_SUCCESS, Some sg', Some 256%nat)
    /\ tpm2_verify key_handle' (Some d') n' (Some sg') 256 st = PQC_SUCCESS.
Proof.
  intros Hinit Hn Hn' Htake Hcap Hsg.
  rewrite tpm2_sign_success by (first [assumption | lia]).
  eexists. split; [reflexivity|].
  unfold tpm2_verify. rewrite Hinit. cbn [negb].
  destruct (Nat.eqb_spec n' 0) as [|_]; [lia|].
  cbn [orb Nat.eqb].
  rewrite tpm2_sign_success
    by (first [assumption | rewrite length_replicate; lia | lia]).
  cbn [is_success negb default from_option id].
  rewrite secure_memcmp_same_prefix; [reflexivity|].
  intros i Hi.
  rewrite !rd_app_l by (rewrite length_map, length_seq; exact Hi).
  rewrite !rd_map_seq by exact Hi.
  f_equal. f_equal.
  rewrite !Nat.mod_small by lia.
  rewrite !rd_app_l by (rewrite length_map, length_seq; lia).
  rewrite !rd_map_seq by lia.
  unfold rd.
  rewrite <- (lookup_take_lt d 256 i), <- (lookup_take_lt d' 256 i)
    by exact Hi.
  rewrite Htake. reflexivity.
Qed.

Lemma tpm2_verify_long_data_any_key_witness :
  let st := {| initialized := true;
               pcr_values := replicate MAX_PCR_REGISTERS (replicate 32 0);
               pcr_allocated := replicate MAX_PCR_REGISTERS true;
               extend_count := replicate MAX_PCR_REGISTERS 0 |} in
  initialized st = true /\ (256 <= 256)%nat /\ (256 <= 257)%nat
  /\ take 256 (replicate 256 1) = take 256 (replicate 256 1 ++ [9])
  /\ (256 <= 256)%nat /\ (256 <= length (replicate 256 0))%nat
  /\ exists sg',
       tpm2_sign 2147483649 (Some (replicate 256 1)) 256
         (Some (replicate 256 0)) (Some 256%nat) st
       = (PQC_SUCCESS, Some sg', Some 256%nat)
       /\ tpm2_verify 2147483650 (Some (replicate 256 1 ++ [9])) 257
            (Some sg') 256 st
          = PQC_SUCCESS.
Proof.
  intros st.
  assert (H1 : initialized st = true) by reflexivity.
  assert (H2 : (256 <= 256)%nat) by lia.
  assert (H3 : (256 <= 257)%nat) by lia.
  assert (H4 : take 256 (replicate 256 1) = take 256 (replicate 256 1 ++ [9]))
    by (vm_compute; reflexivity).
  assert (H5 : (256 <= length (replicate 256 0))%nat)
    by (rewrite length_replicate; lia).
  split; [exact H1|]. split; [exact H2|]. split; [exact H3|].
  split; [exact H4|]. split; [exact H2|]. split; [exact H5|].
  exact (tpm2_verify_long_data_any_key 2147483649 2147483650
           (replicate 256 1) (replicate 256 1 ++ [9]) 256 257
           (replicate 256 0) 256 st H1 H2 H3 H4 H2 H5).
Defined.


Lemma tpm2_read_pcr_initialized (i : nat) (buf : list Z) (st : tpm_state_t) :
  initialized st = true -> tpm_wf st -> (i < MAX_PCR_REGISTERS)%nat ->
  flag (pcr_allocated st) i = true -> length buf = 32%nat ->
  tpm2_read_pcr i (Some buf) st = (PQC_SUCCESS, Some (pcr (pcr_values st) i)).
Proof.
  intros Hinit Hwf Hi Halloc Hbuf. unfold tpm2_read_pcr.
  rewrite Hinit, Halloc. cbn [negb].
  destruct (Nat.leb_spec MAX_PCR_REGISTERS i) as [Hge|_]; [lia|].
  rewrite memcpy_at_0_full by (rewrite pcr_length by assumption; exact Hbuf).
  reflexivity.
Qed.

(** tmp2_reset_pcr: on an initialised TPM any register below 8 can be set
    back to 32 zero bytes, with its extend counter back at 0, by a plain
    call; the other registers and counters are not touched. *)
Theorem tmp2_reset_pcr_clears_register (i : nat) (buf : list Z)
  (st : tpm_state_t) :
  initialized st = true -> tpm_wf st -> (i < MAX_PCR_REGISTERS)%nat ->
  flag (pcr_allocated st) i = true -> length buf = 32%nat ->
  tpm2_read_pcr i (Some buf) (tmp2_reset_pcr i st)
  = (PQC_SUCCESS, Some (replicate 32 0))
  /\ tpm2_get_extend_count i (tmp2_reset_pcr i st) = 0
  /\ (forall j, j <> i ->
        pcr (pcr_values (tmp2_reset_pcr i st)) j = pcr (pcr_values st) j
        /\ rd (extend_count (tmp2_reset_pcr i st)) j
           = rd (extend_count st) j).
Proof.
  intros Hinit Hwf Hi Halloc Hbuf.
  destruct Hwf as (Hlv & Hlc & Hall).
  unfold tmp2_reset_pcr. rewrite Hinit. cbn [negb orb].
  destruct (Nat.leb_spec MAX_PCR_REGISTERS i) as [Hge|_]; [lia|].
  split; [|split].
  - unfold tpm2_read_pcr. cbn [initialized pcr_allocated pcr_values negb].
    rewrite Halloc. cbn [negb].
    destruct (Nat.leb_spec MAX_PCR_REGISTERS i) as [Hge|_]; [lia|].
    rewrite pcr_insert_eq by lia.
    rewrite memcpy_at_0_full by (rewrite length_replicate; exact Hbuf).
    reflexivity.
  - unfold tpm2_get_extend_count. cbn [initialized extend_count negb orb].
    destruct (Nat.leb_spec MAX_PCR_REGISTERS i) as [Hge|_]; [lia|].
    apply rd_insert_eq. lia.
  - intros j Hj. cbn [pcr_values extend_count]. split.
    + apply pcr_insert_ne. congruence.
    + apply rd_insert_ne. congruence.
Qed.

Lemma tmp2_reset_pcr_clears_register_witness :
  let st := {| initialized := true;
               pcr_values := replicate MAX_PCR_REGISTERS (replicate 32 9);
               pcr_allocated := replicate MAX_PCR_REGISTERS true;
               extend_count := replicate MAX_PCR_REGISTERS 4 |} in
  initialized st = true /\ tpm_wf st /\ (3 < MAX_PCR_REGISTERS)%nat
  /\ flag (pcr_allocated st) 3 = true /\ length (replicate 32 1) = 32%nat
  /\ tpm2_read_pcr 3 (Some (replicate 32 1)) (tmp2_reset_pcr 3 st)
     = (PQC_SUCCESS, Some (replicate 32 0))
  /\ tpm2_get_extend_count 3 (tmp2_reset_pcr 3 st) = 0
  /\ (forall j, j <> 3%nat ->
        pcr (pcr_values (tmp2_reset_pcr 3 st)) j = pcr (pcr_values st) j
        /\ rd (extend_count (tmp2_reset_pcr 3 st)) j
           = rd (extend_count st) j).
Proof.
  intros st.
  assert (H1 : initialized st = true) by reflexivity.
  assert (H2 : tpm_wf st).
  { repeat split; try reflexivity. apply Forall_replicate. reflexivity. }
  assert (H3 : (3 < MAX_PCR_REGISTERS)%nat) by (unfold MAX_PCR_REGISTERS; lia).
  assert (H4 : flag (pcr_allocated st) 3 = true) by reflexivity.
  assert (H5 : length (replicate 32 1) = 32%nat) by reflexivity.
  split; [exact H1|]. split; [exact H2|]. split; [exact H3|].
  split; [exact H4|]. split; [exact H5|].
  exact (tmp2_reset_pcr_clears_register 3 (replicate 32 1) st H1 H2 H3 H4 H5).
Defined.

Lemma list_length_8 {A : Type} (l : list A) :
  length l = 8%nat ->
  exists a b c d e f g h, l = [a; b; c; d; e; f; g; h].
Proof.
  intros H.
  do 8 (destruct l as [|? l]; [discriminate|]).
  destruct l; [|discriminate].
  repeat eexists.
Qed.

(** tpm2_cleanup followed by tpm2_init starts the bank afresh: whatever
    had been measured, all eight registers are 32 zero bytes again and all
    extend counters are 0. *)
Theorem tpm2_cleanup_init_resets_bank (st : tpm_state_t) :
  initialized st = true -> tpm_wf st ->
  length (pcr_allocated st) = MAX_PCR_REGISTERS ->
  tpm2_init (tpm2_cleanup st)
  = (PQC_SUCCESS,
     {| initialized := true;
        pcr_values := replicate MAX_PCR_REGISTERS (replicate 32 0);
        pcr_allocated := replicate MAX_PCR_REGISTERS true;
        extend_count := replicate MAX_PCR_REGISTERS 0 |}).
Proof.
  intros Hinit (Hlv & Hlc & _) Hla.
  destruct st as [ini vals flags counts]. cbn in Hinit, Hlv, Hlc, Hla.
  subst ini.
  destruct (list_length_8 vals Hlv)
    as (v0 & v1 & v2 & v3 & v4 & v5 & v6 & v7 & ->).
  destruct (list_length_8 flags Hla)
    as (f0 & f1 & f2 & f3 & f4 & f5 & f6 & f7 & ->).
  destruct (list_length_8 counts Hlc)
    as (c0 & c1 & c2 & c3 & c4 & c5 & c6 & c7 & ->).
  reflexivity.
Qed.

Lemma tpm2_cleanup_init_resets_bank_witness :
  let st := {| initialized := true;
               pcr_values := replicate MAX_PCR_REGISTERS (replicate 32 9);
               pcr_allocated := replicate MAX_PCR_REGISTERS true;
               extend_count := replicate MAX_PCR_REGISTERS 4 |} in
  initialized st = true /\ tpm_wf st
  /\ length (pcr_allocated st) = MAX_PCR_REGISTERS
  /\ tpm2_init (tpm2_cleanup st)
     = (PQC_SUCCESS,
        {| initialized := true;
           pcr_values := replicate MAX_PCR_REGISTERS (replicate 32 0);
           pcr_allocated := replicate MAX_PCR_REGISTERS true;
           extend_count := replicate MAX_PCR_REGISTERS 0 |}).
Proof.
  intros st.
  assert (H1 : initialized st = true) by reflexivity.
  assert (H2 : tpm_wf st).
  { repeat split; try reflexivity. apply Forall_replicate. reflexivity. }
  assert (H3 : length (pcr_allocated st) = MAX_PCR_REGISTERS) by reflexivity.
  split; [exact H1|]. split; [exact H2|]. split; [exact H3|].
  exact (tpm2_cleanup_init_resets_bank st H1 H2 H3).
Defined.

(** tpm2_self_test is not free of side effects: on an initialised TPM it
    extends register 7 with the measurement 0xAA..AA and leaves it
    extended (the register holds the digest of the code's [sha3_256] for
    the old value followed by 32 bytes 0xAA), and when the test passes it
    has used up one key handle.  It reports a hardware failure exactly
    when the extension left the register unchanged. *)
Theorem tpm2_self_test_extends_pcr7 (st : tpm_state_t) (next_handle : Z) :
  initialized st = true -> tpm_wf st ->
  flag (pcr_allocated st) 7 = true ->
  tpm2_self_test st next_handle
  = (let st' := snd (tmp2_extend_pcr 7 (Some (replicate 32 0xAA)) st) in
     if secure_memcmp (Some (pcr (pcr_values st) 7))
          (Some (pcr (pcr_values st') 7)) 32 =? 0
     then (PQC_ERROR_HARDWARE_FAILURE, st', next_handle)
     else (PQC_SUCCESS, st', u32 (next_handle + 1)))
  /\ pcr (pcr_values
            (snd (tmp2_extend_pcr 7 (Some (replicate 32 0xAA)) st))) 7
     = sha3_256_digest (pcr (pcr_values st) 7 ++ replicate 32 0xAA) 64.
Proof.
  intros Hinit Hwf Halloc.
  assert (H7 : (7 < MAX_PCR_REGISTERS)%nat) by (unfold MAX_PCR_REGISTERS; lia).
  assert (Hlen7 : length (pcr (pcr_values st) 7) = 32%nat)
    by (apply pcr_length; assumption).
  pose proof (tmp2_extend_pcr_initialized 7 (replicate 32 0xAA) st
                Hinit H7 Halloc) as Hext.
  rewrite extend_data_eq in Hext by (first [exact Hlen7 | reflexivity]).
  rewrite memcpy_at_0_full in Hext
    by (rewrite sha3_256_digest_length; exact Hlen7).
  rewrite Hext. cbn [snd pcr_values].
  destruct Hwf as (Hlv & Hlc & Hall).
  rewrite pcr_insert_eq by lia.
  split; [|reflexivity].
  unfold tpm2_self_test. rewrite Hinit. cbn [negb].
  cbv zeta.
  rewrite tpm2_read_pcr_initialized
    by (first [assumption | repeat split; assumption | reflexivity]).
  cbn [is_success negb].
  rewrite Hext. cbn [is_success negb].
  set (new := sha3_256_digest _ 64).
  set (st' := {| initialized := true; pcr_values := _ |}).
  assert (Hwf' : tpm_wf st').
  { subst st'. repeat split; cbn [pcr_values extend_count].
    - rewrite length_insert. exact Hlv.
    - rewrite length_insert. exact Hlc.
    - apply Forall_insert; [exact Hall|].
      subst new. apply sha3_256_digest_length. }
  rewrite (tpm2_read_pcr_initialized 7 (replicate 32 0) st')
    by (first [exact Hwf' | exact H7 | exact Halloc | reflexivity]).
  cbn [is_success negb].
  assert (Hnew : pcr (pcr_values st') 7 = new)
    by (subst st'; cbn [pcr_values]; apply pcr_insert_eq; lia).
  rewrite Hnew.
  destruct (secure_memcmp (Some (pcr (pcr_values st) 7)) (Some new) 32 =? 0);
    [reflexivity|].
  change (tpm2_create_key TPM2_KEY_TYPE_RSA_2048 (Some 0) st' next_handle)
    with (PQC_SUCCESS, Some next_handle, u32 (next_handle + 1)).
  cbn [is_success negb default from_option id].
  rewrite tpm2_sign_success
    by (first [reflexivity | discriminate | rewrite length_replicate; lia
              | lia]).
  cbn [is_success negb default from_option id].
  rewrite tpm2_verify_of_signed by (first [reflexivity | discriminate]).
  reflexivity.
Qed.

Lemma tpm2_self_test_extends_pcr7_witness :
  let st := {| initialized := true;
               pcr_values := replicate MAX_PCR_REGISTERS (replicate 32 0);
               pcr_allocated := replicate MAX_PCR_REGISTERS true;
               extend_count := replicate MAX_PCR_REGISTERS 0 |} in
  initialized st = true /\ tpm_wf st /\ flag (pcr_allocated st) 7 = true
  /\ tpm2_self_test st 2147483649
     = (let st' := snd (tmp2_extend_pcr 7 (Some (replicate 32 0xAA)) st) in
        if secure_memcmp (Some (pcr (pcr_values st) 7))
             (Some (pcr (pcr_values st') 7)) 32 =? 0
        then (PQC_ERROR_HARDWARE_FAILURE, st', 2147483649)
        else (PQC_SUCCESS, st', u32 (2147483649 + 1)))
  /\ pcr (pcr_values
            (snd (tmp2_extend_pcr 7 (Some (replicate 32 0xAA)) st))) 7
     = sha3_256_digest (pcr (pcr_values st) 7 ++ replicate 32 0xAA) 64.
Proof.
  intros st.
  assert (H1 : initialized st = true) by reflexivity.
  assert (H2 : tpm_wf st).
  { repeat split; try reflexivity. apply Forall_replicate. reflexivity. }
  assert (H3 : flag (pcr_allocated st) 7 = true) by reflexivity.
  split; [exact H1|]. split; [exact H2|]. split; [exact H3|].
  exact (tpm2_self_test_extends_pcr7 st 2147483649 H1 H2 H3).
Defined.

End TpmFacts.

(** ** attestation_engine.c: measurements, reports and cleanup *)

Section EngineFacts.
Import CryptoHash Dilithium Tpm2 Attestation.

(** The hash wrapper never fails on buffers that exist. *)
Lemma calculate_sha256_some (data : list Z) (n : nat) (h : list Z) :
  calculate_sha256 (Some data) n (Some h)
  = (PQC_SUCCESS, Some (memcpy_at h 0 (sha3_256_digest data n))).
Proof. reflexivity. Qed.

(** Whatever [dilithium_sign] returns, it is not success. *)
Lemma dilithium_sign_not_success (fuel : nat) (signature : option (list Z))
  (siglen : option nat) (message : option (list Z)) (msglen : nat)
  (sk : option dilithium_secret_key_t) (tape : list Z) :
  match dilithium_sign fuel signature siglen message msglen sk tape with
  | Some (r, _, _, _) => is_success r = false
  | None => True
  end.
Proof.
  unfold dilithium_sign.
  destruct signature as [sig0|]; [|reflexivity].
  destruct siglen as [n|]; [|reflexivity].
  destruct message as [msg|]; [|reflexivity].
  destruct sk as [sk0|]; [|reflexivity].
  destruct (pqc_randombytes (Some (replicate 64 0)) 64 tape)
    as [[r rhoprime] tape'].
  destruct (is_success r); cbn [negb]; [|reflexivity].
  rewrite sign_loop_diverges. exact I.
Qed.

Lemma dilithium_sign_diverges (fuel : nat) (sig0 : list Z) (n : nat)
  (msg : list Z) (msglen : nat) (sk : dilithium_secret_key_t)
  (tape : list Z) :
  (64 <= length tape)%nat ->
  dilithium_sign fuel (Some sig0) (Some n) (Some msg) msglen (Some sk) tape
  = None.
Proof.
  intros Htape. unfold dilithium_sign.
  rewrite pqc_randombytes_enough
    by (rewrite ?length_replicate; first [lia | discriminate]).
  cbn [is_success negb].
  rewrite sign_loop_diverges. reflexivity.
Qed.

Lemma flag_insert_eq (flags : list bool) (i : nat) (b : bool) :
  (i < length flags)%nat -> flag (<[i := b]> flags) i = b.
Proof.
  intros Hi. unfold flag. rewrite list_lookup_insert_eq by exact Hi.
  reflexivity.
Qed.

Lemma flag_insert_ne (flags : list bool) (i j : nat) (b : bool) :
  i <> j -> flag (<[i := b]> flags) j = flag flags j.
Proof.
  intros Hne. unfold flag. rewrite list_lookup_insert_ne by exact Hne.
  reflexivity.
Qed.

Lemma cache_row_length (st : engine_state) (i : nat) :
  engine_wf st -> (i < MAX_PCR_REGISTERS)%nat ->
  length (pcr (ctx_pcr_values (g_attestation_ctx st)) i) = 32%nat.
Proof.
  intros (_ & _ & Hlen & _ & Hall) Hi. unfold pcr.
  destruct (lookup_lt_is_Some_2 (ctx_pcr_values (g_attestation_ctx st)) i)
    as [v Hv]; [lia|].
  rewrite Hv. simpl.
  rewrite Forall_lookup in Hall. exact (Hall i v Hv).
Qed.

(** On an engine in use [extend_pcr] succeeds for every register below 8
    and every measurement. *)
Lemma extend_pcr_ready (i : nat) (m : list Z) (st : engine_state) :
  engine_ready st -> engine_wf st -> (i < MAX_PCR_REGISTERS)%nat ->
  exists st', extend_pcr i m st = (PQC_SUCCESS, st') /\ pcr_extended i st st'
    /\ measurement_log (g_attestation_ctx st')
       = measurement_log (g_attestation_ctx st).
Proof.
  intros (Hg & Hinit & Halloc) Hwf Hi.
  pose proof Hwf as (Htwf & Hla & Hlc & Hlv & Hall).
  pose proof Htwf as (Hlp & Hle & Hallp).
  unfold extend_pcr.
  destruct (Nat.leb_spec MAX_PCR_REGISTERS i) as [Hge|_]; [lia|].
  rewrite tpm2_read_pcr_initialized
    by (first [assumption | apply Halloc; assumption | reflexivity]).
  cbn [is_success negb default from_option id].
  rewrite calculate_sha256_some.
  cbn [is_success negb default from_option id].
  rewrite tmp2_extend_pcr_initialized
    by (first [assumption | apply Halloc; assumption]).
  cbn [is_success negb default from_option id].
  set (new := sha3_256_digest _ 64).
  assert (Hnew : length new = 32%nat) by apply sha3_256_digest_length.
  rewrite (memcpy_at_0_full (replicate 32 0) new)
    by (rewrite length_replicate; symmetry; exact Hnew).
  rewrite (memcpy_at_0_full (pcr (pcr_values (tpm_state st)) i) new)
    by (rewrite pcr_length by assumption; symmetry; exact Hnew).
  eexists. split; [reflexivity|]. split; [|reflexivity].
  unfold pcr_extended, engine_ready, engine_wf, tpm_wf.
  cbn [set_ctx set_tpm g_attestation_ctx g_attestation_initialized tpm_state
       initialized pcr_values pcr_allocated extend_count
       device_info device_keypair device_keypair_valid ctx_pcr_values
       pcr_valid].
  rewrite (memcpy_at_0_full
             (pcr (ctx_pcr_values (g_attestation_ctx st)) i) new)
    by (rewrite cache_row_length by assumption; symmetry; exact Hnew).
  rewrite !length_insert.
  repeat match goal with |- _ /\ _ => split end;
    try first [assumption | reflexivity].
  - apply Forall_insert; assumption.
  - apply Forall_insert; assumption.
  - intros j Hj. rewrite !pcr_insert_ne by congruence.
    rewrite flag_insert_ne by congruence. repeat split.
  - rewrite !pcr_insert_eq by lia. reflexivity.
  - apply flag_insert_eq. lia.
Qed.

(** [log_append] touches nothing but the log. *)
Lemma log_append_extended (i : nat) (m : platform_measurement_t)
  (st st' : engine_state) :
  pcr_extended i st st' -> pcr_extended i st (log_append m st').
Proof.
  unfold log_append.
  destruct (count (measurement_log (g_attestation_ctx st'))
            <? MAX_MEASUREMENT_LOG_ENTRIES)%nat; [|exact (fun H => H)].
  intros H. exact H.
Qed.

Lemma log_append_count (m : platform_measurement_t) (st : engine_state) :
  count (measurement_log (g_attestation_ctx (log_append m st)))
  = if (count (measurement_log (g_attestation_ctx st))
        <? MAX_MEASUREMENT_LOG_ENTRIES)%nat
    then S (count (measurement_log (g_attestation_ctx st)))
    else count (measurement_log (g_attestation_ctx st)).
Proof.
  unfold log_append.
  destruct (count (measurement_log (g_attestation_ctx st))
            <? MAX_MEASUREMENT_LOG_ENTRIES)%nat; reflexivity.
Qed.

Lemma pcr_arg_small (i : nat) :
  (i < MAX_PCR_REGISTERS)%nat -> pcr_arg i = i.
Proof.
  intros Hi. unfold pcr_arg, u8, MAX_PCR_REGISTERS in *.
  change 255 with (Z.ones 8). rewrite Z.land_ones by lia.
  rewrite Z.mod_small by lia. apply Nat2Z.id.
Qed.

Lemma NoDup_five (a b c d e : nat) :
  List.NoDup [a; b; c; d; e] ->
  a <> b /\ a <> c /\ a <> d /\ a <> e /\ b <> c /\ b <> d /\ b <> e
  /\ c <> d /\ c <> e /\ d <> e.
Proof.
  intros H.
  apply List.NoDup_cons_iff in H. destruct H as [Ha H].
  apply List.NoDup_cons_iff in H. destruct H as [Hb H].
  apply List.NoDup_cons_iff in H. destruct H as [Hc H].
  apply List.NoDup_cons_iff in H. destruct H as [Hd _].
  simpl in Ha, Hb, Hc, Hd.
  repeat split; intros E; subst; tauto.
Qed.

Lemma collect_firmware_ready (idx : nat) (m : platform_measurement_t)
  (now : Z) (st : engine_state) :
  (idx < MAX_PCR_REGISTERS)%nat -> engine_ready st -> engine_wf st ->
  exists m' st',
    collect_firmware_measurement idx m now st = (PQC_SUCCESS, m', st')
    /\ pcr_extended idx st st'
    /\ measurement_log (g_attestation_ctx st')
       = measurement_log (g_attestation_ctx st).
Proof.
  intros Hidx Hr Hwf. unfold collect_firmware_measurement. cbv zeta.
  rewrite (pcr_arg_small idx Hidx).
  rewrite calculate_sha256_some.
  cbn [is_success negb default from_option id].
  match goal with
  | |- context [extend_pcr ?i ?v st] =>
    destruct (extend_pcr_ready i v st Hr Hwf) as (st' & He & Hp & Hl);
      [exact Hidx|];
    rewrite He
  end.
  eexists _, st'. split; [reflexivity|]. split; assumption.
Qed.

Lemma collect_config_ready (idx : nat) (m : platform_measurement_t)
  (now : Z) (st : engine_state) :
  (idx < MAX_PCR_REGISTERS)%nat -> engine_ready st -> engine_wf st ->
  exists m' st',
    collect_config_measurement idx m now st = (PQC_SUCCESS, m', st')
    /\ pcr_extended idx st st'
    /\ measurement_log (g_attestation_ctx st')
       = measurement_log (g_attestation_ctx st).
Proof.
  intros Hidx Hr Hwf. unfold collect_config_measurement. cbv zeta.
  rewrite (pcr_arg_small idx Hidx).
  rewrite calculate_sha256_some.
  cbn [is_success negb default from_option id].
  match goal with
  | |- context [extend_pcr ?i ?v st] =>
    destruct (extend_pcr_ready i v st Hr Hwf) as (st' & He & Hp & Hl);
      [exact Hidx|];
    rewrite He
  end.
  eexists _, st'. split; [reflexivity|]. split; assumption.
Qed.

Lemma collect_runtime_ready (idx : nat) (m : platform_measurement_t)
  (now : Z) (st : engine_state) :
  (idx < MAX_PCR_REGISTERS)%nat -> engine_ready st -> engine_wf st ->
  exists m' st',
    collect_runtime_measurement idx m now st = (PQC_SUCCESS, m', st')
    /\ pcr_extended idx st st'
    /\ measurement_log (g_attestation_ctx st')
       = measurement_log (g_attestation_ctx st).
Proof.
  intros Hidx Hr Hwf. unfold collect_runtime_measurement. cbv zeta.
  rewrite (pcr_arg_small idx Hidx).
  rewrite calculate_sha256_some.
  cbn [is_success negb default from_option id].
  match goal with
  | |- context [extend_pcr ?i ?v st] =>
    destruct (extend_pcr_ready i v st Hr Hwf) as (st' & He & Hp & Hl);
      [exact Hidx|];
    rewrite He
  end.
  eexists _, st'. split; [reflexivity|]. split; assumption.
Qed.

Lemma collect_keys_ready (idx : nat) (m : platform_measurement_t)
  (now : Z) (st : engine_state) :
  (idx < MAX_PCR_REGISTERS)%nat -> engine_ready st -> engine_wf st ->
  exists m' st',
    collect_keys_measurement idx m now st = (PQC_SUCCESS, m', st')
    /\ pcr_extended idx st st'
    /\ measurement_log (g_attestation_ctx st')
       = measurement_log (g_attestation_ctx st).
Proof.
  intros Hidx Hr Hwf. unfold collect_keys_measurement. cbv zeta.
  rewrite (pcr_arg_small idx Hidx).
  destruct (device_keypair_valid (g_attestation_ctx st));
    rewrite ?calculate_sha256_some;
    cbn [is_success negb default from_option id];
    match goal with
    | |- context [extend_pcr ?i ?v st] =>
      destruct (extend_pcr_ready i v st Hr Hwf) as (st' & He & Hp & Hl);
        [exact Hidx|];
      rewrite He
    end;
    (eexists _, st'; split; [reflexivity|]; split; assumption).
Qed.

Lemma collect_device_id_ready (idx : nat) (m : platform_measurement_t)
  (now : Z) (st : engine_state) :
  (idx < MAX_PCR_REGISTERS)%nat -> engine_ready st -> engine_wf st ->
  exists m' st',
    collect_device_id_measurement idx m now st = (PQC_SUCCESS, m', st')
    /\ pcr_extended idx st st'
    /\ measurement_log (g_attestation_ctx st')
       = measurement_log (g_attestation_ctx st).
Proof.
  intros Hidx Hr Hwf. unfold collect_device_id_measurement. cbv zeta.
  rewrite (pcr_arg_small idx Hidx).
  destruct (0 <? strlen (serial_number (device_info (g_attestation_ctx st))))%nat;
    rewrite calculate_sha256_some;
    cbn [is_success negb default from_option id];
    match goal with
    | |- context [extend_pcr ?i ?v st] =>
      destruct (extend_pcr_ready i v st Hr Hwf) as (st' & He & Hp & Hl);
        [exact Hidx|];
      rewrite He
    end;
    (eexists _, st'; split; [reflexivity|]; split; assumption).
Qed.

(** attestation_collect_measurements: on an engine in use, and with the
    five register names standing for five different registers below 8, one
    run succeeds and extends each of the five registers exactly once,
    leaving the cache equal to the bank there and every other register
    alone.  It adds five entries to the log, or as many as still fit below
    256: measurements taken when the log is full are extended into the
    registers but not logged. *)
Theorem attestation_collect_measurements_extends
  (fw cfg rt keys id : nat) (m : platform_measurement_t) (clock : list Z)
  (st : engine_state) :
  List.NoDup [fw; cfg; rt; keys; id] ->
  (forall i, In i [fw; cfg; rt; keys; id] -> (i < MAX_PCR_REGISTERS)%nat) ->
  engine_ready st -> engine_wf st ->
  (count (measurement_log (g_attestation_ctx st))
   <= MAX_MEASUREMENT_LOG_ENTRIES)%nat ->
  exists st',
    attestation_collect_measurements fw cfg rt keys id m clock st
    = (PQC_SUCCESS, st')
    /\ count (measurement_log (g_attestation_ctx st'))
       = Nat.min (count (measurement_log (g_attestation_ctx st)) + 5)
           MAX_MEASUREMENT_LOG_ENTRIES
    /\ (forall i, In i [fw; cfg; rt; keys; id] ->
          rd (extend_count (tpm_state st')) i
          = u32 (rd (extend_count (tpm_state st)) i + 1)
          /\ flag (pcr_valid (g_attestation_ctx st')) i = true
          /\ pcr (ctx_pcr_values (g_attestation_ctx st')) i
             = pcr (pcr_values (tpm_state st')) i)
    /\ (forall i, ~ In i [fw; cfg; rt; keys; id] ->
          pcr (pcr_values (tpm_state st')) i
          = pcr (pcr_values (tpm_state st)) i
          /\ rd (extend_count (tpm_state st')) i
             = rd (extend_count (tpm_state st)) i)
    /\ engine_ready st'.
Proof.
  intros Hnd Hlt Hr Hwf Hcount.
  destruct (NoDup_five _ _ _ _ _ Hnd)
    as (Dab & Dac & Dad & Dae & Dbc & Dbd & Dbe & Dcd & Dce & Dde).
  assert (Hfw : (fw < MAX_PCR_REGISTERS)%nat) by (apply Hlt; simpl; tauto).
  assert (Hcfg : (cfg < MAX_PCR_REGISTERS)%nat) by (apply Hlt; simpl; tauto).
  assert (Hrt : (rt < MAX_PCR_REGISTERS)%nat) by (apply Hlt; simpl; tauto).
  assert (Hkeys : (keys < MAX_PCR_REGISTERS)%nat)
    by (apply Hlt; simpl; tauto).
  assert (Hid : (id < MAX_PCR_REGISTERS)%nat) by (apply Hlt; simpl; tauto).
  clear Hlt Hnd.
  pose proof Hr as (Hg & _).
  unfold attestation_collect_measurements. rewrite Hg. cbn [negb].
  destruct (collect_firmware_ready fw m (rd clock 0) st Hfw Hr Hwf)
    as (m1 & st1 & E1 & P1 & L1).
  rewrite E1. cbn [is_success negb].
  apply (log_append_extended _ m1) in P1.
  pose proof (log_append_count m1 st1) as C1. rewrite L1 in C1.
  set (s1 := log_append m1 st1) in *.
  pose proof P1 as (Hr1 & Hwf1 & _).
  destruct (collect_config_ready cfg m1 (rd clock 1) s1 Hcfg Hr1 Hwf1)
    as (m2 & st2 & E2 & P2 & L2).
  rewrite E2. cbn [is_success negb].
  apply (log_append_extended _ m2) in P2.
  pose proof (log_append_count m2 st2) as C2. rewrite L2 in C2.
  set (s2 := log_append m2 st2) in *.
  pose proof P2 as (Hr2 & Hwf2 & _).
  destruct (collect_runtime_ready rt m2 (rd clock 2) s2 Hrt Hr2 Hwf2)
    as (m3 & st3 & E3 & P3 & L3).
  rewrite E3. cbn [is_success negb].
  apply (log_append_extended _ m3) in P3.
  pose proof (log_append_count m3 st3) as C3. rewrite L3 in C3.
  set (s3 := log_append m3 st3) in *.
  pose proof P3 as (Hr3 & Hwf3 & _).
  destruct (collect_keys_ready keys m3 (rd clock 3) s3 Hkeys Hr3 Hwf3)
    as (m4 & st4 & E4 & P4 & L4).
  rewrite E4. cbn [is_success negb].
  apply (log_append_extended _ m4) in P4.
  pose proof (log_append_count m4 st4) as C4. rewrite L4 in C4.
  set (s4 := log_append m4 st4) in *.
  pose proof P4 as (Hr4 & Hwf4 & _).
  destruct (collect_device_id_ready id m4 (rd clock 4) s4 Hid Hr4 Hwf4)
    as (m5 & st5 & E5 & P5 & L5).
  rewrite E5. cbn [is_success negb].
  apply (log_append_extended _ m5) in P5.
  pose proof (log_append_count m5 st5) as C5. rewrite L5 in C5.
  set (s5 := log_append m5 st5) in *.
  exists s5. split; [reflexivity|].
  destruct P1 as (_ & _ & _ & _ & _ & X1 & F1 & K1 & V1).
  destruct P2 as (_ & _ & _ & _ & _ & X2 & F2 & K2 & V2).
  destruct P3 as (_ & _ & _ & _ & _ & X3 & F3 & K3 & V3).
  destruct P4 as (_ & _ & _ & _ & _ & X4 & F4 & K4 & V4).
  destruct P5 as (Hr5 & _ & _ & _ & _ & X5 & F5 & K5 & V5).
  destruct Hwf as ((_ & Hle & _) & _).
  assert (Hle1 : length (extend_count (tpm_state s1)) = MAX_PCR_REGISTERS)
    by (rewrite X1, length_insert; exact Hle).
  assert (Hle2 : length (extend_count (tpm_state s2)) = MAX_PCR_REGISTERS)
    by (rewrite X2, length_insert; exact Hle1).
  assert (Hle3 : length (extend_count (tpm_state s3)) = MAX_PCR_REGISTERS)
    by (rewrite X3, length_insert; exact Hle2).
  assert (Hle4 : length (extend_count (tpm_state s4)) = MAX_PCR_REGISTERS)
    by (rewrite X4, length_insert; exact Hle3).
  split; [|split; [|split; [|exact Hr5]]].
  - rewrite C5, C4, C3, C2, C1. clear -Hcount.
    unfold MAX_MEASUREMENT_LOG_ENTRIES in *.
    set (c := count (measurement_log (g_attestation_ctx st))) in *.
    clearbody c.
    repeat match goal with
           | |- context [(?a <? 256)%nat] =>
             destruct (Nat.ltb_spec a 256)
           end; lia.
  - intros i Hi.
    assert (Hcases : i = fw \/ i = cfg \/ i = rt \/ i = keys \/ i = id)
      by (simpl in Hi; intuition congruence).
    clear Hi.
    destruct Hcases as [->|[->|[->|[->| ->]]]].
    + split; [|split].
      * rewrite X5, rd_insert_ne, X4, rd_insert_ne, X3, rd_insert_ne,
          X2, rd_insert_ne, X1, rd_insert_eq
          by first [congruence | rewrite Hle; exact Hfw].
        reflexivity.
      * rewrite (proj2 (proj2 (F5 fw ltac:(congruence)))),
          (proj2 (proj2 (F4 fw ltac:(congruence)))),
          (proj2 (proj2 (F3 fw ltac:(congruence)))),
          (proj2 (proj2 (F2 fw ltac:(congruence)))). exact V1.
      * rewrite (proj1 (proj2 (F5 fw ltac:(congruence)))),
          (proj1 (proj2 (F4 fw ltac:(congruence)))),
          (proj1 (proj2 (F3 fw ltac:(congruence)))),
          (proj1 (proj2 (F2 fw ltac:(congruence)))),
          (proj1 (F5 fw ltac:(congruence))),
          (proj1 (F4 fw ltac:(congruence))),
          (proj1 (F3 fw ltac:(congruence))),
          (proj1 (F2 fw ltac:(congruence))).
        exact K1.
    + split; [|split].
      * rewrite X5, rd_insert_ne, X4, rd_insert_ne, X3, rd_insert_ne,
          X2, rd_insert_eq, X1, rd_insert_ne
          by first [congruence | rewrite Hle1; exact Hcfg].
        reflexivity.
      * rewrite (proj2 (proj2 (F5 cfg ltac:(congruence)))),
          (proj2 (proj2 (F4 cfg ltac:(congruence)))),
          (proj2 (proj2 (F3 cfg ltac:(congruence)))). exact V2.
      * rewrite (proj1 (proj2 (F5 cfg ltac:(congruence)))),
          (proj1 (proj2 (F4 cfg ltac:(congruence)))),
          (proj1 (proj2 (F3 cfg ltac:(congruence)))),
          (proj1 (F5 cfg ltac:(congruence))),
          (proj1 (F4 cfg ltac:(congruence))),
          (proj1 (F3 cfg ltac:(congruence))).
        exact K2.
    + split; [|split].
      * rewrite X5, rd_insert_ne, X4, rd_insert_ne, X3, rd_insert_eq,
          X2, rd_insert_ne, X1, rd_insert_ne
          by first [congruence | rewrite Hle2; exact Hrt].
        reflexivity.
      * rewrite (proj2 (proj2 (F5 rt ltac:(congruence)))),
          (proj2 (proj2 (F4 rt ltac:(congruence)))). exact V3.
      * rewrite (proj1 (proj2 (F5 rt ltac:(congruence)))),
          (proj1 (proj2 (F4 rt ltac:(congruence)))),
          (proj1 (F5 rt ltac:(congruence))),
          (proj1 (F4 rt ltac:(congruence))).
        exact K3.
    + split; [|split].
      * rewrite X5, rd_insert_ne, X4, rd_insert_eq, X3, rd_insert_ne,
          X2, rd_insert_ne, X1, rd_insert_ne
          by first [congruence | rewrite Hle3; exact Hkeys].
        reflexivity.
      * rewrite (proj2 (proj2 (F5 keys ltac:(congruence)))). exact V4.
      * rewrite (proj1 (proj2 (F5 keys ltac:(congruence)))),
          (proj1 (F5 keys ltac:(congruence))).
        exact K4.
    + split; [|split].
      * rewrite X5, rd_insert_eq, X4, rd_insert_ne, X3, rd_insert_ne,
          X2, rd_insert_ne, X1, rd_insert_ne
          by first [congruence | rewrite Hle4; exact Hid].
        reflexivity.
      * exact V5.
      * exact K5.
  - intros i Hi.
    assert (H1 : i <> fw) by (intros ->; apply Hi; simpl; tauto).
    assert (H2 : i <> cfg) by (intros ->; apply Hi; simpl; tauto).
    assert (H3 : i <> rt) by (intros ->; apply Hi; simpl; tauto).
    assert (H4 : i <> keys) by (intros ->; apply Hi; simpl; tauto).
    assert (H5 : i <> id) by (intros ->; apply Hi; simpl; tauto).
    split.
    + rewrite (proj1 (F5 i H5)), (proj1 (F4 i H4)), (proj1 (F3 i H3)),
        (proj1 (F2 i H2)), (proj1 (F1 i H1)). reflexivity.
    + rewrite X5, rd_insert_ne, X4, rd_insert_ne, X3, rd_insert_ne,
        X2, rd_insert_ne, X1, rd_insert_ne by congruence. reflexivity.
Qed.

Lemma secure_memzero_full (p : list Z) :
  secure_memzero p (length p) = replicate (length p) 0.
Proof.
  unfold secure_memzero.
  rewrite (for_range_pointwise (fun _ _ => 0)) by apply le_n.
  rewrite map_const_seq, drop_ge by apply le_n. apply app_nil_r.
Qed.

Lemma secure_memzero_32 (p : list Z) :
  length p = 32%nat -> secure_memzero p 32 = replicate 32 0.
Proof. intros H. rewrite <- H. apply secure_memzero_full. Qed.

(** The loop of [attestation_cleanup] over the cache. *)
Lemma cleanup_cache_loop (values : list (list Z)) (valid : list bool) :
  length values = MAX_PCR_REGISTERS -> length valid = MAX_PCR_REGISTERS ->
  Forall (fun v => length v = 32%nat) values ->
  for_range 0 MAX_PCR_REGISTERS (fun i '(values, valid) =>
    (<[i := secure_memzero (pcr values i) 32]> values,
     <[i := false]> valid)) (values, valid)
  = (replicate MAX_PCR_REGISTERS (replicate 32 0),
     replicate MAX_PCR_REGISTERS false).
Proof.
  intros Hlv Hlf Hall.
  destruct (list_length_8 values Hlv)
    as (v0 & v1 & v2 & v3 & v4 & v5 & v6 & v7 & ->).
  destruct (list_length_8 valid Hlf)
    as (f0 & f1 & f2 & f3 & f4 & f5 & f6 & f7 & ->).
  repeat match goal with
         | H : Forall _ (_ :: _) |- _ =>
           apply Forall_cons in H; destruct H as [? H]
         end.
  cbn -[secure_memzero replicate].
  rewrite !secure_memzero_32 by assumption.
  reflexivity.
Qed.

(** attestation_cleanup: on an initialised engine the call clears the
    initialised flag, the key-valid flag, the cached registers with their
    valid flags and the log counter, and shuts the bank down.  The secret
    key is overwritten with zeros when the key pair was marked valid, and
    only then: with the flag down the key material stays in memory.  The
    public key is kept in both cases. *)
Theorem attestation_cleanup_wipes (st : engine_state) :
  g_attestation_initialized st = true -> engine_wf st ->
  g_attestation_initialized (attestation_cleanup st) = false
  /\ device_keypair_valid (g_attestation_ctx (attestation_cleanup st)) = false
  /\ ctx_pcr_values (g_attestation_ctx (attestation_cleanup st))
     = replicate MAX_PCR_REGISTERS (replicate 32 0)
  /\ pcr_valid (g_attestation_ctx (attestation_cleanup st))
     = replicate MAX_PCR_REGISTERS false
  /\ count (measurement_log (g_attestation_ctx (attestation_cleanup st)))
     = 0%nat
  /\ tpm_state (attestation_cleanup st) = tpm2_cleanup (tpm_state st)
  /\ kp_pk (device_keypair (g_attestation_ctx (attestation_cleanup st)))
     = kp_pk (device_keypair (g_attestation_ctx st))
  /\ kp_sk (device_keypair (g_attestation_ctx (attestation_cleanup st)))
     = (let sk := kp_sk (device_keypair (g_attestation_ctx st)) in
        if device_keypair_valid (g_attestation_ctx st)
        then {| sk_rho := replicate (length (sk_rho sk)) 0;
                sk_key := replicate (length (sk_key sk)) 0;
                sk_tr := replicate (length (sk_tr sk)) 0;
                sk_s1 := replicate (length (sk_s1 sk)) 0;
                sk_s2 := replicate (length (sk_s2 sk)) 0;
                sk_t0 := replicate (length (sk_t0 sk)) 0 |}
        else sk).
Proof.
  intros Hg (_ & _ & Hlc & Hlv & Hall).
  unfold attestation_cleanup. rewrite Hg. cbn [negb].
  rewrite cleanup_cache_loop by assumption.
  destruct (device_keypair_valid (g_attestation_ctx st)) eqn:Hv;
    cbn [g_attestation_ctx g_attestation_initialized tpm_state
         device_keypair device_keypair_valid ctx_pcr_values pcr_valid
         measurement_log count kp_pk kp_sk].
  - unfold clear_secret_key. rewrite !secure_memzero_full.
    repeat split.
  - repeat split.
Qed.

Section Signing.

Variable report_signed_bytes : attestation_report_t -> list Z.
Variable certificate_signed_bytes : device_certificate_t -> list Z.

(** attestation_generate_report, attestation_get_device_certificate: no
    call of either returns PQC_SUCCESS, because both sign with
    [dilithium_sign].  On an initialised engine, with a buffer to fill and
    a random source that delivers 64 bytes, neither call returns at all. *)
Theorem engine_signing_never_succeeds :
  (forall fuel report now st tape,
      match attestation_generate_report report_signed_bytes fuel report now
              st tape with
      | Some (r, _, _) => is_success r = false
      | None => True
      end)
  /\ (forall fuel cert now st tape,
      match attestation_get_device_certificate certificate_signed_bytes fuel
              cert now st tape with
      | Some (r, _, _) => is_success r = false
      | None => True
      end)
  /\ (forall fuel rep now st tape,
      g_attestation_initialized st = true -> (64 <= length tape)%nat ->
      attestation_generate_report report_signed_bytes fuel (Some rep) now
        st tape = None)
  /\ (forall fuel cert now st tape,
      g_attestation_initialized st = true -> (64 <= length tape)%nat ->
      attestation_get_device_certificate certificate_signed_bytes fuel
        (Some cert) now st tape = None).
Proof.
  split; [|split; [|split]].
  - intros fuel report now st tape. unfold attestation_generate_report.
    destruct report as [rep|]; [|reflexivity].
    destruct (g_attestation_initialized st); cbn [negb]; [|reflexivity].
    cbv zeta. rewrite calculate_sha256_some. cbn [is_success negb].
    match goal with
    | |- context [dilithium_sign ?f ?a ?b ?c ?d ?e ?t] =>
      pose proof (dilithium_sign_not_success f a b c d e t) as H;
      destruct (dilithium_sign f a b c d e t) as [[[[r sg] sl] tp]|]
    end; [|exact I].
    rewrite H. cbn [negb]. exact H.
  - intros fuel cert now st tape.
    unfold attestation_get_device_certificate.
    destruct cert as [c|]; [|reflexivity].
    destruct (g_attestation_initialized st); cbn [negb]; [|reflexivity].
    cbv zeta. rewrite calculate_sha256_some. cbn [is_success negb].
    match goal with
    | |- context [dilithium_sign ?f ?a ?b ?c ?d ?e ?t] =>
      pose proof (dilithium_sign_not_success f a b c d e t) as H;
      destruct (dilithium_sign f a b c d e t) as [[[[r sg] sl] tp]|]
    end; [|exact I].
    rewrite H. cbn [negb]. exact H.
  - intros fuel rep now st tape Hinit Htape.
    unfold attestation_generate_report. rewrite Hinit. cbn [negb].
    cbv zeta. rewrite calculate_sha256_some. cbn [is_success negb].
    rewrite dilithium_sign_diverges by exact Htape. reflexivity.
  - intros fuel cert now st tape Hinit Htape.
    unfold attestation_get_device_certificate. rewrite Hinit. cbn [negb].
    cbv zeta. rewrite calculate_sha256_some. cbn [is_success negb].
    rewrite dilithium_sign_diverges by exact Htape. reflexivity.
Qed.

End Signing.

Lemma ready_engine_example :
  let st := {| g_attestation_ctx := zero_context;
               g_attestation_initialized := true;
               tpm_state :=
                 {| initialized := true;
                    pcr_values := replicate MAX_PCR_REGISTERS (replicate 32 0);
                    pcr_allocated := replicate MAX_PCR_REGISTERS true;
                    extend_count := replicate MAX_PCR_REGISTERS 0 |} |} in
  engine_ready st /\ engine_wf st.
Proof.
  intros st. split.
  - split; [reflexivity|]. split; [reflexivity|].
    intros i Hi. unfold MAX_PCR_REGISTERS in Hi.
    do 8 (destruct i as [|i]; [reflexivity|]). lia.
  - repeat split; try reflexivity; apply Forall_replicate; reflexivity.
Qed.

Lemma engine_signing_never_succeeds_witness :
  attestation_generate_report (fun rep => device_id rep) 1000
    (Some zero_report) 1700000000
    {| g_attestation_ctx := zero_context;
       g_attestation_initialized := true;
       tpm_state := tpm_state_zero |} (replicate 64 7) = None.
Proof.
  apply (proj1 (proj2 (proj2
           (engine_signing_never_succeeds (fun rep => device_id rep)
              (fun cert => ca_signature cert))))).
  - reflexivity.
  - rewrite length_replicate. apply le_n.
Defined.

Lemma attestation_collect_measurements_extends_witness :
  let st := {| g_attestation_ctx := zero_context;
               g_attestation_initialized := true;
               tpm_state :=
                 {| initialized := true;
                    pcr_values := replicate MAX_PCR_REGISTERS (replicate 32 0);
                    pcr_allocated := replicate MAX_PCR_REGISTERS true;
                    extend_count := replicate MAX_PCR_REGISTERS 0 |} |} in
  exists st',
    attestation_collect_measurements 0 1 2 3 5 zero_measurement
      [1700000000; 1700000000; 1700000001; 1700000001; 1700000002] st
    = (PQC_SUCCESS, st')
    /\ count (measurement_log (g_attestation_ctx st'))
       = Nat.min (count (measurement_log (g_attestation_ctx st)) + 5)
           MAX_MEASUREMENT_LOG_ENTRIES
    /\ (forall i, In i [0; 1; 2; 3; 5]%nat ->
          rd (extend_count (tpm_state st')) i
          = u32 (rd (extend_count (tpm_state st)) i + 1)
          /\ flag (pcr_valid (g_attestation_ctx st')) i = true
          /\ pcr (ctx_pcr_values (g_attestation_ctx st')) i
             = pcr (pcr_values (tpm_state st')) i)
    /\ (forall i, ~ In i [0; 1; 2; 3; 5]%nat ->
          pcr (pcr_values (tpm_state st')) i
          = pcr (pcr_values (tpm_state st)) i
          /\ rd (extend_count (tpm_state st')) i
             = rd (extend_count (tpm_state st)) i)
    /\ engine_ready st'.
Proof.
  intros st.
  apply (attestation_collect_measurements_extends 0 1 2 3 5 zero_measurement
           [1700000000; 1700000000; 1700000001; 1700000001; 1700000002] st).
  - repeat constructor; simpl; lia.
  - intros i Hi. unfold MAX_PCR_REGISTERS. simpl in Hi. lia.
  - exact (proj1 ready_engine_example).
  - exact (proj2 ready_engine_example).
  - apply Nat.le_0_l.
Defined.

Lemma attestation_cleanup_wipes_witness :
  let sk := {| sk_rho := replicate 32 1; sk_key := replicate 32 2;
               sk_tr := replicate 64 3;
               sk_s1 := replicate (DILITHIUM_L * DILITHIUM_N) 4;
               sk_s2 := replicate (DILITHIUM_K * DILITHIUM_N) 5;
               sk_t0 := replicate (DILITHIUM_K * DILITHIUM_N) 6 |} in
  let ctx := {| config := config zero_context;
                device_info := device_info zero_context;
                device_keypair :=
                  {| kp_pk := kp_pk (device_keypair zero_context);
                     kp_sk := sk |};
                device_keypair_valid := true;
                ctx_pcr_values := replicate MAX_PCR_REGISTERS (replicate 32 9);
                pcr_valid := replicate MAX_PCR_REGISTERS true;
                measurement_log := measurement_log zero_context;
                last_attestation_time := 0 |} in
  let st := {| g_attestation_ctx := ctx;
               g_attestation_initialized := true;
               tpm_state := tpm_state_zero |} in
  g_attestation_initialized (attestation_cleanup st) = false
  /\ kp_sk (device_keypair (g_attestation_ctx (attestation_cleanup st)))
     = {| sk_rho := replicate 32 0; sk_key := replicate 32 0;
          sk_tr := replicate 64 0;
          sk_s1 := replicate (DILITHIUM_L * DILITHIUM_N) 0;
          sk_s2 := replicate (DILITHIUM_K * DILITHIUM_N) 0;
          sk_t0 := replicate (DILITHIUM_K * DILITHIUM_N) 0 |}.
Proof.
  intros sk ctx st.
  assert (Hg : g_attestation_initialized st = true) by reflexivity.
  assert (Hwf : engine_wf st).
  { repeat split; try reflexivity; apply Forall_replicate; reflexivity. }
  destruct (attestation_cleanup_wipes st Hg Hwf)
    as (H1 & _ & _ & _ & _ & _ & _ & H8).
  split; [exact H1|].
  rewrite H8. cbn [st ctx sk g_attestation_ctx device_keypair
                   device_keypair_valid kp_sk sk_rho sk_key sk_tr sk_s1
                   sk_s2 sk_t0].
  rewrite !length_replicate. reflexivity.
Defined.

End EngineFacts.

(** ** pqc_common.c: the Generation 1 placeholder hashes *)

Section PlaceholderHashes.

Lemma list_length_32 (l : list Z) :
  length l = 32%nat ->
  exists x0 x1 x2 x3 x4 x5 x6 x7 x8 x9 x10 x11 x12 x13 x14 x15 x16 x17 x18
         x19 x20 x21 x22 x23 x24 x25 x26 x27 x28 x29 x30 x31,
    l = [x0; x1; x2; x3; x4; x5; x6; x7; x8; x9; x10; x11; x12; x13; x14;
         x15; x16; x17; x18; x19; x20; x21; x22; x23; x24; x25; x26; x27;
         x28; x29; x30; x31].
Proof.
  intros H.
  do 32 (destruct l as [|? l]; [discriminate|]).
  destruct l; [|discriminate].
  repeat eexists.
Qed.

Lemma sha3_fold_two_blocks (a b : list Z) :
  length a = 32%nat -> length b = 32%nat ->
  sha3_fold 32 (a ++ b) 64 = zip_with Z.lxor a b.
Proof.
  intros Ha Hb.
  destruct (list_length_32 a Ha) as
    (a0 & a1 & a2 & a3 & a4 & a5 & a6 & a7 & a8 & a9 & a10 & a11 & a12
     & a13 & a14 & a15 & a16 & a17 & a18 & a19 & a20 & a21 & a22 & a23
     & a24 & a25 & a26 & a27 & a28 & a29 & a30 & a31 & ->).
  destruct (list_length_32 b Hb) as
    (b0 & b1 & b2 & b3 & b4 & b5 & b6 & b7 & b8 & b9 & b10 & b11 & b12
     & b13 & b14 & b15 & b16 & b17 & b18 & b19 & b20 & b21 & b22 & b23
     & b24 & b25 & b26 & b27 & b28 & b29 & b30 & b31 & ->).
  reflexivity.
Qed.

Lemma zip_with_lxor_comm (a b : list Z) :
  zip_with Z.lxor a b = zip_with Z.lxor b a.
Proof.
  revert b. induction a as [|x a IH]; intros [|y b]; try reflexivity.
  cbn [zip_with]. rewrite Z.lxor_comm, IH. reflexivity.
Qed.

Lemma zip_with_lxor_diag (a : list Z) :
  zip_with Z.lxor a a = replicate (length a) 0.
Proof.
  induction a as [|x a IH]; [reflexivity|].
  cbn [zip_with length replicate]. rewrite Z.lxor_nilpotent, IH. reflexivity.
Qed.

(** sha3_256 of pqc_common.c: the digest of two 32-byte blocks is their
    byte-wise exclusive or.  So the two orders of the blocks have the same
    digest, and a block followed by itself hashes to 32 zero bytes. *)
Theorem placeholder_sha3_256_is_xor_of_blocks (h a b : list Z) :
  length h = 32%nat -> length a = 32%nat -> length b = 32%nat ->
  PqcCommon.sha3_256 (Some h) (Some (a ++ b)) 64
  = (PQC_SUCCESS, Some (zip_with Z.lxor a b))
  /\ PqcCommon.sha3_256 (Some h) (Some (b ++ a)) 64
     = PqcCommon.sha3_256 (Some h) (Some (a ++ b)) 64
  /\ PqcCommon.sha3_256 (Some h) (Some (a ++ a)) 64
     = (PQC_SUCCESS, Some (replicate 32 0)).
Proof.
  intros Hh Ha Hb.
  assert (Hz : forall x y, length x = 32%nat -> length y = 32%nat ->
             PqcCommon.sha3_256 (Some h) (Some (x ++ y)) 64
             = (PQC_SUCCESS, Some (zip_with Z.lxor x y))).
  { intros x y Hx Hy. unfold PqcCommon.sha3_256.
    rewrite sha3_fold_two_blocks by assumption.
    rewrite memcpy_at_0_full; [reflexivity|].
    rewrite length_zip_with, Hx, Hy. exact Hh. }
  split; [apply Hz; assumption|]. split.
  - rewrite !Hz by assumption. rewrite zip_with_lxor_comm. reflexivity.
  - rewrite Hz by assumption. rewrite zip_with_lxor_diag, Ha. reflexivity.
Qed.

Lemma placeholder_sha3_256_is_xor_of_blocks_witness :
  PqcCommon.sha3_256 (Some (replicate 32 0xFF))
    (Some (replicate 32 0x5A ++ replicate 32 0x0F)) 64
  = (PQC_SUCCESS,
     Some (zip_with Z.lxor (replicate 32 0x5A) (replicate 32 0x0F)))
  /\ PqcCommon.sha3_256 (Some (replicate 32 0xFF))
       (Some (replicate 32 0x0F ++ replicate 32 0x5A)) 64
     = PqcCommon.sha3_256 (Some (replicate 32 0xFF))
         (Some (replicate 32 0x5A ++ replicate 32 0x0F)) 64
  /\ PqcCommon.sha3_256 (Some (replicate 32 0xFF))
       (Some (replicate 32 0x5A ++ replicate 32 0x5A)) 64
     = (PQC_SUCCESS, Some (replicate 32 0)).
Proof.
  apply (placeholder_sha3_256_is_xor_of_blocks (replicate 32 0xFF)
           (replicate 32 0x5A) (replicate 32 0x0F)); reflexivity.
Defined.

(** shake128 of pqc_common.c: the output gives the input away.  Byte [i]
    of the output is input byte [i] xor the low byte of [i], so whoever
    sees [inlen] bytes of output knows the whole input. *)
Theorem placeholder_shake128_reveals_input (out input : list Z)
  (outlen inlen i : nat) :
  length out = outlen -> (i < inlen)%nat -> (inlen <= outlen)%nat ->
  exists o,
    PqcCommon.shake128 (Some out) outlen (Some input) inlen
    = (PQC_SUCCESS, Some o)
    /\ length o = outlen
    /\ Z.lxor (rd o i) (u8 (Z.of_nat i)) = rd input i.
Proof.
  intros Hout Hi Hlen. unfold PqcCommon.shake128.
  assert (Hl : length (shake128_fold outlen input inlen) = outlen)
    by (unfold shake128_fold; rewrite length_map, length_seq; reflexivity).
  rewrite memcpy_at_0_full by (rewrite Hl; exact Hout).
  eexists. split; [reflexivity|]. split; [exact Hl|].
  unfold shake128_fold. rewrite rd_map_seq by lia.
  rewrite Nat.mod_small by exact Hi.
  rewrite Z.lxor_assoc, Z.lxor_nilpotent, Z.lxor_0_r. reflexivity.
Qed.

Lemma placeholder_shake128_reveals_input_witness :
  exists o,
    PqcCommon.shake128 (Some (replicate 8 0)) 8 (Some [10; 20; 30; 40]) 4
    = (PQC_SUCCESS, Some o)
    /\ length o = 8%nat
    /\ Z.lxor (rd o 3) (u8 (Z.of_nat 3)) = rd [10; 20; 30; 40] 3.
Proof.
  apply (placeholder_shake128_reveals_input (replicate 8 0) [10; 20; 30; 40]
           8 4 3); [reflexivity | lia | lia].
Defined.

End PlaceholderHashes.
